(** * Rat Detective Online: the session server and the client reconciliation

    A shallow embedding of [server/index.js] (the socket.io session server)
    and of the remote-avatar part of [src/network/NetworkManager.ts] with the
    [RatEntity] class it drives, followed by the properties of the
    specification that were checked against them.

    Conventions of the embedding.
    - JavaScript numbers that the server only adds, subtracts and compares
      (hit points, kill and death counts, damage, colours) are integers [Z].
      Coordinates, quaternion components and times are rationals [Q]: the
      code copies them, compares them and takes affine combinations of them.
    - [Math.random()] is an oracle [random : nat -> Q]; the state counts the
      calls made so far, so the n-th call returns [random n].
    - An object used as a dictionary ([players]) is an insertion-ordered
      association list, because [Object.entries] enumerates string keys in
      insertion order and both the scoreboard and the round reset depend on
      that order.
    - A handler is a function from the state and the payload to the new
      state and the list of messages it emits, each with its audience.
      Payloads have the shape of the message catalogue; a field that the
      code defaults with [||] or [??] is an [option].
    - [setTimeout] appends a pending timer (delay, callback) to the state;
      a separate input fires a pending timer.
    - A handler throws only where it would read a property of [undefined];
      its guard and the read that follows are one match on the dictionary
      lookup, which makes every handler a total function. *)

From Stdlib Require Import ZArith QArith List String Bool Lia Lqa Permutation Sorted.
Import ListNotations.

Local Open Scope Z_scope.

(** ** JavaScript objects used as dictionaries *)

Module JSObject.

Section Object.

Context {V : Type}.

(** Entries in insertion order; every operation below keeps keys unique.
    (JavaScript lists keys that are array indices first; the keys here are
    connection ids of socket.io, which are not.) *)
Definition t : Type := list (string * V).

(** The own property [k] of [o]; [None] when there is none. For a key that
    is no property name of [Object.prototype], as the connection ids of
    socket.io and the keys of a [Map] are, this is [o[k]], with [None] for
    [undefined]. *)
Fixpoint get (k : string) (o : t) : option V :=
  match o with
  | [] => None
  | (k', v) :: o' => if String.eqb k k' then Some v else get k o'
  end.

(** [o[k] = v]: an existing key keeps its place, a new key goes last. *)
Fixpoint set (k : string) (v : V) (o : t) : t :=
  match o with
  | [] => [(k, v)]
  | (k', v') :: o' =>
      if String.eqb k k' then (k, v) :: o' else (k', v') :: set k v o'
  end.

(** [delete o[k]]. *)
Fixpoint delete (k : string) (o : t) : t :=
  match o with
  | [] => []
  | (k', v') :: o' =>
      if String.eqb k k' then delete k o' else (k', v') :: delete k o'
  end.

(** A write through the reference [o[k]] to the object stored there:
    [o[k].f = ...] when [o[k]] is defined. The entry keeps its place. *)
Fixpoint alter (f : V -> V) (k : string) (o : t) : t :=
  match o with
  | [] => []
  | (k', v') :: o' =>
      if String.eqb k k' then (k', f v') :: o' else (k', v') :: alter f k o'
  end.

(** [Object.entries(o)] and [Object.keys(o)]. *)
Definition entries (o : t) : list (string * V) := o.
Definition keys (o : t) : list string := map fst o.

(** The property names every plain object inherits from
    [Object.prototype]; each of them holds a built-in (a function, or for
    [__proto__] the prototype itself), which is truthy. *)
Definition prototype : list string :=
  [ "constructor"; "__defineGetter__"; "__defineSetter__"; "hasOwnProperty";
    "__lookupGetter__"; "__lookupSetter__"; "isPrototypeOf";
    "propertyIsEnumerable"; "toString"; "valueOf"; "__proto__";
    "toLocaleString" ]%string.

Definition inherits (k : string) : bool :=
  existsb (String.eqb k) prototype.

(** What [o[k]] evaluates to for any key: the own property, else a built-in
    found on the prototype chain, else [undefined]. *)
Inductive property : Type :=
| Own (v : V)
| Inherited
| Undefined.

Definition lookup (k : string) (o : t) : property :=
  match get k o with
  | Some v => Own v
  | None => if inherits k then Inherited else Undefined
  end.

End Object.

Arguments t : clear implicits.
Arguments property : clear implicits.

End JSObject.

(** ** The weapon: [src/weapons/CheeseGun.ts] *)

Module CheeseGun.

(** The damage [CheeseGun.update] reports for a hit, lines 178-179:
    [const dmg = isHead ? 3 : 1]. *)
Definition dmg (isHead : bool) : Z := if isHead then 3 else 1.

End CheeseGun.

(** ** The server: [server/index.js] *)

Module Server.

Import JSObject.

(** *** Game state *)

Definition MAX_HP : Z := 3.
Definition KILLS_TO_WIN : Z := 20.
Definition RESPAWN_DELAY_MS : Z := 5000.
Definition WIN_DISPLAY_MS : Z := 6000.

(** One entry of [players]. The fields are those that [join] writes.
    [oid] is not a JavaScript field: it is the identity of the object, which
    the respawn closure captures ([victim]) and which a second [join] on the
    same socket replaces by a new object under the same key. *)
Record player : Type := mkPlayer {
  oid : nat;
  x : Q; y : Q; z : Q;
  qx : Q; qy : Q; qz : Q; qw : Q;
  name : string;
  hp : Z;
  kills : Z;
  deaths : Z;
  hatType : string;
  hatColor : Z;
  furColor : Z;
  coatColor : Z
}.

Definition set_position (nx ny nz : Q) (p : player) : player :=
  mkPlayer (oid p) nx ny nz (qx p) (qy p) (qz p) (qw p) (name p)
    (hp p) (kills p) (deaths p) (hatType p) (hatColor p) (furColor p) (coatColor p).

Definition set_orientation (nqx nqy nqz nqw : Q) (p : player) : player :=
  mkPlayer (oid p) (x p) (y p) (z p) nqx nqy nqz nqw (name p)
    (hp p) (kills p) (deaths p) (hatType p) (hatColor p) (furColor p) (coatColor p).

Definition set_hp (h : Z) (p : player) : player :=
  mkPlayer (oid p) (x p) (y p) (z p) (qx p) (qy p) (qz p) (qw p) (name p)
    h (kills p) (deaths p) (hatType p) (hatColor p) (furColor p) (coatColor p).

Definition set_kills (k : Z) (p : player) : player :=
  mkPlayer (oid p) (x p) (y p) (z p) (qx p) (qy p) (qz p) (qw p) (name p)
    (hp p) k (deaths p) (hatType p) (hatColor p) (furColor p) (coatColor p).

Definition set_deaths (d : Z) (p : player) : player :=
  mkPlayer (oid p) (x p) (y p) (z p) (qx p) (qy p) (qz p) (qw p) (name p)
    (hp p) (kills p) d (hatType p) (hatColor p) (furColor p) (coatColor p).

(** What a [setTimeout] callback of the server does when it fires. *)
Inductive callback : Type :=
| RespawnCb (victimId : string) (victim : nat)
| ResetCb.

Record state : Type := mkState {
  players : JSObject.t player;
  gameInProgress : bool;
  timers : list (Z * callback);
  nextOid : nat;
  randomCalls : nat
}.

Definition initial : state := mkState [] true [] 0 0.

(** *** Payloads and messages *)

Record join_data : Type := mkJoin {
  j_name : option string;
  j_hatType : option string;
  j_hatColor : option Z;
  j_furColor : option Z;
  j_coatColor : option Z
}.

Record movement_data : Type := mkMovement {
  m_x : Q; m_y : Q; m_z : Q;
  m_qx : Q; m_qy : Q; m_qz : Q; m_qw : Q;
  m_meshQx : option Q; m_meshQy : option Q;
  m_meshQz : option Q; m_meshQw : option Q
}.

Record shoot_data : Type := mkShoot {
  s_origin : Q * Q * Q;
  s_target : Q * Q * Q
}.

Record hit_data : Type := mkHit {
  victimId : string;
  damage : Z
}.

Record score_entry : Type := mkScore {
  e_id : string;
  e_name : string;
  e_kills : Z;
  e_deaths : Z
}.

(** The events the server emits, with their payloads. Hit points are
    integers but for one case: [playerDamagedNaN id attackerId] is the event
    [playerDamaged] whose [hp] is [NaN]. *)
Inductive message : Type :=
| currentPlayers (roster : JSObject.t player)
| playerJoined (id : string) (p : player)
| playerMoved (id : string) (px py pz pqx pqy pqz pqw : Q)
    (meshQx meshQy meshQz meshQw : Q)
| playerShot (shooterId : string) (origin target : Q * Q * Q)
| playerDamaged (id : string) (newHp : Z) (attackerId : string)
| playerDamagedNaN (id : string) (attackerId : string)
| playerDied (victim killerId killerName victimName : string)
| scoreboardUpdate (scores : list score_entry)
| playerRespawn (id : string) (px py pz : Q) (newHp : Z)
| playerLeft (id : string)
| gameWon (winnerId winnerName : string) (winnerKills : Z)
| gameReset.

(** [socket.emit], [socket.broadcast.emit] and [io.emit]. *)
Inductive audience : Type :=
| ToSender (socketId : string)
| ToOthers (socketId : string)
| ToAll.

Definition emit : Type := (audience * message)%type.

Definition outcome : Type := (state * list emit)%type.

(** *** JavaScript operators on optional values *)

(** [s || d] on a string that may be missing: the empty string is falsy. *)
Definition or_string (s : option string) (d : string) : string :=
  match s with
  | Some v => if String.eqb v EmptyString then d else v
  | None => d
  end.

(** [v ?? d]. *)
Definition nullish {A : Type} (v : option A) (d : A) : A :=
  match v with
  | Some a => a
  | None => d
  end.

(** [obj.f] for the object [obj = ps[id]] that a handler holds a reference
    to; [d] is never returned where the handler has checked [ps[id]]. *)
Definition field {A : Type} (f : player -> A) (d : A) (id : string)
    (ps : JSObject.t player) : A :=
  match get id ps with
  | Some p => f p
  | None => d
  end.

(** *** Helpers *)

Definition to_entry (kv : string * player) : score_entry :=
  mkScore (fst kv) (name (snd kv)) (kills (snd kv)) (deaths (snd kv)).

(** The comparator [(a, b) => b.kills - a.kills || a.deaths - b.deaths]. *)
Definition compareFn (a b : score_entry) : Z :=
  let d := e_kills b - e_kills a in
  if d =? 0 then e_deaths a - e_deaths b else d.

(** [Array.prototype.sort] is stable: elements that compare equal keep
    their order. A stable insertion sort computes that arrangement. *)
Fixpoint insert {A : Type} (cmp : A -> A -> Z) (a : A) (l : list A) : list A :=
  match l with
  | [] => [a]
  | b :: l' => if cmp a b <=? 0 then a :: b :: l' else b :: insert cmp a l'
  end.

Fixpoint sort {A : Type} (cmp : A -> A -> Z) (l : list A) : list A :=
  match l with
  | [] => []
  | a :: l' => insert cmp a (sort cmp l')
  end.

Definition buildScoreboard (ps : JSObject.t player) : list score_entry :=
  sort compareFn (map to_entry (entries ps)).

Definition set_players (ps : JSObject.t player) (st : state) : state :=
  mkState ps (gameInProgress st) (timers st) (nextOid st) (randomCalls st).

Definition set_gameInProgress (b : bool) (st : state) : state :=
  mkState (players st) b (timers st) (nextOid st) (randomCalls st).

Definition set_timers (ts : list (Z * callback)) (st : state) : state :=
  mkState (players st) (gameInProgress st) ts (nextOid st) (randomCalls st).

(** [setTimeout(cb, ms)]. *)
Definition setTimeout (cb : callback) (ms : Z) (st : state) : state :=
  set_timers (timers st ++ [(ms, cb)]) st.

(** [(r - 0.5) * 100] for a result [r] of [Math.random()]. *)
Definition spawnCoord (r : Q) : Q := ((r - (1 # 2)) * 100)%Q.

Section Handlers.

(** The results of [Math.random()], in call order. *)
Variable random : nat -> Q.

(** *** Socket events *)

(** [socket.on('join')], lines 39-71. *)
Definition join (st : state) (socketId : string) (data : join_data) : outcome :=
  let spawnX := spawnCoord (random (randomCalls st)) in
  let spawnZ := spawnCoord (random (S (randomCalls st))) in
  let p :=
    mkPlayer (nextOid st) spawnX 2 spawnZ 0 0 0 1
      (or_string (j_name data) "Anonymous Rat")
      MAX_HP 0 0
      (or_string (j_hatType data) "fedora")
      (nullish (j_hatColor data) 0xDC4A3C)
      (nullish (j_furColor data) 0xE8B84D)
      (nullish (j_coatColor data) 0xBE4545) in
  let ps := set socketId p (players st) in
  (mkState ps (gameInProgress st) (timers st) (S (nextOid st))
     (S (S (randomCalls st))),
   [ (ToSender socketId, currentPlayers ps);
     (ToOthers socketId, playerJoined socketId p);
     (ToAll, scoreboardUpdate (buildScoreboard ps)) ]).

(** [socket.on('updateMovement')], lines 74-92. The mesh orientation is
    relayed and not written to the session. *)
Definition updateMovement (st : state) (socketId : string)
    (data : movement_data) : outcome :=
  match get socketId (players st) with
  | None => (st, [])
  | Some _ =>
      let ps :=
        alter
          (fun p =>
             set_orientation (m_qx data) (m_qy data) (m_qz data) (m_qw data)
               (set_position (m_x data) (m_y data) (m_z data) p))
          socketId (players st) in
      (set_players ps st,
       [ (ToOthers socketId,
          playerMoved socketId (m_x data) (m_y data) (m_z data)
            (m_qx data) (m_qy data) (m_qz data) (m_qw data)
            (nullish (m_meshQx data) 0%Q) (nullish (m_meshQy data) 0%Q)
            (nullish (m_meshQz data) 0%Q) (nullish (m_meshQw data) 1%Q)) ])
  end.

(** [socket.on('shoot')], lines 95-104. *)
Definition shoot (st : state) (socketId : string) (data : shoot_data) : outcome :=
  match get socketId (players st) with
  | None => (st, [])
  | Some _ =>
      (st, [ (ToOthers socketId,
              playerShot socketId (s_origin data) (s_target data)) ])
  end.

(** [socket.on('hit')], lines 107-182. [victim] and [shooter] are references
    into [players]; when [victimId] is the sender's own id they are the same
    object, so every write goes through the key and every later read sees it.

    [victimId] is chosen by the client, so [players[victimId]] can be a
    built-in inherited from [Object.prototype]. That passes the test
    [!victim]; the [hp] of a built-in is [undefined] (or [NaN] after an
    earlier such hit), so [victim.hp <= 0] is false, [victim.hp -= damage]
    stores [NaN] on the built-in, which is no session (every session has an
    [hp] of its own, so none reads it), [playerDamaged] is broadcast with
    that [NaN], and the second [victim.hp <= 0] is false as well. *)
Definition hit (st : state) (socketId : string) (data : hit_data) : outcome :=
  if negb (gameInProgress st) then (st, [])
  else
    match lookup (victimId data) (players st), get socketId (players st) with
    | Inherited, Some shooter =>
        (st, [ (ToAll, playerDamagedNaN (victimId data) socketId) ])
    | Own victim, Some shooter =>
        if hp victim <=? 0 then (st, [])
        else
          (* victim.hp -= damage *)
          let ps1 :=
            alter (fun p => set_hp (hp p - damage data) p)
              (victimId data) (players st) in
          let damaged :=
            (ToAll,
             playerDamaged (victimId data) (field hp 0 (victimId data) ps1)
               socketId) in
          if field hp 0 (victimId data) ps1 <=? 0 then
            (* shooter.kills++; victim.deaths++ *)
            let ps2 := alter (fun p => set_kills (kills p + 1) p) socketId ps1 in
            let ps3 :=
              alter (fun p => set_deaths (deaths p + 1) p) (victimId data) ps2 in
            let died :=
              (ToAll,
               playerDied (victimId data) socketId
                 (field name EmptyString socketId ps3)
                 (field name EmptyString (victimId data) ps3)) in
            let scores := (ToAll, scoreboardUpdate (buildScoreboard ps3)) in
            if KILLS_TO_WIN <=? field kills 0 socketId ps3 then
              (setTimeout ResetCb WIN_DISPLAY_MS
                 (set_gameInProgress false (set_players ps3 st)),
               [ damaged; died; scores;
                 (ToAll,
                  gameWon socketId (field name EmptyString socketId ps3)
                    (field kills 0 socketId ps3)) ])
            else
              (setTimeout (RespawnCb (victimId data) (oid victim))
                 RESPAWN_DELAY_MS (set_players ps3 st),
               [ damaged; died; scores ])
          else (set_players ps1 st, [ damaged ])
    | _, _ => (st, [])
    end.

(** [socket.on('disconnect')], lines 185-192. *)
Definition disconnect (st : state) (socketId : string) : outcome :=
  let ps := delete socketId (players st) in
  (set_players ps st,
   [ (ToOthers socketId, playerLeft socketId);
     (ToAll, scoreboardUpdate (buildScoreboard ps)) ]).

(** *** Timer callbacks *)

(** The respawn closure, lines 165-180. It tests [players[victimId]] and then
    writes to the captured object [victim]: the writes reach the roster only
    when the roster entry is still that object. The message carries the
    fields of the captured object in either case. *)
Definition respawnCb (vId : string) (victim : nat) (st : state) : outcome :=
  match get vId (players st) with
  | None => (st, [])
  | Some current =>
      let nx := spawnCoord (random (randomCalls st)) in
      let nz := spawnCoord (random (S (randomCalls st))) in
      let ps :=
        if Nat.eqb (oid current) victim then
          alter (fun p => set_position nx 2 nz (set_hp MAX_HP p)) vId (players st)
        else players st in
      (mkState ps (gameInProgress st) (timers st) (nextOid st)
         (S (S (randomCalls st))),
       [ (ToAll, playerRespawn vId nx 2 nz MAX_HP) ])
  end.

(** The loop of [resetGame], lines 210-226, over [Object.entries(players)];
    [n] is the number of calls of [Math.random()] made so far. *)
Fixpoint resetPlayers (n : nat) (ps : JSObject.t player)
    : JSObject.t player * list emit * nat :=
  match ps with
  | [] => ([], [], n)
  | (id, p) :: ps' =>
      let p' :=
        set_position (spawnCoord (random n)) 2 (spawnCoord (random (S n)))
          (set_hp MAX_HP (set_deaths 0 (set_kills 0 p))) in
      let '(rest, evs, n') := resetPlayers (S (S n)) ps' in
      ((id, p') :: rest,
       (ToAll, playerRespawn id (x p') (y p') (z p') (hp p')) :: evs,
       n')
  end.

(** [resetGame], lines 205-233. *)
Definition resetGame (st : state) : outcome :=
  let '(ps, evs, n) := resetPlayers (randomCalls st) (entries (players st)) in
  (mkState ps true (timers st) (nextOid st) n,
   evs ++ [ (ToAll, gameReset);
            (ToAll, scoreboardUpdate (buildScoreboard ps)) ]).

Definition run_callback (cb : callback) (st : state) : outcome :=
  match cb with
  | RespawnCb vId victim => respawnCb vId victim st
  | ResetCb => resetGame st
  end.

(** *** The event loop *)

Fixpoint remove_nth {A : Type} (n : nat) (l : list A) : list A :=
  match n, l with
  | _, [] => []
  | O, _ :: l' => l'
  | S n', a :: l' => a :: remove_nth n' l'
  end.

Inductive input : Type :=
| Join (socketId : string) (data : join_data)
| UpdateMovement (socketId : string) (data : movement_data)
| Shoot (socketId : string) (data : shoot_data)
| Hit (socketId : string) (data : hit_data)
| Disconnect (socketId : string)
| Fire (n : nat).

(** The n-th pending timer fires: it leaves the pending list and its
    callback runs. *)
Definition fire (n : nat) (st : state) : outcome :=
  match nth_error (timers st) n with
  | None => (st, [])
  | Some (_, cb) => run_callback cb (set_timers (remove_nth n (timers st)) st)
  end.

Definition step (st : state) (i : input) : outcome :=
  match i with
  | Join sid d => join st sid d
  | UpdateMovement sid d => updateMovement st sid d
  | Shoot sid d => shoot st sid d
  | Hit sid d => hit st sid d
  | Disconnect sid => disconnect st sid
  | Fire n => fire n st
  end.

Fixpoint run (st : state) (ins : list input) : outcome :=
  match ins with
  | [] => (st, [])
  | i :: ins' =>
      let (st1, out1) := step st i in
      let (st2, out2) := run st1 ins' in
      (st2, out1 ++ out2)
  end.

(** Whether the input fires the pending round reset. *)
Definition fires_reset (st : state) (i : input) : bool :=
  match i with
  | Fire n =>
      match nth_error (timers st) n with
      | Some (_, ResetCb) => true
      | _ => false
      end
  | _ => false
  end.

(** No input of the trace fires a round reset: the trace stays within one
    round. *)
Fixpoint within_round (st : state) (ins : list input) : bool :=
  match ins with
  | [] => true
  | i :: ins' => negb (fires_reset st i) && within_round (fst (step st i)) ins'
  end.

End Handlers.

(** *** Observations used in the statements *)

Definition session (st : state) (id : string) : option player :=
  get id (players st).

Definition is_gameWon (e : emit) : bool :=
  match snd e with
  | gameWon _ _ _ => true
  | _ => false
  end.

Definition wins (out : list emit) : nat := List.length (filter is_gameWon out).

(** The object identities of the roster. *)
Definition oids (ps : JSObject.t player) : list nat :=
  map (fun kv => oid (snd kv)) ps.

(** What every reachable state satisfies: connection ids are unique keys,
    and the sessions are distinct objects allocated before [nextOid]. *)
Definition wf (st : state) : Prop :=
  NoDup (keys (players st)) /\
  NoDup (oids (players st)) /\
  Forall (fun o => (o < nextOid st)%nat) (oids (players st)).

(** The score order: more kills first, then fewer deaths. *)
Definition ranks_before (a b : score_entry) : Prop :=
  e_kills b < e_kills a \/ (e_kills a = e_kills b /\ e_deaths a <= e_deaths b).

(** Entries with the same kills and deaths as [a]. *)
Definition same_rank (a b : score_entry) : bool :=
  (e_kills a =? e_kills b) && (e_deaths a =? e_deaths b).

(** *** Scenarios used in the statements *)

(** The roster after a hit that is not dropped. *)
Definition hit_roster (socketId : string) (data : hit_data)
    (ps : JSObject.t player) : JSObject.t player :=
  let ps1 := alter (fun p => set_hp (hp p - damage data) p) (victimId data) ps in
  if field hp 0 (victimId data) ps1 <=? 0 then
    alter (fun p => set_deaths (deaths p + 1) p) (victimId data)
      (alter (fun p => set_kills (kills p + 1) p) socketId ps1)
  else ps1.

(** A duel used as a running example: two players join with default
    payloads, [Math.random()] returning one half every time. *)
Definition half : nat -> Q := fun _ => 1 # 2.

Definition anonymous : join_data := mkJoin None None None None None.

Definition duel : state :=
  fst (run half initial [Join "A" anonymous; Join "B" anonymous]).

(** Hits against one victim: each is a sender and a damage. *)
Definition hits_on (victim : string) (hits : list (string * Z)) : list input :=
  map (fun h => Hit (fst h) (mkHit victim (snd h))) hits.

(** The damage a list of hits reports in total. *)
Definition dealt (hits : list (string * Z)) : Z :=
  fold_right (fun h t => snd h + t) 0 hits.

(** The [playerDied] events for [victim] in an output. *)
Definition is_playerDied (victim : string) (e : emit) : bool :=
  match snd e with
  | playerDied v _ _ _ => String.eqb v victim
  | _ => false
  end.

Definition died (victim : string) (out : list emit) : nat :=
  List.length (filter (is_playerDied victim) out).

(** A has killed B nineteen times in the duel, B respawning each time. *)
Definition nineteen : state :=
  fst (run half duel
         (flat_map (fun _ => [Hit "A" (mkHit "B" 3); Fire 0]) (seq 0 19))).

(** In the duel, A kills B and B disconnects before the respawn timer
    fires. *)
Definition orphaned : state :=
  fst (run half duel [Hit "A" (mkHit "B" 3); Disconnect "B"]).

(** The roster of the example of C4, in join order A, B, C. *)
Definition podium : JSObject.t player :=
  [ ("A"%string,
     mkPlayer 0 0 2 0 0 0 0 1 "A" 3 3 2 "fedora" 0xDC4A3C 0xE8B84D 0xBE4545);
    ("B"%string,
     mkPlayer 1 0 2 0 0 0 0 1 "B" 3 3 1 "trilby" 0xDC4A3C 0xE8B84D 0xBE4545);
    ("C"%string,
     mkPlayer 2 0 2 0 0 0 0 1 "C" 3 1 0 "porkpie" 0xDC4A3C 0xE8B84D 0xBE4545) ].

(** *** Observations used in further statements *)

Definition is_scoreboardUpdate (e : emit) : bool :=
  match snd e with
  | scoreboardUpdate _ => true
  | _ => false
  end.

(** Every [scoreboardUpdate] of [out] goes to all clients and carries the
    scoreboard of the roster [ps]. *)
Definition scoreboards_of (ps : JSObject.t player) (out : list emit) : Prop :=
  Forall
    (fun e =>
       match snd e with
       | scoreboardUpdate scores =>
           fst e = ToAll /\ scores = buildScoreboard ps
       | _ => True
       end)
    out.

(** The number of pending round resets. *)
Definition is_reset (t : Z * callback) : bool :=
  match snd t with
  | ResetCb => true
  | RespawnCb _ _ => false
  end.

Definition resets (ts : list (Z * callback)) : nat :=
  List.length (filter is_reset ts).

(** The sum of a counter over the roster. *)
Definition total (f : player -> Z) (ps : JSObject.t player) : Z :=
  fold_right Z.add 0 (map (fun kv => f (snd kv)) ps).

(** Inputs that neither add nor remove a session. *)
Definition keeps_roster (i : input) : bool :=
  match i with
  | Join _ _ => false
  | Disconnect _ => false
  | _ => true
  end.

(** Every hit of the trace reports a damage that is not negative. *)
Definition damage_nonneg (i : input) : bool :=
  match i with
  | Hit _ data => 0 <=? damage data
  | _ => true
  end.

(** The round flag agrees with the timers and the kill counts: an active
    round has no reset pending and nobody at the threshold; an inactive one
    has exactly one reset pending. *)
Definition round_consistent (st : state) : Prop :=
  if gameInProgress st then
    resets (timers st) = 0%nat /\
    Forall (fun kv => kills (snd kv) < KILLS_TO_WIN) (players st)
  else resets (timers st) = 1%nat.

(** A session that is down is waited for: its respawn is pending, armed for
    this very session object, unless the round is over. *)
Definition awaited (flag : bool) (ts : list (Z * callback))
    (kv : string * player) : Prop :=
  hp (snd kv) <= 0 ->
  flag = false \/ In (RESPAWN_DELAY_MS, RespawnCb (fst kv) (oid (snd kv))) ts.

(** The counters of a session are in range. *)
Definition counts_in_range (kv : string * player) : Prop :=
  0 <= kills (snd kv) <= KILLS_TO_WIN /\ 0 <= deaths (snd kv).

Definition hp_in_range (kv : string * player) : Prop :=
  hp (snd kv) <= MAX_HP.

(** The fields a hit never writes. *)
Definition same_place (p p' : player) : Prop :=
  oid p' = oid p /\ name p' = name p /\
  (x p', y p', z p') = (x p, y p, z p) /\
  (qx p', qy p', qz p', qw p') = (qx p, qy p, qz p, qw p) /\
  (hatType p', hatColor p', furColor p', coatColor p') =
  (hatType p, hatColor p, furColor p, coatColor p).

End Server.

(** ** The client: remote avatars in [NetworkManager.ts] and [RatEntity] *)

Module Client.

Import JSObject.

Local Open Scope Q_scope.

(** *** Vectors and quaternions of three.js *)

Record Vector3 : Type := mkVector3 { vx : Q; vy : Q; vz : Q }.

Record Quaternion : Type := mkQuaternion { qx : Q; qy : Q; qz : Q; qw : Q }.

Definition identityQuat : Quaternion := mkQuaternion 0 0 0 1.

(** [Vector3.lerp(v, alpha)] of three.js: each component moves by
    [(v.c - this.c) * alpha]. *)
Definition lerp (a b : Vector3) (alpha : Q) : Vector3 :=
  mkVector3 (vx a + (vx b - vx a) * alpha)
            (vy a + (vy b - vy a) * alpha)
            (vz a + (vz b - vz a) * alpha).

(** [THREE.MathUtils.lerp(x, y, t)]. *)
Definition mix (a b t : Q) : Q := (1 - t) * a + t * b.

(** [Math.min]. *)
Definition min (a b : Q) : Q := if Qle_bool a b then a else b.

(** *** [RatEntity] *)

Definition MAX_HP : Z := 3.
Definition FLASH_DURATION : Q := 15 # 100.
Definition DEATH_PHASE_LAUNCH : Q := 8 # 10.
Definition DEATH_PHASE_SPIN : Q := 18 # 10.
Definition DEATH_PHASE_SETTLE : Q := 25 # 10.

Inductive phase : Type := launch | spin | settle | done.

(** The fields of a [RatEntity] that the reconciliation reads or writes.
    [meshPosition] and [meshQuaternion] are the rendered transform;
    [bodyPosition] and [bodyQuaternion] belong to the rigid body. Materials,
    the glow outline, the billboard sprite, sounds and the velocities and
    damping of the body are left out: nothing here reads them back. *)
Record RatEntity : Type := mkRatEntity {
  entityName : string;
  hp : Z;
  dead : bool;
  meshPosition : Vector3;
  meshQuaternion : Quaternion;
  bodyPosition : Vector3;
  bodyQuaternion : Quaternion;
  flashTimer : Q;
  elapsed : Q;
  deathTimer : Q;
  deathTargetQuat : option Quaternion;
  ragdollSettled : bool;
  deathPosition : option Vector3;
  impactPlayed : bool;
  deathPhase : phase
}.

(** [new RatEntity(scene, world, position, name, opts, true)]. *)
Definition newRatEntity (position : Vector3) (nm : string) : RatEntity :=
  mkRatEntity nm MAX_HP false position identityQuat position identityQuat
    0 0 0 None false None false launch.

Record RemoteRat : Type := mkRemoteRat {
  entity : RatEntity;
  targetPos : Vector3;
  targetMeshQuat : Quaternion;
  lastUpdate : Q
}.

Definition set_entity (e : RatEntity) (r : RemoteRat) : RemoteRat :=
  mkRemoteRat e (targetPos r) (targetMeshQuat r) (lastUpdate r).

Definition set_mesh (p : Vector3) (q : Quaternion) (e : RatEntity) : RatEntity :=
  mkRatEntity (entityName e) (hp e) (dead e) p q
    (bodyPosition e) (bodyQuaternion e) (flashTimer e) (elapsed e)
    (deathTimer e) (deathTargetQuat e) (ragdollSettled e) (deathPosition e)
    (impactPlayed e) (deathPhase e).

Definition set_phase (ph : phase) (e : RatEntity) : RatEntity :=
  mkRatEntity (entityName e) (hp e) (dead e) (meshPosition e) (meshQuaternion e)
    (bodyPosition e) (bodyQuaternion e) (flashTimer e) (elapsed e)
    (deathTimer e) (deathTargetQuat e) (ragdollSettled e) (deathPosition e)
    (impactPlayed e) ph.

(** The rendered transform of an avatar. *)
Definition rendered (r : RemoteRat) : Vector3 * Quaternion :=
  (meshPosition (entity r), meshQuaternion (entity r)).

Record state : Type := mkState {
  remoteRats : JSObject.t RemoteRat;
  myId : string
}.

Section Reconciliation.

(** [Quaternion.slerp(qb, t)] of three.js, applied to the receiver. *)
Variable slerp : Quaternion -> Quaternion -> Q -> Quaternion.

(** The laying-down pose that [die] derives from the impact velocity with
    [normalize], [crossVectors] and [setFromAxisAngle] of three.js. *)
Variable layDown : Vector3 -> Quaternion.

(** [flashColor], as far as the timers go. *)
Definition flashColor (e : RatEntity) : RatEntity :=
  mkRatEntity (entityName e) (hp e) (dead e) (meshPosition e) (meshQuaternion e)
    (bodyPosition e) (bodyQuaternion e) FLASH_DURATION (elapsed e)
    (deathTimer e) (deathTargetQuat e) (ragdollSettled e) (deathPosition e)
    (impactPlayed e) (deathPhase e).

(** [die(impactVel)]. *)
Definition die (impactVel : Vector3) (e : RatEntity) : RatEntity :=
  if dead e then e
  else
    mkRatEntity (entityName e) (hp e) true (meshPosition e) (meshQuaternion e)
      (bodyPosition e) (bodyQuaternion e) (flashTimer e) (elapsed e)
      0 (Some (layDown impactVel)) false (deathPosition e) false launch.

(** [takeDamage(amount, isHeadshot, impactVel)]. *)
Definition takeDamage (amount : Z) (impactVel : Vector3) (e : RatEntity)
    : RatEntity :=
  if dead e then e
  else
    let e1 :=
      flashColor
        (mkRatEntity (entityName e) (hp e - amount)%Z (dead e) (meshPosition e)
           (meshQuaternion e) (bodyPosition e) (bodyQuaternion e)
           (flashTimer e) (elapsed e) (deathTimer e) (deathTargetQuat e)
           (ragdollSettled e) (deathPosition e) (impactPlayed e)
           (deathPhase e)) in
    if (hp e1 <=? 0)%Z then die impactVel e1 else e1.

(** [updateDeathRagdoll(dt)], with [t = this.deathTimer]. *)
Definition updateDeathRagdoll (e : RatEntity) : RatEntity :=
  let t := deathTimer e in
  match deathPhase e with
  | launch =>
      let e1 := set_mesh (bodyPosition e) (bodyQuaternion e) e in
      if Qle_bool DEATH_PHASE_LAUNCH t then set_phase spin e1 else e1
  | spin =>
      let e1 := set_mesh (bodyPosition e) (bodyQuaternion e) e in
      if Qle_bool DEATH_PHASE_SPIN t then
        mkRatEntity (entityName e1) (hp e1) (dead e1) (meshPosition e1)
          (meshQuaternion e1) (bodyPosition e1) (bodyQuaternion e1)
          (flashTimer e1) (elapsed e1) (deathTimer e1) (deathTargetQuat e1)
          (ragdollSettled e1) (Some (meshPosition e1)) (impactPlayed e1) settle
      else e1
  | settle =>
      let settleProgress :=
        min ((t - DEATH_PHASE_SPIN) / (DEATH_PHASE_SETTLE - DEATH_PHASE_SPIN)) 1 in
      let eased :=
        1 - (1 - settleProgress) * (1 - settleProgress) * (1 - settleProgress) in
      let p1 :=
        match deathPosition e with
        | Some dp =>
            mkVector3 (vx (meshPosition e)) (mix (vy dp) (3 # 10) eased)
              (vz (meshPosition e))
        | None => meshPosition e
        end in
      let q1 :=
        match deathTargetQuat e with
        | Some tq => slerp (meshQuaternion e) tq (eased * (3 # 10) + (5 # 100))
        | None => meshQuaternion e
        end in
      if Qle_bool 1 settleProgress then
        let q2 :=
          match deathTargetQuat e with
          | Some tq => tq
          | None => q1
          end in
        mkRatEntity (entityName e) (hp e) (dead e)
          (mkVector3 (vx p1) (3 # 10) (vz p1)) q2
          (bodyPosition e) (bodyQuaternion e) (flashTimer e) (elapsed e)
          (deathTimer e) (deathTargetQuat e) true (deathPosition e) true done
      else
        mkRatEntity (entityName e) (hp e) (dead e) p1 q1
          (bodyPosition e) (bodyQuaternion e) (flashTimer e) (elapsed e)
          (deathTimer e) (deathTargetQuat e) (ragdollSettled e)
          (deathPosition e) true (deathPhase e)
  | done => e
  end.

(** [RatEntity.update(dt)]. *)
Definition update (dt : Q) (e : RatEntity) : RatEntity :=
  if dead e then
    updateDeathRagdoll
      (mkRatEntity (entityName e) (hp e) (dead e) (meshPosition e)
         (meshQuaternion e) (bodyPosition e) (bodyQuaternion e) (flashTimer e)
         (elapsed e) (deathTimer e + dt) (deathTargetQuat e) (ragdollSettled e)
         (deathPosition e) (impactPlayed e) (deathPhase e))
  else
    mkRatEntity (entityName e) (hp e) (dead e) (bodyPosition e)
      (meshQuaternion e) (bodyPosition e) (bodyQuaternion e)
      (if Qle_bool (flashTimer e) 0 then flashTimer e else flashTimer e - dt)
      (elapsed e + dt) (deathTimer e) (deathTargetQuat e) (ragdollSettled e)
      (deathPosition e) (impactPlayed e) (deathPhase e).

(** *** [NetworkManager] *)

(** One iteration of the loop of [updateRemoteRats], lines 347-368. *)
Definition updateRemoteRat (dt : Q) (remote : RemoteRat) : RemoteRat :=
  let lerpFactor := min (dt * 12) 1 in
  let e := entity remote in
  if dead e then set_entity (update dt e) remote
  else
    let p := lerp (meshPosition e) (targetPos remote) lerpFactor in
    let q := slerp (meshQuaternion e) (targetMeshQuat remote) lerpFactor in
    let e1 :=
      mkRatEntity (entityName e) (hp e) (dead e) p q p (bodyQuaternion e)
        (flashTimer e) (elapsed e) (deathTimer e) (deathTargetQuat e)
        (ragdollSettled e) (deathPosition e) (impactPlayed e) (deathPhase e) in
    set_entity (update dt e1) remote.

(** [updateRemoteRats(dt)], lines 344-369. *)
Definition updateRemoteRats (dt : Q) (st : state) : state :=
  mkState (map (fun kv => (fst kv, updateRemoteRat dt (snd kv))) (remoteRats st))
    (myId st).

(** [spawnRemoteRat(id, data)], lines 233-254, at time [now]. *)
Definition spawnRemoteRat (now : Q) (id : string) (data : Server.player)
    (st : state) : state :=
  match get id (remoteRats st) with
  | Some _ => st
  | None =>
      let pos := mkVector3 (Server.x data) (Server.y data) (Server.z data) in
      mkState
        (set id
           (mkRemoteRat (newRatEntity pos (Server.name data)) pos identityQuat now)
           (remoteRats st))
        (myId st)
  end.

(** [respawnRemoteRat(remote, data)], lines 257-294. *)
Definition respawnRemoteRat (px py pz : Q) (newHp : Z) (remote : RemoteRat)
    : RemoteRat :=
  let e := entity remote in
  let newPos := mkVector3 px py pz in
  mkRemoteRat
    (mkRatEntity (entityName e) newHp false newPos identityQuat
       newPos identityQuat (flashTimer e) (elapsed e) (deathTimer e)
       (deathTargetQuat e) (ragdollSettled e) (deathPosition e)
       (impactPlayed e) (deathPhase e))
    newPos identityQuat (lastUpdate remote).

(** The listener of [playerMoved], lines 116-128. *)
Definition onPlayerMoved (now : Q) (id : string) (px py pz : Q)
    (meshQx meshQy meshQz meshQw : Q) (remote : RemoteRat) : RemoteRat :=
  mkRemoteRat (entity remote) (mkVector3 px py pz)
    (mkQuaternion meshQx meshQy meshQz meshQw) now.

(** The listener of [playerDamaged], lines 145-159, on a remote avatar. *)
Definition onPlayerDamaged (newHp : Z) (remote : RemoteRat) : RemoteRat :=
  let e := entity remote in
  let e1 :=
    mkRatEntity (entityName e) newHp (dead e) (meshPosition e) (meshQuaternion e)
      (bodyPosition e) (bodyQuaternion e) (flashTimer e) (elapsed e)
      (deathTimer e) (deathTargetQuat e) (ragdollSettled e) (deathPosition e)
      (impactPlayed e) (deathPhase e) in
  set_entity (if (0 <? newHp)%Z then flashColor e1 else e1) remote.

(** The listener of [playerDied], lines 162-184, on a remote avatar;
    [impactDir] is the direction it draws with [Math.random()]. *)
Definition onPlayerDied (impactDir : Vector3) (remote : RemoteRat) : RemoteRat :=
  if dead (entity remote) then remote
  else set_entity (takeDamage 999 impactDir (entity remote)) remote.

(** What the client receives: a message of the server, the time
    [performance.now()] and the impact direction a [playerDied] would draw.
    A [playerDamaged] whose [hp] is [NaN] reaches the client with [hp: null],
    as socket.io sends payloads as JSON; [null] hit points compare and
    subtract as 0 in the listener and in [RatEntity]. (Its id is a property
    name of [Object.prototype], which no avatar is stored under: avatars are
    made for connection ids.)
    The callbacks for the local player and the user interface
    ([onLocalRespawn], [onPlayerDamaged], the kill feed, the scoreboard and
    the victory overlay) do not touch the remote avatars and are left out. *)
Definition receive (now : Q) (impactDir : Vector3) (m : Server.message)
    (st : state) : state :=
  match m with
  | Server.currentPlayers roster =>
      fold_left
        (fun s kv =>
           if String.eqb (fst kv) (myId st) then s
           else spawnRemoteRat now (fst kv) (snd kv) s)
        (entries roster) st
  | Server.playerJoined id p =>
      if String.eqb id (myId st) then st else spawnRemoteRat now id p st
  | Server.playerMoved id px py pz _ _ _ _ mqx mqy mqz mqw =>
      mkState (alter (onPlayerMoved now id px py pz mqx mqy mqz mqw) id
                 (remoteRats st)) (myId st)
  | Server.playerDamaged id newHp _ =>
      mkState (alter (onPlayerDamaged newHp) id (remoteRats st)) (myId st)
  | Server.playerDamagedNaN id _ =>
      mkState (alter (onPlayerDamaged 0) id (remoteRats st)) (myId st)
  | Server.playerDied victim _ _ _ =>
      mkState (alter (onPlayerDied impactDir) victim (remoteRats st)) (myId st)
  | Server.playerRespawn id px py pz newHp =>
      if String.eqb id (myId st) then st
      else mkState (alter (respawnRemoteRat px py pz newHp) id (remoteRats st))
             (myId st)
  | Server.playerLeft id => mkState (delete id (remoteRats st)) (myId st)
  | Server.playerShot _ _ _ => st
  | Server.scoreboardUpdate _ => st
  | Server.gameWon _ _ _ => st
  | Server.gameReset => st
  end.

(** *** Delivery of the server's messages *)

(** Whether a message for audience [a] reaches the client [me]:
    [socket.emit] goes to the sender, [socket.broadcast.emit] to everyone
    else, [io.emit] to everyone. *)
Definition reaches (me : string) (a : Server.audience) : bool :=
  match a with
  | Server.ToSender socketId => String.eqb me socketId
  | Server.ToOthers socketId => negb (String.eqb me socketId)
  | Server.ToAll => true
  end.

(** The messages of [out] that the client [me] receives, in order. *)
Definition inbox (me : string) (out : list Server.emit)
    : list Server.message :=
  map snd (filter (fun e => reaches me (fst e)) out).

(** The client handles its messages one after the other. *)
Definition deliver (now : Q) (impactDir : Vector3)
    (msgs : list Server.message) (st : state) : state :=
  fold_left (fun s m => receive now impactDir m s) msgs st.

(** What happens to the client between two renderings: a message arrives or
    a frame is drawn. *)
Inductive input : Type :=
| Receive (now : Q) (impactDir : Vector3) (m : Server.message)
| Frame (dt : Q).

Definition step (st : state) (i : input) : state :=
  match i with
  | Receive now impactDir m => receive now impactDir m st
  | Frame dt => updateRemoteRats dt st
  end.

Definition run (st : state) (ins : list input) : state := fold_left step ins st.

(** The input is a [playerRespawn] or a [playerLeft] for [id]: the two
    messages that end the death presentation of that avatar. *)
Definition ends_death (id : string) (i : input) : bool :=
  match i with
  | Receive _ _ (Server.playerRespawn id' _ _ _ _) => String.eqb id id'
  | Receive _ _ (Server.playerLeft id') => String.eqb id id'
  | _ => false
  end.

(** *** A scenario used in the statements *)

(** A remote player B as the server announces it after joining, and the
    client of another player after B has joined and died. *)
Definition announced : Server.player :=
  Server.mkPlayer 1 0 2 0 0 0 0 1 "B" 3 0 0 "fedora" 0xDC4A3C 0xE8B84D 0xBE4545.

Definition fallen : state :=
  receive 0 (mkVector3 1 0 0) (Server.playerDied "B" "A" "A" "B")
    (receive 0 (mkVector3 1 0 0) (Server.playerJoined "B" announced)
       (mkState [] "A")).

(** The height at which avatar [id] is rendered, and its dead flag. *)
Definition rendered_height (st : state) (id : string) : option Q :=
  option_map (fun r => vy (meshPosition (entity r))) (get id (remoteRats st)).

Definition is_dead (st : state) (id : string) : option bool :=
  option_map (fun r => dead (entity r)) (get id (remoteRats st)).

(** *** Frames in a row *)

(** [n] frames of [dt] seconds on one avatar. *)
Fixpoint frames (n : nat) (dt : Q) (r : RemoteRat) : RemoteRat :=
  match n with
  | O => r
  | S n' => updateRemoteRat dt (frames n' dt r)
  end.

(** [n] calls of [RatEntity.update(dt)]. *)
Fixpoint updates (n : nat) (dt : Q) (e : RatEntity) : RatEntity :=
  match n with
  | O => e
  | S n' => update dt (updates n' dt e)
  end.

End Reconciliation.

(** *** Observations used in further statements *)

(** [q] to the power [n]. *)
Fixpoint qpow (q : Q) (n : nat) : Q :=
  match n with
  | O => 1
  | S n' => q * qpow q n'
  end.

(** How far the rendered position is from the interpolation target, per
    coordinate. *)
Definition offset (r : RemoteRat) : Vector3 :=
  mkVector3 (vx (targetPos r) - vx (meshPosition (entity r)))
            (vy (targetPos r) - vy (meshPosition (entity r)))
            (vz (targetPos r) - vz (meshPosition (entity r))).

(** Numerical equality of vectors, and a vector scaled. *)
Definition veq (a b : Vector3) : Prop :=
  vx a == vx b /\ vy a == vy b /\ vz a == vz b.

Definition scale (k : Q) (a : Vector3) : Vector3 :=
  mkVector3 (k * vx a) (k * vy a) (k * vz a).

(** The order of the phases of the death presentation. *)
Definition phase_rank (ph : phase) : nat :=
  match ph with
  | launch => 0
  | spin => 1
  | settle => 2
  | done => 3
  end.

(** *** Sending *)

Definition SEND_RATE_HZ : Q := 25.
Definition SEND_INTERVAL : Q := 1000 / SEND_RATE_HZ.

(** [sendMovement(entity)], lines 306-322, called at time [now] with
    [lastSendTime]: the new [lastSendTime] and the payload it emits, if
    any. *)
Definition sendMovement (now : Q) (e : RatEntity) (lastSendTime : Q)
    : Q * option Server.movement_data :=
  if negb (Qle_bool SEND_INTERVAL (now - lastSendTime)) then
    (lastSendTime, None)
  else
    (now,
     Some
       (Server.mkMovement
          (vx (bodyPosition e)) (vy (bodyPosition e)) (vz (bodyPosition e))
          (qx (bodyQuaternion e)) (qy (bodyQuaternion e))
          (qz (bodyQuaternion e)) (qw (bodyQuaternion e))
          (Some (qx (meshQuaternion e))) (Some (qy (meshQuaternion e)))
          (Some (qz (meshQuaternion e))) (Some (qw (meshQuaternion e))))).

(** The call in the game loop of [main.ts]:
    [if (networkManager && !rat.entity.dead) sendMovement(rat.entity)]. *)
Definition animateSend (now : Q) (e : RatEntity) (lastSendTime : Q)
    : Q * option Server.movement_data :=
  if dead e then (lastSendTime, None) else sendMovement now e lastSendTime.

(** The updates emitted over a row of frames, each with the time of the
    frame and the local entity at that time. *)
Fixpoint sent (lastSendTime : Q) (calls : list (Q * RatEntity))
    : list (Q * Server.movement_data) :=
  match calls with
  | [] => []
  | (now, e) :: rest =>
      match animateSend now e lastSendTime with
      | (last', Some data) => (now, data) :: sent last' rest
      | (last', None) => sent last' rest
      end
  end.

(** [getSocketIdForEntity(entity)], lines 336-341; [same] is the test
    [remote.entity === entity]. *)
Fixpoint getSocketIdForEntity (same : RatEntity -> bool)
    (rats : JSObject.t RemoteRat) : option string :=
  match rats with
  | [] => None
  | (id, remote) :: rest =>
      if same (entity remote) then Some id
      else getSocketIdForEntity same rest
  end.

(** [cheeseGun.onHitEntity] as [main.ts] wires it, lines 223-230: the [hit]
    it sends for a victim and a damage, if any. *)
Definition onHitEntity (st : state) (same : RatEntity -> bool)
    (victimIsRemote : bool) (damage : Z) : option Server.hit_data :=
  if victimIsRemote then
    match getSocketIdForEntity same (remoteRats st) with
    | Some victimId =>
        if String.eqb victimId "" then None
        else Some (Server.mkHit victimId damage)
    | None => None
    end
  else None.

End Client.

(** ** Cheese balls: [CheeseGun.update] *)

Module Projectile.

Import Client.

Local Open Scope Q_scope.

Definition BALL_RESTITUTION : Q := 9 # 10.
Definition BALL_GRAVITY : Q := -25.
Definition BALL_LIFETIME : Q := 5.

(** The kinematic state of a [CheeseBall]; the mesh follows [position]. *)
Record CheeseBall : Type := mkBall {
  velocity : Vector3;
  position : Vector3;
  age : Q;
  toRemove : bool
}.

(** What the closest body on the ray is: the body of the ball's owner, the
    body of another [RatEntity] (with its [dead] and [isRemote] flags and
    whether the shape hit is its head shape), or anything else. *)
Inductive hitBody : Type :=
| OwnerBody
| EntityBody (victimDead victimIsRemote isHead : bool)
| OtherBody.

(** The result of [world.raycastClosest(from, to, ...)]. *)
Inductive raycastResult : Type :=
| Miss
| Contact (body : hitBody) (hitPoint hitNormal : Vector3).

(** What becomes of a ball in one [update]: removed at the end of its life,
    kept in [balls], or destroyed on an entity, in which case
    [onHitEntity(victim, dmg)] is called and the victim takes the damage
    locally when it is not remote. *)
Inductive outcome : Type :=
| Removed
| Flying (ball : CheeseBall)
| Struck (dmg : Z) (isHead victimIsRemote : bool).

Definition add (a b : Vector3) : Vector3 :=
  mkVector3 (vx a + vx b) (vy a + vy b) (vz a + vz b).

Definition dot (a b : Vector3) : Q := vx a * vx b + vy a * vy b + vz a * vz b.

(** The bounce, lines 199-201: reflect on the normal, then lose speed. *)
Definition bounce (v n : Vector3) : Vector3 :=
  scale BALL_RESTITUTION (add v (scale (-2 * dot v n) n)).

(** One iteration of the loop of [update(dt)], lines 120-210, with
    [raycast] for [world.raycastClosest] from the ball's position to its next
    one. The test [moveDist < 0.0001] on the length of the step is made on
    its square. *)
Definition updateBall (raycast : Vector3 -> Vector3 -> raycastResult)
    (dt : Q) (ball : CheeseBall) : outcome :=
  let age' := age ball + dt in
  let toRemove' :=
    if negb (Qle_bool age' BALL_LIFETIME) then true else toRemove ball in
  if toRemove' then Removed
  else
    let v := add (velocity ball) (mkVector3 0 (BALL_GRAVITY * dt) 0) in
    let moveStep := scale dt v in
    if negb (Qle_bool ((1 # 10000) * (1 # 10000)) (dot moveStep moveStep)) then
      Flying (mkBall v (position ball) age' toRemove')
    else
      let nextPos := add (position ball) moveStep in
      match raycast (position ball) nextPos with
      | Miss => Flying (mkBall v nextPos age' toRemove')
      | Contact OwnerBody _ _ => Flying (mkBall v nextPos age' toRemove')
      | Contact (EntityBody false victimIsRemote isHead) _ _ =>
          Struck (CheeseGun.dmg isHead) isHead victimIsRemote
      | Contact _ hitPoint hitNormal =>
          Flying
            (mkBall (bounce v hitNormal)
               (add hitPoint (scale (5 # 100) hitNormal)) age' toRemove')
      end.

(** A ball over a row of frames, each with its time step and the world
    its ray is cast in: [None] once the ball has left [balls]. *)
Fixpoint fly (frames : list (Q * (Vector3 -> Vector3 -> raycastResult)))
    (ball : CheeseBall) : option CheeseBall :=
  match frames with
  | [] => Some ball
  | (dt, raycast) :: rest =>
      match updateBall raycast dt ball with
      | Flying ball' => fly rest ball'
      | _ => None
      end
  end.

(** The sum of the time steps of the frames. *)
Definition elapsedTime {A : Type} (frames : list (Q * A)) : Q :=
  fold_right (fun f t => fst f + t) 0 frames.

(** The [hit] a shot leads to: [update] calls [onHitEntity] when the ball is
    destroyed on an entity. *)
Definition report (st : state) (same : RatEntity -> bool) (o : outcome)
    : option Server.hit_data :=
  match o with
  | Struck dmg _ victimIsRemote => onHitEntity st same victimIsRemote dmg
  | _ => None
  end.

End Projectile.

(** ** The name plate: [RatBillboard] *)

Module RatBillboard.

Local Open Scope string_scope.

(** What [draw] paints: the text and its colour, and the colours of the
    three segments of the health bar from left to right. *)
Record picture : Type := mkPicture {
  displayText : string;
  textColor : string;
  segments : list string
}.

(** [draw()], lines 424-473 of the [NetworkManager.ts] listing, for a name
    and a health. *)
Definition draw (name : string) (health : Z) : picture :=
  let isDead := (health <=? 0)%Z in
  mkPicture
    (if isDead then "DEAD" else name)
    (if isDead then "#ff0000" else "#ffffff")
    (map (fun i =>
            if (i <? health)%Z then
              if (health <=? 1)%Z then "#ff0000" else "#00ff00"
            else "#550000")
       [0%Z; 1%Z; 2%Z]).

(** [setHealth(hp)]: the new health and the picture, when it redraws. *)
Definition setHealth (name : string) (health hp : Z) : Z * option picture :=
  if negb (health =? hp)%Z then (hp, Some (draw name hp)) else (health, None).

(** The number of segments that are not empty. *)
Definition lit (p : picture) : nat :=
  List.length (filter (fun c => negb (String.eqb c "#550000")) (segments p)).

End RatBillboard.

(** * Properties *)

(** ** Facts about dictionaries *)

Module JSObjectFacts.

Import JSObject.

Section Facts.

Context {V : Type}.

Implicit Types (o : JSObject.t V) (k : string) (f : V -> V).

Lemma get_alter f k k' o :
  get k (alter f k' o) =
  if String.eqb k k' then option_map f (get k o) else get k o.
Proof.
  induction o as [|[k0 v0] o IH]; simpl.
  - now destruct (String.eqb k k').
  - destruct (String.eqb k' k0) eqn:E'; simpl.
    + apply String.eqb_eq in E'; subst k0.
      now destruct (String.eqb k k').
    + destruct (String.eqb k k0) eqn:E; simpl.
      * apply String.eqb_eq in E; subst k0.
        destruct (String.eqb k k') eqn:E2; [|reflexivity].
        apply String.eqb_eq in E2; subst k'.
        now rewrite String.eqb_refl in E'.
      * exact IH.
Qed.

Lemma get_alter_same f k o : get k (alter f k o) = option_map f (get k o).
Proof. now rewrite get_alter, String.eqb_refl. Qed.


Lemma keys_alter f k o : keys (alter f k o) = keys o.
Proof.
  unfold keys.
  induction o as [|[k0 v0] o IH]; simpl; [reflexivity|].
  destruct (String.eqb k k0); simpl; [reflexivity|now rewrite IH].
Qed.

Lemma get_set k k' (v : V) o :
  get k (set k' v o) = if String.eqb k k' then Some v else get k o.
Proof.
  induction o as [|[k0 v0] o IH]; simpl.
  - now destruct (String.eqb k k').
  - destruct (String.eqb k' k0) eqn:E'; simpl.
    + apply String.eqb_eq in E'; subst k0.
      now destruct (String.eqb k k').
    + destruct (String.eqb k k0) eqn:E; simpl.
      * apply String.eqb_eq in E; subst k0.
        destruct (String.eqb k k') eqn:E2; [|reflexivity].
        apply String.eqb_eq in E2; subst k'.
        now rewrite String.eqb_refl in E'.
      * exact IH.
Qed.

Lemma get_delete k k' o :
  get k (delete k' o) = if String.eqb k k' then None else get k o.
Proof.
  induction o as [|[k0 v0] o IH]; simpl.
  - now destruct (String.eqb k k').
  - destruct (String.eqb k' k0) eqn:E'; simpl.
    + apply String.eqb_eq in E'; subst k0.
      rewrite IH. now destruct (String.eqb k k').
    + destruct (String.eqb k k0) eqn:E; simpl.
      * apply String.eqb_eq in E; subst k0.
        destruct (String.eqb k k') eqn:E2; [|reflexivity].
        apply String.eqb_eq in E2; subst k'.
        now rewrite String.eqb_refl in E'.
      * exact IH.
Qed.

Lemma In_set k (v : V) o kv : In kv (set k v o) -> kv = (k, v) \/ In kv o.
Proof.
  induction o as [|[k0 v0] o IH]; simpl.
  - intros [<-|[]]. now left.
  - destruct (String.eqb k k0); simpl.
    + intros [<-|H]; auto.
    + intros [<-|H]; auto. destruct (IH H); auto.
Qed.

Lemma In_delete k o (kv : string * V) : In kv (delete k o) -> In kv o.
Proof.
  induction o as [|[k0 v0] o IH]; simpl; [auto|].
  destruct (String.eqb k k0); simpl; [auto|].
  intros [<-|H]; auto.
Qed.

(** A projection of the entries that the written entry is new for stays
    free of repetitions under [set], and under [delete]. *)
Lemma NoDup_map_set {B : Type} (h : string * V -> B) k (v : V) o :
  NoDup (map h o) -> ~ In (h (k, v)) (map h o) -> NoDup (map h (set k v o)).
Proof.
  induction o as [|[k0 v0] o IH]; simpl; intros Hnd Hnew.
  - constructor; [auto|constructor].
  - inversion Hnd as [|? ? Hnotin Hnd']; subst.
    destruct (String.eqb k k0); simpl.
    + constructor; auto.
    + constructor; [|apply IH; auto].
      intros Hin. apply in_map_iff in Hin. destruct Hin as (kv & Hkv & Hin).
      destruct (In_set _ _ _ _ Hin) as [->|Hin'].
      * apply Hnew. now left.
      * apply Hnotin. rewrite <- Hkv. now apply in_map.
Qed.

Lemma NoDup_map_delete {B : Type} (h : string * V -> B) k o :
  NoDup (map h o) -> NoDup (map h (delete k o)).
Proof.
  induction o as [|[k0 v0] o IH]; simpl; intros Hnd; [constructor|].
  inversion Hnd as [|? ? Hnotin Hnd']; subst.
  destruct (String.eqb k k0); simpl; [auto|].
  constructor; [|auto].
  intros Hin. apply in_map_iff in Hin. destruct Hin as (kv & Hkv & Hin).
  apply Hnotin. rewrite <- Hkv. apply in_map. now apply In_delete in Hin.
Qed.

(** A write through a reference that keeps a projection of the entry keeps
    the projection of the whole dictionary. *)
Lemma map_alter {B : Type} (h : string * V -> B) f k o :
  (forall k0 v0, h (k0, f v0) = h (k0, v0)) ->
  map h (alter f k o) = map h o.
Proof.
  intros Hh. induction o as [|[k0 v0] o IH]; simpl; [reflexivity|].
  destruct (String.eqb k k0); simpl; [now rewrite Hh|now rewrite IH].
Qed.

Lemma keys_set_absent k (v : V) o :
  get k o = None -> keys (set k v o) = keys o ++ [k].
Proof.
  unfold keys. induction o as [|[k0 v0] o IH]; simpl; [reflexivity|].
  destruct (String.eqb k k0); [discriminate|]. intros H. simpl.
  now rewrite IH.
Qed.

Lemma keys_set_present k (v v0 : V) o :
  get k o = Some v0 -> keys (set k v o) = keys o.
Proof.
  unfold keys. induction o as [|[k0 w] o IH]; simpl; [discriminate|].
  destruct (String.eqb k k0) eqn:E; simpl.
  - apply String.eqb_eq in E. now subst.
  - intros H. now rewrite IH.
Qed.

Lemma get_None_keys k o : get k o = None -> ~ In k (keys o).
Proof.
  unfold keys. induction o as [|[k0 v0] o IH]; simpl; [auto|].
  destruct (String.eqb k k0) eqn:E; [discriminate|].
  apply String.eqb_neq in E. intros H [Heq|Hin]; [congruence|now apply IH].
Qed.

Lemma NoDup_keys_set k (v : V) o : NoDup (keys o) -> NoDup (keys (set k v o)).
Proof.
  intros Hnd. destruct (get k o) as [v0|] eqn:E.
  - now rewrite (keys_set_present k v v0 o E).
  - rewrite (keys_set_absent k v o E).
    apply NoDup_app; [exact Hnd|repeat constructor; auto|].
    intros a Ha [<-|[]]. now apply (get_None_keys k o).
Qed.

Lemma delete_absent k o : get k o = None -> delete k o = o.
Proof.
  induction o as [|[k0 v0] o IH]; simpl; [reflexivity|].
  destruct (String.eqb k k0); [discriminate|].
  intros H. now rewrite IH.
Qed.

Lemma keys_delete k o :
  keys (delete k o) = filter (fun k' => negb (String.eqb k k')) (keys o).
Proof.
  unfold keys. induction o as [|[k0 v0] o IH]; simpl; [reflexivity|].
  destruct (String.eqb k k0); simpl; [exact IH|now rewrite IH].
Qed.

(** An entry found after a write through [o[k]] was there before, or is the
    written image of what [o[k]] held. *)
Lemma In_alter f k o kv :
  In kv (alter f k o) ->
  In kv o \/ exists v, get k o = Some v /\ kv = (k, f v).
Proof.
  induction o as [|[k0 v0] o IH]; simpl; [auto|].
  destruct (String.eqb k k0) eqn:E; simpl.
  - apply String.eqb_eq in E. subst k0.
    intros [<-|H]; [right; now exists v0|auto].
  - intros [<-|H]; [auto|].
    destruct (IH H) as [Hin|Hf]; auto.
Qed.

Lemma get_Some_In k o (v : V) : get k o = Some v -> In (k, v) o.
Proof.
  induction o as [|[k0 v0] o IH]; simpl; [discriminate|].
  destruct (String.eqb k k0) eqn:E.
  - apply String.eqb_eq in E. subst k0. intros [= ->]. now left.
  - intros H. right. now apply IH.
Qed.

(** With unique keys an entry is what [get] returns for its key. *)
Lemma In_get_unique k o (v : V) :
  NoDup (keys o) -> In (k, v) o -> get k o = Some v.
Proof.
  unfold keys. induction o as [|[k0 v0] o IH]; simpl; [contradiction|].
  intros Hnd. inversion Hnd as [|? ? Hnotin Hnd']; subst.
  intros [[= -> ->]|Hin].
  - now rewrite String.eqb_refl.
  - destruct (String.eqb k k0) eqn:E; [|now apply IH].
    apply String.eqb_eq in E. subst k0. exfalso. apply Hnotin.
    change k with (fst (k, v)). now apply in_map.
Qed.

End Facts.

End JSObjectFacts.

(** ** The combat handler *)

Module ServerSpec.

Import JSObject JSObjectFacts Server.

Create Rewrite HintDb session.

#[local] Hint Rewrite @get_alter @get_set @get_delete : session.

(** Reads of [field], [session] and [get] after writes through keys. *)
Ltac fields :=
  unfold field, session in *; simpl in *;
  autorewrite with session in *; simpl in *.

Ltac case_eqb a b :=
  let E := fresh "E" in
  destruct (String.eqb a b) eqn:E;
  [apply String.eqb_eq in E; try subst | apply String.eqb_neq in E].

(** A hit is dropped when the round is over, when a party has no session or
    when the victim is already down. *)
Lemma hit_dropped st sid data :
  gameInProgress st = false \/
  (session st (victimId data) = None /\ inherits (victimId data) = false) \/
  session st sid = None \/
  (exists v, session st (victimId data) = Some v /\ hp v <= 0) ->
  hit st sid data = (st, []).
Proof.
  unfold hit, session, lookup.
  intros [H|[[H Hi]|[H|(v & H & Hv)]]].
  - now rewrite H.
  - rewrite H, Hi. now destruct (negb (gameInProgress st)).
  - rewrite H. destruct (negb (gameInProgress st)); [reflexivity|].
    destruct (get (victimId data) (players st)); [reflexivity|].
    now destruct (inherits (victimId data)).
  - rewrite H. destruct (negb (gameInProgress st)); [reflexivity|].
    destruct (get sid (players st)); [|reflexivity].
    now apply Z.leb_le in Hv; rewrite Hv.
Qed.

(** A hit on a name that [players] inherits and does not hold itself. *)
Lemma hit_inherited st sid data s :
  gameInProgress st = true ->
  session st (victimId data) = None ->
  inherits (victimId data) = true ->
  session st sid = Some s ->
  hit st sid data = (st, [(ToAll, playerDamagedNaN (victimId data) sid)]).
Proof.
  unfold hit, session, lookup. intros -> -> -> ->. reflexivity.
Qed.

Section LiveHit.

Variables (st : state) (sid : string) (data : hit_data) (v s : player).
Hypothesis Hround : gameInProgress st = true.
Hypothesis Hv : session st (victimId data) = Some v.
Hypothesis Hs : session st sid = Some s.
Hypothesis Halive : 0 < hp v.

Lemma live_hp : field hp 0 (victimId data)
    (alter (fun p => set_hp (hp p - damage data) p) (victimId data) (players st))
  = hp v - damage data.
Proof. fields. rewrite String.eqb_refl, Hv. reflexivity. Qed.

Lemma live_kills : field kills 0 sid (hit_roster sid data (players st))
  = kills s + (if hp v - damage data <=? 0 then 1 else 0).
Proof.
  unfold hit_roster. rewrite live_hp.
  destruct (hp v - damage data <=? 0); fields; rewrite ?String.eqb_refl.
  - case_eqb sid (victimId data); rewrite ?Hs, ?Hv in *; simpl.
    + congruence.
    + reflexivity.
  - case_eqb sid (victimId data); rewrite ?Hs, ?Hv in *; simpl; [|lia].
    assert (v = s) by congruence. subst. lia.
Qed.

Lemma live_name id p :
  session st id = Some p ->
  field name EmptyString id (hit_roster sid data (players st)) = name p.
Proof.
  intros Hp. unfold hit_roster.
  destruct (field hp 0 _ _ <=? 0); fields;
    repeat (match goal with
            | |- context [String.eqb ?a ?b] => destruct (String.eqb a b)
            end; simpl); rewrite Hp; reflexivity.
Qed.

Lemma hit_live :
  hit st sid data =
  let ps := hit_roster sid data (players st) in
  let damaged :=
    (ToAll, playerDamaged (victimId data) (hp v - damage data) sid) in
  let died := (ToAll, playerDied (victimId data) sid (name s) (name v)) in
  let scores := (ToAll, scoreboardUpdate (buildScoreboard ps)) in
  if hp v - damage data <=? 0 then
    if KILLS_TO_WIN <=? kills s + 1 then
      (setTimeout ResetCb WIN_DISPLAY_MS
         (set_gameInProgress false (set_players ps st)),
       [damaged; died; scores; (ToAll, gameWon sid (name s) (kills s + 1))])
    else
      (setTimeout (RespawnCb (victimId data) (oid v)) RESPAWN_DELAY_MS
         (set_players ps st),
       [damaged; died; scores])
  else (set_players ps st, [damaged]).
Proof.
  pose proof live_hp as Hhp.
  pose proof live_kills as Hk.
  pose proof (live_name sid s Hs) as Hns.
  pose proof (live_name (victimId data) v Hv) as Hnv.
  unfold hit_roster in *. rewrite Hhp in *.
  unfold hit, lookup. rewrite Hround. simpl negb. cbv iota.
  unfold session in Hv, Hs. rewrite Hv, Hs.
  destruct (hp v <=? 0) eqn:E; [apply Z.leb_le in E; lia|].
  cbv zeta. rewrite Hhp.
  destruct (hp v - damage data <=? 0) eqn:El.
  - rewrite Hk, Hns, Hnv. reflexivity.
  - reflexivity.
Qed.

(** The victim's session after the hit. *)
Lemma hit_live_victim :
  exists v',
    session (fst (hit st sid data)) (victimId data) = Some v' /\
    hp v' = hp v - damage data /\
    deaths v' = deaths v + (if hp v - damage data <=? 0 then 1 else 0) /\
    name v' = name v /\ oid v' = oid v.
Proof.
  rewrite hit_live. cbv zeta. unfold hit_roster. rewrite live_hp.
  destruct (hp v - damage data <=? 0) eqn:El;
    [destruct (KILLS_TO_WIN <=? kills s + 1)|]; fields;
    rewrite ?String.eqb_refl;
    try (case_eqb (victimId data) sid); rewrite ?Hv; simpl;
    eexists; (split; [reflexivity|]); simpl; repeat split; lia.
Qed.

(** The shooter's session after the hit. *)
Lemma hit_live_shooter :
  exists s',
    session (fst (hit st sid data)) sid = Some s' /\
    kills s' = kills s + (if hp v - damage data <=? 0 then 1 else 0) /\
    name s' = name s.
Proof.
  rewrite hit_live. cbv zeta. unfold hit_roster. rewrite live_hp.
  destruct (hp v - damage data <=? 0) eqn:El;
    [destruct (KILLS_TO_WIN <=? kills s + 1)|]; fields;
    rewrite ?String.eqb_refl;
    try (case_eqb sid (victimId data)); rewrite ?Hs, ?Hv in *; simpl;
    eexists; (split; [reflexivity|]); simpl; repeat split; try lia;
    try congruence.
  all: assert (v = s) by congruence; subst; lia.
Qed.

End LiveHit.

(** A hit is either dropped or processed on a living victim. *)
Lemma hit_cases st sid data :
  hit st sid data = (st, []) \/
  hit st sid data = (st, [(ToAll, playerDamagedNaN (victimId data) sid)]) \/
  exists v s,
    gameInProgress st = true /\ session st (victimId data) = Some v /\
    session st sid = Some s /\ 0 < hp v.
Proof.
  destruct (gameInProgress st) eqn:Hround;
    [|left; apply hit_dropped; now left].
  destruct (session st sid) as [s|] eqn:Hs;
    [|left; apply hit_dropped; now right; right; left].
  destruct (session st (victimId data)) as [v|] eqn:Hv.
  - destruct (Z_lt_le_dec 0 (hp v)) as [Halive|Hdown].
    + right; right. now exists v, s.
    + left. apply hit_dropped. right; right; right. now exists v.
  - destruct (inherits (victimId data)) eqn:Hi.
    + right; left. now apply hit_inherited with s.
    + left. apply hit_dropped. now right; left.
Qed.

Lemma run_cons random st i ins :
  run random st (i :: ins) =
  (fst (run random (fst (step random st i)) ins),
   snd (step random st i) ++ snd (run random (fst (step random st i)) ins)).
Proof.
  simpl. destruct (step random st i) as [st1 out1]. simpl.
  now destruct (run random st1 ins).
Qed.

(** *** Reachable states *)

Lemma wf_same_roster st st' :
  keys (players st') = keys (players st) ->
  oids (players st') = oids (players st) ->
  nextOid st' = nextOid st ->
  wf st -> wf st'.
Proof. unfold wf. intros -> -> ->. auto. Qed.

Lemma hit_roster_keys sid data ps : keys (hit_roster sid data ps) = keys ps.
Proof.
  unfold hit_roster. destruct (field hp 0 _ _ <=? 0);
    now rewrite ?keys_alter.
Qed.

Lemma hit_roster_oids sid data ps : oids (hit_roster sid data ps) = oids ps.
Proof.
  unfold hit_roster, oids. destruct (field hp 0 _ _ <=? 0);
    now rewrite ?map_alter by reflexivity.
Qed.

Lemma hit_wf st sid data : wf st -> wf (fst (hit st sid data)).
Proof.
  destruct (hit_cases st sid data) as [->|[->|(v & s & Hround & Hv & Hs & Halive)]];
    [auto|auto|].
  rewrite (hit_live st sid data v s Hround Hv Hs Halive). cbv zeta.
  apply wf_same_roster;
    destruct (hp v - damage data <=? 0);
    try destruct (KILLS_TO_WIN <=? kills s + 1);
    cbn [fst players nextOid setTimeout set_timers set_gameInProgress set_players];
    auto using hit_roster_keys, hit_roster_oids.
Qed.

Lemma resetPlayers_roster random ps : forall n,
  keys (fst (fst (resetPlayers random n ps))) = keys ps /\
  oids (fst (fst (resetPlayers random n ps))) = oids ps.
Proof.
  unfold keys, oids.
  induction ps as [|[id p] ps IH]; intros n; simpl; [auto|].
  specialize (IH (S (S n))).
  destruct (resetPlayers random (S (S n)) ps) as [[rest evs] n'].
  simpl in *. destruct IH as [-> ->]. auto.
Qed.

Lemma join_wf random st sid data : wf st -> wf (fst (join random st sid data)).
Proof.
  intros (Hk & Ho & Hlt). unfold join, wf.
  cbn [fst players nextOid].
  assert (Hfresh : ~ In (nextOid st) (oids (players st))).
  { intros Hin. rewrite Forall_forall in Hlt. specialize (Hlt _ Hin). lia. }
  split; [now apply NoDup_keys_set|]. split.
  - unfold oids. apply NoDup_map_set; [exact Ho|exact Hfresh].
  - rewrite Forall_forall in *. intros o Hin.
    unfold oids in Hin. apply in_map_iff in Hin.
    destruct Hin as (kv & <- & Hin).
    destruct (In_set _ _ _ _ Hin) as [->|Hold]; simpl; [lia|].
    assert (oid (snd kv) < nextOid st)%nat; [|lia].
    apply Hlt. unfold oids. now apply in_map with (f := fun kv => oid (snd kv)).
Qed.

Lemma disconnect_wf st sid : wf st -> wf (fst (disconnect st sid)).
Proof.
  intros (Hk & Ho & Hlt). unfold disconnect, wf.
  cbn [fst players nextOid set_players].
  split; [now apply NoDup_map_delete|]. split; [now apply NoDup_map_delete|].
  rewrite Forall_forall in *. intros o Hin.
  unfold oids in Hin. apply in_map_iff in Hin. destruct Hin as (kv & <- & Hin).
  apply Hlt. unfold oids.
  apply in_map with (f := fun kv => oid (snd kv)). now apply In_delete in Hin.
Qed.

Lemma run_callback_wf random cb st :
  wf st -> wf (fst (run_callback random cb st)).
Proof.
  intros Hwf. destruct cb as [vId victim|]; simpl.
  - unfold respawnCb. destruct (get vId (players st)) as [current|]; [|auto].
    revert Hwf. apply wf_same_roster; cbn [fst players nextOid];
      destruct (Nat.eqb (oid current) victim); auto using keys_alter.
    unfold oids. now rewrite map_alter by reflexivity.
  - unfold resetGame, entries.
    destruct (resetPlayers_roster random (players st) (randomCalls st))
      as [Hk Ho].
    destruct (resetPlayers random (randomCalls st) (players st))
      as [[ps evs] n].
    revert Hwf. now apply wf_same_roster.
Qed.

(** Every input keeps the roster well formed. *)
Lemma step_wf random st i : wf st -> wf (fst (step random st i)).
Proof.
  intros Hwf. destruct i as [sid d|sid d|sid d|sid d|sid|n]; simpl.
  - now apply join_wf.
  - unfold updateMovement. destruct (get sid (players st)); [|auto].
    revert Hwf. apply wf_same_roster; cbn [fst players nextOid set_players];
      auto using keys_alter.
    unfold oids. now rewrite map_alter by reflexivity.
  - unfold shoot. now destruct (get sid (players st)).
  - now apply hit_wf.
  - now apply disconnect_wf.
  - unfold fire. destruct (nth_error (timers st) n) as [[delay cb]|]; [|auto].
    apply run_callback_wf. revert Hwf. now apply wf_same_roster.
Qed.

(** The states the server reaches from its start have unique connection
    ids and distinct session objects. *)
Lemma reachable_wf random ins : wf (fst (run random initial ins)).
Proof.
  assert (H : forall st, wf st -> wf (fst (run random st ins))).
  { induction ins as [|i ins IH]; intros st Hwf; [exact Hwf|].
    rewrite run_cons. simpl fst. apply IH. now apply step_wf. }
  apply H. unfold wf, initial, keys, oids. simpl.
  repeat split; constructor.
Qed.

(** *** Hit points after a hit *)

(** C1, as stated, fails: two body shots and then a head shot, with the
    damage [CheeseGun.update] reports for them (1, 1, 3), on a fresh victim
    leave -2 hit points in the session record, and -2 is what
    [playerDamaged] broadcasts. *)
Lemma overkill_is_recorded_and_broadcast :
  option_map hp
    (session
       (fst (run half duel
               [Hit "A" (mkHit "B" (CheeseGun.dmg false));
                Hit "A" (mkHit "B" (CheeseGun.dmg false));
                Hit "A" (mkHit "B" (CheeseGun.dmg true))])) "B") = Some (-2) /\
  In (ToAll, playerDamaged "B" (-2) "A")
     (snd (run half duel
             [Hit "A" (mkHit "B" (CheeseGun.dmg false));
              Hit "A" (mkHit "B" (CheeseGun.dmg false));
              Hit "A" (mkHit "B" (CheeseGun.dmg true))])).
Proof.
  split.
  - vm_compute. reflexivity.
  - vm_compute. do 2 right. left. reflexivity.
Qed.

(** C1, amended: when a hit is processed (round active, both parties have a
    session, victim alive), the hit points stored for the victim and the hit
    points of every [playerDamaged] the handler emits are the previous hit
    points minus the reported damage, without clamping; that value is
    non-negative exactly when the damage does not exceed the previous hit
    points. *)
Theorem hit_records_hp_minus_damage st sid data v s :
  gameInProgress st = true ->
  session st (victimId data) = Some v ->
  session st sid = Some s ->
  0 < hp v ->
  (exists v', session (fst (hit st sid data)) (victimId data) = Some v' /\
              hp v' = hp v - damage data) /\
  In (ToAll, playerDamaged (victimId data) (hp v - damage data) sid)
     (snd (hit st sid data)) /\
  (forall a id h attacker,
      In (a, playerDamaged id h attacker) (snd (hit st sid data)) ->
      h = hp v - damage data) /\
  (0 <= hp v - damage data <-> damage data <= hp v).
Proof.
  intros Hround Hv Hs Halive.
  destruct (hit_live_victim st sid data v s Hround Hv Hs Halive)
    as (v' & Hv' & Hhp & _).
  split; [now exists v'|].
  rewrite (hit_live st sid data v s Hround Hv Hs Halive). cbv zeta.
  split; [|split; [|lia]].
  - destruct (hp v - damage data <=? 0);
      [destruct (KILLS_TO_WIN <=? kills s + 1)|]; now left.
  - intros a id h attacker.
    destruct (hp v - damage data <=? 0);
      [destruct (KILLS_TO_WIN <=? kills s + 1)|]; simpl;
      intros H; repeat destruct H as [H|H]; try discriminate H;
      try contradiction; now inversion H.
Qed.

(** The amended C1 at the head shot of the duel: victim at 1 hit point. *)
Lemma hit_records_hp_minus_damage_witness :
  (exists v',
      session
        (fst (hit (fst (run half duel
                          [Hit "A" (mkHit "B" 1); Hit "A" (mkHit "B" 1)]))
                "A" (mkHit "B" 3))) "B" = Some v' /\
      hp v' = 1 - 3) /\
  In (ToAll, playerDamaged "B" (1 - 3) "A")
     (snd (hit (fst (run half duel
                       [Hit "A" (mkHit "B" 1); Hit "A" (mkHit "B" 1)]))
             "A" (mkHit "B" 3))) /\
  (forall a id h attacker,
      In (a, playerDamaged id h attacker)
         (snd (hit (fst (run half duel
                           [Hit "A" (mkHit "B" 1); Hit "A" (mkHit "B" 1)]))
                 "A" (mkHit "B" 3))) ->
      h = 1 - 3) /\
  (0 <= 1 - 3 <-> 3 <= 1).
Proof.
  apply (hit_records_hp_minus_damage
           (fst (run half duel [Hit "A" (mkHit "B" 1); Hit "A" (mkHit "B" 1)]))
           "A" (mkHit "B" 3)
           (mkPlayer 1 (spawnCoord (1 # 2)) 2 (spawnCoord (1 # 2)) 0 0 0 1
              "Anonymous Rat" 1 0 0 "fedora" 0xDC4A3C 0xE8B84D 0xBE4545)
           (mkPlayer 0 (spawnCoord (1 # 2)) 2 (spawnCoord (1 # 2)) 0 0 0 1
              "Anonymous Rat" 3 0 0 "fedora" 0xDC4A3C 0xE8B84D 0xBE4545));
    vm_compute; reflexivity.
Defined.

(** *** A hit on oneself *)

(** C10: while the round is active, a living player who reports a hit on
    their own id loses the reported damage; when that is lethal, the same
    session gains one kill and one death, and the kill counts toward the
    threshold of 20: reaching it ends the round and announces this player as
    the winner. A hit that is not lethal changes neither count. *)
Theorem self_hit_counts st sid dmg p :
  gameInProgress st = true ->
  session st sid = Some p ->
  0 < hp p ->
  exists p',
    session (fst (hit st sid (mkHit sid dmg))) sid = Some p' /\
    hp p' = hp p - dmg /\
    (hp p - dmg <= 0 ->
       kills p' = kills p + 1 /\ deaths p' = deaths p + 1 /\
       (KILLS_TO_WIN <= kills p + 1 ->
          KILLS_TO_WIN = 20 /\
          gameInProgress (fst (hit st sid (mkHit sid dmg))) = false /\
          In (ToAll, gameWon sid (name p) (kills p + 1))
             (snd (hit st sid (mkHit sid dmg))))) /\
    (0 < hp p - dmg -> kills p' = kills p /\ deaths p' = deaths p).
Proof.
  intros Hround Hp Halive.
  destruct (hit_live_victim st sid (mkHit sid dmg) p p Hround Hp Hp Halive)
    as (p' & Hp' & Hhp & Hd & _).
  destruct (hit_live_shooter st sid (mkHit sid dmg) p p Hround Hp Hp Halive)
    as (p'' & Hp'' & Hk & _).
  simpl in *. assert (p'' = p') by congruence. subst p''.
  exists p'. split; [exact Hp'|]. split; [exact Hhp|].
  split.
  - intros Hl. apply Z.leb_le in Hl. rewrite Hl in Hk, Hd.
    split; [exact Hk|]. split; [exact Hd|].
    intros Hw. apply Z.leb_le in Hw.
    rewrite (hit_live st sid (mkHit sid dmg) p p Hround Hp Hp Halive).
    cbv zeta. simpl damage. rewrite Hl, Hw. simpl.
    split; [reflexivity|]. split; [reflexivity|]. do 3 right. now left.
  - intros Hn. apply Z.leb_gt in Hn. rewrite Hn in Hk, Hd. lia.
Qed.

(** C10 at a player who joined alone and reports a head shot on
    themselves. *)
Lemma self_hit_counts_witness :
  exists p',
    session
      (fst (hit (fst (join half initial "A" anonymous)) "A" (mkHit "A" 3)))
      "A" = Some p' /\
    hp p' = 3 - 3 /\
    (3 - 3 <= 0 ->
       kills p' = 0 + 1 /\ deaths p' = 0 + 1 /\
       (KILLS_TO_WIN <= 0 + 1 ->
          KILLS_TO_WIN = 20 /\
          gameInProgress
            (fst (hit (fst (join half initial "A" anonymous)) "A"
                    (mkHit "A" 3))) = false /\
          In (ToAll, gameWon "A" "Anonymous Rat" (0 + 1))
             (snd (hit (fst (join half initial "A" anonymous)) "A"
                     (mkHit "A" 3))))) /\
    (0 < 3 - 3 -> kills p' = 0 /\ deaths p' = 0).
Proof.
  apply (self_hit_counts (fst (join half initial "A" anonymous)) "A" 3
           (mkPlayer 0 (spawnCoord (1 # 2)) 2 (spawnCoord (1 # 2)) 0 0 0 1
              "Anonymous Rat" 3 0 0 "fedora" 0xDC4A3C 0xE8B84D 0xBE4545));
    vm_compute; reflexivity.
Defined.

(** *** One death per life *)

Lemma died_app victim out1 out2 :
  died victim (out1 ++ out2) = (died victim out1 + died victim out2)%nat.
Proof. unfold died. now rewrite filter_app, length_app. Qed.

Lemma session_kept (ps ps' : JSObject.t player) id :
  keys ps' = keys ps -> get id ps <> None -> get id ps' <> None.
Proof.
  intros Hk Hsome Hnone. apply get_None_keys in Hnone. rewrite Hk in Hnone.
  destruct (get id ps) as [q|] eqn:Hq; [|congruence].
  apply Hnone. apply get_Some_In in Hq. unfold keys.
  now apply (in_map fst) in Hq.
Qed.

(** What a processed hit emits and leaves behind, by whether it is lethal. *)
Lemma hit_live_out st sid data v s :
  gameInProgress st = true ->
  session st (victimId data) = Some v ->
  session st sid = Some s ->
  0 < hp v ->
  (hp v - damage data <= 0 ->
   died (victimId data) (snd (hit st sid data)) = 1%nat) /\
  (0 < hp v - damage data ->
   died (victimId data) (snd (hit st sid data)) = 0%nat /\
   gameInProgress (fst (hit st sid data)) = true /\
   keys (players (fst (hit st sid data))) = keys (players st)).
Proof.
  intros Hround Hv Hs Halive.
  rewrite (hit_live st sid data v s Hround Hv Hs Halive). cbv zeta.
  split; intros H.
  - apply Z.leb_le in H. rewrite H.
    destruct (KILLS_TO_WIN <=? kills s + 1); unfold died, is_playerDied;
      simpl; now rewrite String.eqb_refl.
  - apply Z.leb_gt in H. rewrite H. simpl.
    repeat split; auto using hit_roster_keys.
Qed.

(** C2: over any sequence of hits against one victim, with no respawn in
    between, the victim's death count grows by one exactly when the victim
    goes down, and by nothing otherwise, and as many [playerDied] events for
    the victim are emitted; once the victim is down, every further hit
    leaves the whole state as it is and emits nothing. While the round is on
    and every sender has a session, a living victim goes down, with exactly
    one more death, as soon as the damage reported so far reaches its hit
    points, whatever hits follow; if the damage never reaches them, it ends
    with its hit points less all the damage and no further death. *)
Theorem one_death_per_life random st victim p hits :
  session st victim = Some p ->
  exists p',
    session (fst (run random st (hits_on victim hits))) victim = Some p' /\
    (hp p <= 0 ->
       fst (run random st (hits_on victim hits)) = st /\
       snd (run random st (hits_on victim hits)) = []) /\
    (0 < hp p ->
       deaths p' = deaths p + (if hp p' <=? 0 then 1 else 0)) /\
    deaths p <= deaths p' <= deaths p + 1 /\
    Z.of_nat (died victim (snd (run random st (hits_on victim hits))))
    = deaths p' - deaths p /\
    (0 < hp p ->
     gameInProgress st = true ->
     Forall (fun h => session st (fst h) <> None) hits ->
     ((exists n, hp p <= dealt (firstn n hits)) ->
        hp p' <= 0 /\ deaths p' = deaths p + 1) /\
     ((forall n, dealt (firstn n hits) < hp p) ->
        hp p' = hp p - dealt hits /\ deaths p' = deaths p)).
Proof.
  revert st p.
  induction hits as [|[sid dmg] hits IH]; intros st p Hp.
  - simpl. exists p. split; [exact Hp|]. split; [auto|].
    split; [|split; [lia|split; [unfold died; simpl; lia|]]].
    + intros Hpos. destruct (hp p <=? 0) eqn:E; [apply Z.leb_le in E|]; lia.
    + intros Hpos _ _. split.
      * intros [n Hn]. destruct n; simpl in Hn; lia.
      * intros _. simpl. lia.
  - unfold hits_on in *. simpl map. rewrite run_cons. simpl step. simpl fst.
    simpl snd.
    set (d := mkHit victim dmg).
    assert (Hdrop : hit st sid d = (st, []) ->
      (hp p <= 0 \/ gameInProgress st = false \/ session st sid = None) ->
      exists p',
        session (fst (run random (fst (hit st sid d))
                        (map (fun h => Hit (fst h) (mkHit victim (snd h))) hits)))
          victim = Some p' /\
        (hp p <= 0 ->
           fst (run random (fst (hit st sid d))
                  (map (fun h => Hit (fst h) (mkHit victim (snd h))) hits)) = st /\
           snd (hit st sid d) ++
           snd (run random (fst (hit st sid d))
                  (map (fun h => Hit (fst h) (mkHit victim (snd h))) hits)) = []) /\
        (0 < hp p -> deaths p' = deaths p + (if hp p' <=? 0 then 1 else 0)) /\
        deaths p <= deaths p' <= deaths p + 1 /\
        Z.of_nat
          (died victim
             (snd (hit st sid d) ++
              snd (run random (fst (hit st sid d))
                     (map (fun h => Hit (fst h) (mkHit victim (snd h))) hits))))
        = deaths p' - deaths p /\
        (0 < hp p ->
         gameInProgress st = true ->
         Forall (fun h => session st (fst h) <> None) ((sid, dmg) :: hits) ->
         ((exists n, hp p <= dealt (firstn n ((sid, dmg) :: hits))) ->
            hp p' <= 0 /\ deaths p' = deaths p + 1) /\
         ((forall n, dealt (firstn n ((sid, dmg) :: hits)) < hp p) ->
            hp p' = hp p - dealt ((sid, dmg) :: hits) /\
            deaths p' = deaths p))).
    { intros -> Hwhy. simpl fst. simpl snd.
      destruct (IH st p Hp) as (p' & H1 & H2 & H3 & H4 & H5 & H6).
      exists p'. repeat (split; [solve [auto]|]).
      intros Hpos Hround Hall. inversion Hall as [|? ? Hsid _]; subst.
      simpl in Hsid. destruct Hwhy as [Hw|[Hw|Hw]]; [lia|congruence|congruence]. }
    destruct (Z_lt_le_dec 0 (hp p)) as [Halive|Hdown];
      [|apply Hdrop; [apply hit_dropped; right; right; right; now exists p
                     |now left]].
    destruct (gameInProgress st) eqn:Hround;
      [|apply Hdrop; [apply hit_dropped; now left|now right; left]].
    destruct (session st sid) as [s|] eqn:Hs;
      [|apply Hdrop; [apply hit_dropped; now right; right; left
                     |now right; right]].
    destruct (hit_live_victim st sid d p s Hround Hp Hs Halive)
      as (p1 & Hp1 & Hhp1 & Hd1 & _).
    destruct (hit_live_out st sid d p s Hround Hp Hs Halive)
      as [Hlethal Hsurvive].
    simpl victimId in Hp1, Hlethal, Hsurvive.
    simpl damage in Hhp1, Hd1, Hlethal, Hsurvive.
    destruct (IH _ p1 Hp1) as (p' & H1 & H2 & H3 & H4 & H5 & H6).
    exists p'. split; [exact H1|]. split; [lia|].
    rewrite died_app.
    destruct (hp p - dmg <=? 0) eqn:El.
    + apply Z.leb_le in El.
      assert (Hdown1 : hp p1 <= 0) by lia.
      destruct (H2 Hdown1) as [Hst Hout]. rewrite Hst in H1.
      assert (p' = p1) by congruence. subst p'.
      rewrite Hout, (Hlethal El).
      assert (Hb : (hp p1 <=? 0) = true) by now apply Z.leb_le.
      rewrite Hb. split; [lia|]. split; [lia|].
      split; [unfold died; simpl; lia|].
      intros _ _ _. split; [intros _; lia|].
      intros Hnever. specialize (Hnever 1%nat). simpl in Hnever. lia.
    + apply Z.leb_gt in El.
      assert (Hup1 : 0 < hp p1) by lia.
      destruct (Hsurvive El) as (Hnone & Hround1 & Hkeys).
      specialize (H3 Hup1). rewrite Hnone.
      split; [intros _; lia|]. split; [lia|]. split; [simpl; lia|].
      intros _ _ Hall. inversion Hall as [|? ? _ Hrest]; subst.
      assert (Hall1 : Forall
                (fun h => session (fst (hit st sid d)) (fst h) <> None) hits).
      { eapply Forall_impl; [|exact Hrest]. intros h Hh.
        unfold session in *. now apply (session_kept (players st)). }
      destruct (H6 Hup1 Hround1 Hall1) as [Hreach Hnever]. split.
      * intros [n Hn]. destruct n as [|n]; simpl in Hn; [lia|].
        destruct Hreach as [Hle Hde]; [exists n; lia|]. lia.
      * intros Hlt.
        destruct Hnever as [Hhp Hde].
        { intros n. specialize (Hlt (S n)). simpl in Hlt. lia. }
        simpl. lia.
Qed.

(** C2 on the duel: a head shot from A, then a second lethal hit from A and
    one from B herself before any respawn: B ends with one death, and one
    [playerDied] has been sent. *)
Lemma one_death_per_life_witness :
  exists p',
    session
      (fst (run half duel
              (hits_on "B" [("A"%string, 3); ("A"%string, 3); ("B"%string, 1)])))
      "B" = Some p' /\
    deaths p' = 1 /\ hp p' <= 0 /\
    died "B"
      (snd (run half duel
              (hits_on "B" [("A"%string, 3); ("A"%string, 3); ("B"%string, 1)])))
    = 1%nat.
Proof.
  destruct (one_death_per_life half duel "B"
              (mkPlayer 1 (spawnCoord (1 # 2)) 2 (spawnCoord (1 # 2)) 0 0 0 1
                 "Anonymous Rat" 3 0 0 "fedora" 0xDC4A3C 0xE8B84D 0xBE4545)
              [("A"%string, 3); ("A"%string, 3); ("B"%string, 1)])
    as (p' & H1 & _ & _ & _ & H5 & H6).
  - vm_compute. reflexivity.
  - exists p'. split; [exact H1|].
    destruct H6 as [[Hhp Hde] _].
    + simpl. lia.
    + reflexivity.
    + repeat constructor; vm_compute; discriminate.
    + exists 1%nat. simpl. lia.
    + simpl in Hde. split; [exact Hde|]. split; [exact Hhp|].
      cbn [deaths] in H5. lia.
Defined.

(** *** The win sequence *)

Lemma wins_app out1 out2 : wins (out1 ++ out2) = (wins out1 + wins out2)%nat.
Proof. unfold wins. now rewrite filter_app, length_app. Qed.

Lemma respawnCb_round random vId victim st :
  gameInProgress (fst (respawnCb random vId victim st)) = gameInProgress st /\
  wins (snd (respawnCb random vId victim st)) = 0%nat.
Proof.
  unfold respawnCb. now destruct (get vId (players st)).
Qed.

(** One input that is not the round reset: it announces at most one winner,
    none when the round is already over, and a winner ends the round. *)
Lemma step_wins random st i :
  fires_reset st i = false ->
  (wins (snd (step random st i)) <= 1)%nat /\
  (gameInProgress st = false ->
     wins (snd (step random st i)) = 0%nat /\
     gameInProgress (fst (step random st i)) = false) /\
  (wins (snd (step random st i)) = 1%nat ->
     gameInProgress (fst (step random st i)) = false).
Proof.
  intros Hfire.
  destruct i as [sid d|sid d|sid d|sid d|sid|n]; simpl step.
  - unfold join, wins; simpl. repeat split; auto; discriminate.
  - unfold updateMovement. destruct (get sid (players st));
      unfold wins; simpl; repeat split; auto; discriminate.
  - unfold shoot. destruct (get sid (players st));
      unfold wins; simpl; repeat split; auto; discriminate.
  - destruct (hit_cases st sid d) as [->|[->|(v & s & Hround & Hv & Hs & Halive)]].
    + unfold wins; simpl. repeat split; auto; discriminate.
    + unfold wins; simpl. repeat split; auto; discriminate.
    + rewrite (hit_live st sid d v s Hround Hv Hs Halive). cbv zeta.
      rewrite Hround.
      destruct (hp v - damage d <=? 0);
        [destruct (KILLS_TO_WIN <=? kills s + 1)|];
        unfold wins; simpl; repeat split; auto; discriminate.
  - unfold disconnect, wins; simpl. repeat split; auto; discriminate.
  - simpl in Hfire. unfold fire.
    destruct (nth_error (timers st) n) as [[delay [vId victim|]]|];
      [|discriminate|unfold wins; simpl; repeat split; auto; discriminate].
    simpl run_callback.
    destruct (respawnCb_round random vId victim
                (set_timers (remove_nth n (timers st)) st)) as [Hg Hw].
    rewrite Hg, Hw. simpl. repeat split; auto; discriminate.
Qed.

Lemma round_wins random ins : forall st,
  within_round random st ins = true ->
  (wins (snd (run random st ins)) <= 1)%nat /\
  (gameInProgress st = false ->
     wins (snd (run random st ins)) = 0%nat /\
     gameInProgress (fst (run random st ins)) = false).
Proof.
  induction ins as [|i ins IH]; intros st Hin.
  - unfold wins; simpl. auto.
  - simpl in Hin. apply andb_true_iff in Hin. destruct Hin as [Hi Hin].
    apply negb_true_iff in Hi.
    destruct (step_wins random st i Hi) as (H1 & H0 & Hend).
    destruct (IH _ Hin) as (IH1 & IH0).
    rewrite run_cons. simpl fst. simpl snd. rewrite wins_app.
    split.
    + destruct (wins (snd (step random st i))) as [|[|k]] eqn:E; [lia| |lia].
      destruct (IH0 (Hend eq_refl)) as [-> _]. lia.
    + intros Hover. destruct (H0 Hover) as [Hz Hover'].
      destruct (IH0 Hover') as [Hz' Hfin].
      rewrite Hz, Hz'. auto.
Qed.

(** C3: a lethal hit that brings the shooter to the threshold of 20 kills
    marks the round inactive, broadcasts [gameWon], schedules the round
    reset after 6000 ms and schedules no respawn; while the round is
    inactive every hit leaves the state as it is and emits nothing, and the
    round stays inactive until the reset fires; and no trace of inputs that
    stays within one round (no reset fires) announces more than one
    winner. *)
Theorem win_once_per_round random st :
  (forall sid data v s,
      gameInProgress st = true ->
      session st (victimId data) = Some v ->
      session st sid = Some s ->
      0 < hp v -> hp v - damage data <= 0 ->
      KILLS_TO_WIN <= kills s + 1 ->
      KILLS_TO_WIN = 20 /\
      gameInProgress (fst (hit st sid data)) = false /\
      In (ToAll, gameWon sid (name s) (kills s + 1)) (snd (hit st sid data)) /\
      wins (snd (hit st sid data)) = 1%nat /\
      timers (fst (hit st sid data)) = timers st ++ [(6000, ResetCb)]) /\
  (gameInProgress st = false ->
   (forall sid data, hit st sid data = (st, [])) /\
   (forall ins,
       within_round random st ins = true ->
       gameInProgress (fst (run random st ins)) = false /\
       wins (snd (run random st ins)) = 0%nat)) /\
  (forall ins,
      within_round random st ins = true ->
      (wins (snd (run random st ins)) <= 1)%nat).
Proof.
  split; [|split].
  - intros sid data v s Hround Hv Hs Halive Hl Hw.
    rewrite (hit_live st sid data v s Hround Hv Hs Halive). cbv zeta.
    apply Z.leb_le in Hl, Hw. rewrite Hl, Hw. simpl.
    repeat split; auto.
  - intros Hover. split.
    + intros sid data. apply hit_dropped. now left.
    + intros ins Hin.
      destruct (round_wins random ins st Hin) as [_ H]. now apply and_comm, H.
  - intros ins Hin. now apply round_wins.
Qed.

(** C3 at the twentieth kill. *)
Lemma win_once_per_round_witness :
  KILLS_TO_WIN = 20 /\
  gameInProgress (fst (hit nineteen "A" (mkHit "B" 3))) = false /\
  In (ToAll, gameWon "A" "Anonymous Rat" (19 + 1))
     (snd (hit nineteen "A" (mkHit "B" 3))) /\
  wins (snd (hit nineteen "A" (mkHit "B" 3))) = 1%nat /\
  timers (fst (hit nineteen "A" (mkHit "B" 3))) =
  timers nineteen ++ [(6000, ResetCb)].
Proof.
  apply (proj1 (win_once_per_round half nineteen) "A"%string (mkHit "B" 3)
           (mkPlayer 1 (spawnCoord (1 # 2)) 2 (spawnCoord (1 # 2)) 0 0 0 1
              "Anonymous Rat" 3 0 19 "fedora" 0xDC4A3C 0xE8B84D 0xBE4545)
           (mkPlayer 0 (spawnCoord (1 # 2)) 2 (spawnCoord (1 # 2)) 0 0 0 1
              "Anonymous Rat" 3 19 0 "fedora" 0xDC4A3C 0xE8B84D 0xBE4545));
    vm_compute; solve [reflexivity | discriminate].
Defined.

(** *** Stale references *)

(** C6: a hit is not dropped whenever its victim has no session. When the
    round is on and the sender has a session, a [hit] whose [victimId] is a
    property name that [players] inherits from [Object.prototype]
    ([toString], [constructor], [__proto__], ...) and that no session is
    stored under passes the guard [!victim]: it is processed, and a
    [playerDamaged] with hit points [NaN] is broadcast to everyone, where
    the specification promises a silent no-op. The sessions, the round flag
    and the timers stay as they are. *)
Theorem inherited_victim_is_not_dropped st sid data s :
  gameInProgress st = true ->
  session st sid = Some s ->
  session st (victimId data) = None ->
  inherits (victimId data) = true ->
  hit st sid data = (st, [(ToAll, playerDamagedNaN (victimId data) sid)]) /\
  snd (hit st sid data) <> [].
Proof.
  intros Hround Hs Hv Hi.
  rewrite (hit_inherited st sid data s Hround Hv Hi Hs).
  split; [reflexivity|discriminate].
Qed.

(** C6 in the duel: A reports a hit of damage 1 on [toString]. *)
Lemma inherited_victim_is_not_dropped_witness :
  session duel "toString" = None /\
  hit duel "A" (mkHit "toString" 1)
  = (duel, [(ToAll, playerDamagedNaN "toString" "A")]) /\
  snd (hit duel "A" (mkHit "toString" 1)) <> [].
Proof.
  split; [reflexivity|].
  apply (inherited_victim_is_not_dropped duel "A" (mkHit "toString" 1)
           (mkPlayer 0 (spawnCoord (1 # 2)) 2 (spawnCoord (1 # 2)) 0 0 0 1
              "Anonymous Rat" 3 0 0 "fedora" 0xDC4A3C 0xE8B84D 0xBE4545));
    vm_compute; reflexivity.
Defined.

(** X27: for a connection id that has no session, [updateMovement], [shoot]
    and [hit] from that id, a [hit] on that id from anyone (when the id is
    no property name of [Object.prototype]), and the respawn callback for
    that id all return the state as it is and emit nothing; a pending
    respawn timer for that id that fires leaves the roster and the round
    flag as they are, emits nothing and creates no session; and
    [disconnect] is what removes the session. *)
Theorem stale_reference_is_noop random st sid :
  session st sid = None ->
  (forall data, updateMovement st sid data = (st, [])) /\
  (forall data, shoot st sid data = (st, [])) /\
  (forall data, hit st sid data = (st, [])) /\
  (forall other data,
      victimId data = sid -> inherits sid = false ->
      hit st other data = (st, [])) /\
  (forall victim, respawnCb random sid victim st = (st, [])) /\
  (forall n delay victim,
      nth_error (timers st) n = Some (delay, RespawnCb sid victim) ->
      players (fst (fire random n st)) = players st /\
      gameInProgress (fst (fire random n st)) = gameInProgress st /\
      session (fst (fire random n st)) sid = None /\
      snd (fire random n st) = []) /\
  (forall st0, session (fst (disconnect st0 sid)) sid = None).
Proof.
  intros Hnone. unfold session in Hnone.
  split; [|split; [|split; [|split; [|split; [|split]]]]].
  - intros data. unfold updateMovement. now rewrite Hnone.
  - intros data. unfold shoot. now rewrite Hnone.
  - intros data. apply hit_dropped. now right; right; left.
  - intros other data <- Hi. apply hit_dropped. now right; left.
  - intros victim. unfold respawnCb. now rewrite Hnone.
  - intros n delay victim Hn. unfold fire, session. rewrite Hn.
    cbn [run_callback]. unfold respawnCb, set_timers. cbn [players].
    rewrite Hnone. cbn [fst snd players gameInProgress]. now rewrite Hnone.
  - intros st0. unfold disconnect, session, set_players. cbn [fst players].
    now rewrite get_delete, String.eqb_refl.
Qed.

(** X27 at B after the disconnect, with B's respawn timer still pending. *)
Lemma stale_reference_is_noop_witness :
  nth_error (timers orphaned) 0 = Some (5000, RespawnCb "B" 1) /\
  (forall data, updateMovement orphaned "B" data = (orphaned, [])) /\
  (forall data, shoot orphaned "B" data = (orphaned, [])) /\
  (forall data, hit orphaned "B" data = (orphaned, [])) /\
  (forall other data,
      victimId data = "B"%string -> inherits "B" = false ->
      hit orphaned other data = (orphaned, [])) /\
  (forall victim, respawnCb half "B" victim orphaned = (orphaned, [])) /\
  (forall n delay victim,
      nth_error (timers orphaned) n = Some (delay, RespawnCb "B" victim) ->
      players (fst (fire half n orphaned)) = players orphaned /\
      gameInProgress (fst (fire half n orphaned)) = gameInProgress orphaned /\
      session (fst (fire half n orphaned)) "B" = None /\
      snd (fire half n orphaned) = []) /\
  (forall st0, session (fst (disconnect st0 "B")) "B" = None).
Proof.
  split; [vm_compute; reflexivity|].
  apply (stale_reference_is_noop half orphaned "B"). vm_compute. reflexivity.
Defined.

(** *** The scoreboard *)

Lemma compareFn_le a b : (compareFn a b <=? 0) = true <-> ranks_before a b.
Proof.
  unfold compareFn, ranks_before. rewrite Z.leb_le.
  destruct (e_kills b - e_kills a =? 0) eqn:E;
    [apply Z.eqb_eq in E | apply Z.eqb_neq in E]; lia.
Qed.

Lemma ranks_before_total a b : ~ ranks_before a b -> ranks_before b a.
Proof. unfold ranks_before. lia. Qed.

Lemma ranks_before_trans a b c :
  ranks_before a b -> ranks_before b c -> ranks_before a c.
Proof. unfold ranks_before. lia. Qed.

Lemma insert_perm a l : Permutation (insert compareFn a l) (a :: l).
Proof.
  induction l as [|b l IH]; simpl; [reflexivity|].
  destruct (compareFn a b <=? 0); [reflexivity|].
  rewrite IH. apply perm_swap.
Qed.

Lemma sort_perm l : Permutation (sort compareFn l) l.
Proof.
  induction l as [|a l IH]; simpl; [reflexivity|].
  rewrite insert_perm. now constructor.
Qed.

Lemma insert_sorted a l :
  StronglySorted ranks_before l ->
  StronglySorted ranks_before (insert compareFn a l).
Proof.
  induction 1 as [|b l Hs IH Hb]; simpl.
  - repeat constructor.
  - destruct (compareFn a b <=? 0) eqn:E.
    + apply compareFn_le in E.
      constructor; [now constructor|].
      constructor; [exact E|].
      eapply Forall_impl; [|exact Hb].
      intros c Hc. now apply ranks_before_trans with b.
    + assert (Hba : ranks_before b a).
      { apply ranks_before_total. intros H. apply compareFn_le in H. congruence. }
      constructor; [exact IH|].
      eapply Permutation_Forall; [symmetry; apply insert_perm|].
      now constructor.
Qed.

Lemma sort_sorted l : StronglySorted ranks_before (sort compareFn l).
Proof.
  induction l as [|a l IH]; simpl; [constructor|now apply insert_sorted].
Qed.

Lemma same_rank_compare a b : same_rank a b = true -> compareFn a b = 0.
Proof.
  unfold same_rank, compareFn. intros H.
  apply andb_true_iff in H. destruct H as [Hk Hd].
  apply Z.eqb_eq in Hk, Hd.
  replace (e_kills b - e_kills a) with 0 by lia. simpl. lia.
Qed.

(** Inserting keeps the order among the entries of any one rank. *)
Lemma insert_stable r a l :
  filter (same_rank r) (insert compareFn a l) = filter (same_rank r) (a :: l).
Proof.
  induction l as [|b l IH]; [reflexivity|].
  simpl insert. destruct (compareFn a b <=? 0) eqn:E; [reflexivity|].
  simpl filter in *. rewrite IH.
  destruct (same_rank r a) eqn:Ha; [|reflexivity].
  destruct (same_rank r b) eqn:Hb; [|reflexivity].
  exfalso.
  assert (Hab : same_rank a b = true).
  { unfold same_rank in *.
    apply andb_true_iff in Ha, Hb. destruct Ha as [Ha1 Ha2], Hb as [Hb1 Hb2].
    apply Z.eqb_eq in Ha1, Ha2, Hb1, Hb2.
    apply andb_true_iff; split; apply Z.eqb_eq; lia. }
  apply same_rank_compare in Hab. rewrite Hab in E. discriminate.
Qed.

Lemma sort_stable r l :
  filter (same_rank r) (sort compareFn l) = filter (same_rank r) l.
Proof.
  induction l as [|a l IH]; [reflexivity|].
  simpl sort. rewrite insert_stable. simpl. now rewrite IH.
Qed.

(** C4: the scoreboard lists every session of the roster exactly once, more
    kills first and, among equal kills, fewer deaths first; sessions with the
    same kills and deaths keep the order of the roster, so the result is
    determined; and for sessions A, B, C with kills 3, 3, 1 and deaths
    2, 1, 0 the order is B, A, C. *)
Theorem scoreboard_order ps :
  Permutation (buildScoreboard ps) (map to_entry ps) /\
  StronglySorted ranks_before (buildScoreboard ps) /\
  (forall r,
      filter (same_rank r) (buildScoreboard ps) =
      filter (same_rank r) (map to_entry ps)) /\
  (forall a b c pa pb pc,
      ps = [(a, pa); (b, pb); (c, pc)] ->
      kills pa = 3 -> kills pb = 3 -> kills pc = 1 ->
      deaths pa = 2 -> deaths pb = 1 -> deaths pc = 0 ->
      map e_id (buildScoreboard ps) = [b; a; c]).
Proof.
  unfold buildScoreboard, entries.
  split; [apply sort_perm|].
  split; [apply sort_sorted|].
  split; [intros r; apply sort_stable|].
  intros a b c pa pb pc -> Ka Kb Kc Da Db Dc.
  simpl. unfold compareFn, to_entry. simpl.
  rewrite Ka, Kb, Kc, Da, Db, Dc. reflexivity.
Qed.

(** C4 at the roster of the example. *)
Lemma scoreboard_order_witness :
  map e_id (buildScoreboard podium) = ["B"%string; "A"%string; "C"%string].
Proof.
  apply (proj2 (proj2 (proj2 (scoreboard_order podium))) "A"%string "B"%string
           "C"%string _ _ _ eq_refl); reflexivity.
Defined.

(** *** The round reset *)



(** *** Movement updates *)

(** C7, as stated, fails: two movement updates that differ only in the mesh
    orientation leave the same server state, so the session does not hold
    the mesh orientation; and an update without mesh orientation is relayed
    with the orientation (0, 0, 0, 1) filled in. *)
Lemma mesh_orientation_is_not_stored :
  fst (updateMovement duel "A"
         (mkMovement 1 2 3 0 0 0 1 (Some 0%Q) (Some 1%Q) (Some 0%Q) (Some 0%Q))) =
  fst (updateMovement duel "A"
         (mkMovement 1 2 3 0 0 0 1 (Some 0%Q) (Some 0%Q) (Some 0%Q) (Some 1%Q))) /\
  snd (updateMovement duel "A" (mkMovement 1 2 3 0 0 0 1 None None None None)) =
  [(ToOthers "A", playerMoved "A" 1 2 3 0 0 0 1 0 0 0 1)].
Proof. split; vm_compute; reflexivity. Qed.

(** C7, amended: an [updateMovement] from a connection with a session
    overwrites the position and the body orientation of that session with
    the payload, whatever it is, and nothing else: the other fields of the
    session, the other sessions, the round flag and the timers stay; it
    emits one [playerMoved] to all other clients, carrying the id, the
    position and body orientation of the payload and its mesh orientation,
    a missing mesh component being replaced by that of (0, 0, 0, 1). *)
Theorem updateMovement_overwrites st sid data p :
  session st sid = Some p ->
  (exists p',
      session (fst (updateMovement st sid data)) sid = Some p' /\
      x p' = m_x data /\ y p' = m_y data /\ z p' = m_z data /\
      qx p' = m_qx data /\ qy p' = m_qy data /\
      qz p' = m_qz data /\ qw p' = m_qw data /\
      oid p' = oid p /\ name p' = name p /\ hp p' = hp p /\
      kills p' = kills p /\ deaths p' = deaths p /\
      hatType p' = hatType p /\ hatColor p' = hatColor p /\
      furColor p' = furColor p /\ coatColor p' = coatColor p) /\
  (forall id, id <> sid ->
      session (fst (updateMovement st sid data)) id = session st id) /\
  keys (players (fst (updateMovement st sid data))) = keys (players st) /\
  gameInProgress (fst (updateMovement st sid data)) = gameInProgress st /\
  timers (fst (updateMovement st sid data)) = timers st /\
  snd (updateMovement st sid data) =
  [(ToOthers sid,
    playerMoved sid (m_x data) (m_y data) (m_z data)
      (m_qx data) (m_qy data) (m_qz data) (m_qw data)
      (nullish (m_meshQx data) 0%Q) (nullish (m_meshQy data) 0%Q)
      (nullish (m_meshQz data) 0%Q) (nullish (m_meshQw data) 1%Q))].
Proof.
  intros Hp. unfold updateMovement, session in *. rewrite Hp.
  cbn [fst snd set_players players gameInProgress timers].
  split; [|split; [|split; [|repeat split]]].
  - rewrite get_alter_same, Hp. simpl. eexists. split; [reflexivity|].
    simpl. repeat split; reflexivity.
  - intros id Hne. rewrite get_alter.
    apply String.eqb_neq in Hne. now rewrite Hne.
  - apply keys_alter.
Qed.

(** The amended C7 at player A of the duel. *)
Lemma updateMovement_overwrites_witness :
  snd (updateMovement duel "A"
         (mkMovement 1 2 3 0 0 0 1 None (Some (1 # 2)) None None)) =
  [(ToOthers "A", playerMoved "A" 1 2 3 0 0 0 1 0 (1 # 2) 0 1)].
Proof.
  apply (updateMovement_overwrites duel "A"
           (mkMovement 1 2 3 0 0 0 1 None (Some (1 # 2)) None None)
           (mkPlayer 0 (spawnCoord (1 # 2)) 2 (spawnCoord (1 # 2)) 0 0 0 1
              "Anonymous Rat" 3 0 0 "fedora" 0xDC4A3C 0xE8B84D 0xBE4545)).
  vm_compute. reflexivity.
Defined.

(** *** Joining *)

Lemma spawnCoord_range r :
  (0 <= r < 1)%Q -> (-50 <= spawnCoord r <= 50)%Q.
Proof. unfold spawnCoord. intros [H0 H1]. split; lra. Qed.

(** C8, as stated, fails on the name: the server replaces a missing or empty
    name only, so a name that is a single space is stored as it is. *)
Lemma whitespace_name_is_kept :
  option_map name
    (session
       (fst (join half initial "A" (mkJoin (Some " "%string) None None None None)))
       "A") = Some " "%string.
Proof. vm_compute. reflexivity. Qed.

(** C8, amended: [join] accepts every payload and stores, under the
    connection id, a session with [MAX_HP] = 3 hit points, no kills and no
    deaths, at height 2 with x and z within 50 of the origin (for results of
    [Math.random()] in [0, 1)); the name is the default when the payload has
    no name or the empty name, and is the supplied name otherwise, blank or
    not. *)
Theorem join_creates_session random st sid data :
  (forall n, 0 <= random n < 1)%Q ->
  exists p,
    session (fst (join random st sid data)) sid = Some p /\
    MAX_HP = 3 /\ hp p = MAX_HP /\ kills p = 0 /\ deaths p = 0 /\
    y p = 2%Q /\
    (-50 <= x p <= 50)%Q /\ (-50 <= z p <= 50)%Q /\
    (j_name data = None \/ j_name data = Some EmptyString ->
       name p = "Anonymous Rat"%string) /\
    (forall nm, j_name data = Some nm -> nm <> EmptyString -> name p = nm).
Proof.
  intros Hrange. unfold join, session.
  cbn [fst players]. rewrite get_set, String.eqb_refl.
  eexists. split; [reflexivity|]. simpl.
  repeat split; try apply spawnCoord_range; try apply Hrange.
  - intros [->| ->]; reflexivity.
  - intros nm -> Hne. simpl. apply String.eqb_neq in Hne. now rewrite Hne.
Qed.

(** The amended C8 at the first join of the duel, [Math.random()] returning
    one half. *)
Lemma join_creates_session_witness :
  exists p,
    session (fst (join half initial "A" anonymous)) "A" = Some p /\
    MAX_HP = 3 /\ hp p = MAX_HP /\ kills p = 0 /\ deaths p = 0 /\
    y p = 2%Q /\
    (-50 <= x p <= 50)%Q /\ (-50 <= z p <= 50)%Q /\
    (j_name anonymous = None \/ j_name anonymous = Some EmptyString ->
       name p = "Anonymous Rat"%string) /\
    (forall nm, j_name anonymous = Some nm -> nm <> EmptyString -> name p = nm).
Proof.
  apply (join_creates_session half initial "A" anonymous).
  intros n. unfold half. lra.
Defined.

End ServerSpec.

(** ** Remote avatars on the client *)

Module ClientSpec.

Import JSObject JSObjectFacts Client.

Local Open Scope Q_scope.

Section Avatars.

Variable slerp : Quaternion -> Quaternion -> Q -> Quaternion.
Variable layDown : Vector3 -> Quaternion.

Abbreviation update := (Client.update slerp).
Abbreviation updateRemoteRat := (Client.updateRemoteRat slerp).
Abbreviation updateRemoteRats := (Client.updateRemoteRats slerp).
Abbreviation receive := (Client.receive layDown).
Abbreviation step := (Client.step slerp layDown).
Abbreviation run := (Client.run slerp layDown).

Lemma updateDeathRagdoll_dead e :
  dead (updateDeathRagdoll slerp e) = dead e.
Proof.
  unfold updateDeathRagdoll.
  destruct (deathPhase e); simpl;
    repeat match goal with
           | |- context [if ?b then _ else _] => destruct b
           end; reflexivity.
Qed.

Lemma update_dead dt e : dead (update dt e) = dead e.
Proof.
  unfold Client.update. destruct (dead e) eqn:E; [|reflexivity].
  now rewrite updateDeathRagdoll_dead.
Qed.

Lemma updateRemoteRat_dead dt r :
  dead (entity (updateRemoteRat dt r)) = dead (entity r).
Proof.
  unfold Client.updateRemoteRat.
  destruct (dead (entity r)) eqn:E; unfold set_entity; cbn [entity];
    rewrite update_dead; [exact E|reflexivity].
Qed.

(** A frame applies [updateRemoteRat] to every avatar, in place. *)
Lemma get_updateRemoteRats dt st id :
  get id (remoteRats (updateRemoteRats dt st)) =
  option_map (updateRemoteRat dt) (get id (remoteRats st)).
Proof.
  unfold Client.updateRemoteRats. simpl.
  induction (remoteRats st) as [|[k r] o IH]; simpl; [reflexivity|].
  now destruct (String.eqb id k).
Qed.

(** A known avatar is not replaced by a later roster or join message. *)
Lemma spawnRemoteRat_known now id' data st id r :
  get id (remoteRats st) = Some r ->
  get id (remoteRats (spawnRemoteRat now id' data st)) = Some r.
Proof.
  intros H. unfold spawnRemoteRat.
  destruct (get id' (remoteRats st)) eqn:E; [exact H|].
  simpl. rewrite get_set.
  destruct (String.eqb id id') eqn:Eid; [|exact H].
  apply String.eqb_eq in Eid. congruence.
Qed.

Lemma currentPlayers_known now me roster id r : forall st,
  get id (remoteRats st) = Some r ->
  get id
    (remoteRats
       (fold_left
          (fun s kv =>
             if String.eqb (fst kv) me then s
             else spawnRemoteRat now (fst kv) (snd kv) s)
          roster st)) = Some r.
Proof.
  induction roster as [|[k p] roster IH]; intros st H; simpl; [exact H|].
  apply IH. destruct (String.eqb k me); [exact H|].
  now apply spawnRemoteRat_known.
Qed.

(** One input other than the respawn or the removal of the avatar keeps a
    dead avatar in the roster and dead. *)
Lemma step_keeps_dead st i id r :
  ends_death id i = false ->
  get id (remoteRats st) = Some r -> dead (entity r) = true ->
  exists r',
    get id (remoteRats (step st i)) = Some r' /\ dead (entity r') = true.
Proof.
  intros Hi Hr Hd.
  destruct i as [now imp m|dt]; simpl Client.step.
  - destruct m; simpl Client.receive; simpl in Hi.
    + exists r. split; [|exact Hd]. now apply currentPlayers_known.
    + exists r. split; [|exact Hd].
      destruct (String.eqb id0 (myId st)); [exact Hr|].
      now apply spawnRemoteRat_known.
    + simpl. rewrite get_alter, Hr.
      destruct (String.eqb id id0); simpl; eexists;
        (split; [reflexivity|]); exact Hd.
    + exists r. now split.
    + simpl. rewrite get_alter, Hr.
      destruct (String.eqb id id0); simpl; eexists;
        (split; [reflexivity|]); try exact Hd.
      unfold onPlayerDamaged. destruct (0 <? newHp)%Z; exact Hd.
    + simpl. rewrite get_alter, Hr.
      destruct (String.eqb id id0); simpl; eexists;
        (split; [reflexivity|]); exact Hd.
    + simpl. rewrite get_alter, Hr.
      destruct (String.eqb id victim); simpl; eexists;
        (split; [reflexivity|]); try exact Hd.
      unfold onPlayerDied. now rewrite Hd.
    + exists r. now split.
    + destruct (String.eqb id0 (myId st)); [now exists r|].
      simpl. rewrite get_alter, Hi. now exists r.
    + simpl. rewrite get_delete, Hi. now exists r.
    + exists r. now split.
    + exists r. now split.
  - rewrite get_updateRemoteRats, Hr. simpl. eexists. split; [reflexivity|].
    now rewrite updateRemoteRat_dead.
Qed.

Lemma run_keeps_dead ins : forall st id r,
  forallb (fun i => negb (ends_death id i)) ins = true ->
  get id (remoteRats st) = Some r -> dead (entity r) = true ->
  exists r',
    get id (remoteRats (run st ins)) = Some r' /\ dead (entity r') = true.
Proof.
  induction ins as [|i ins IH]; intros st id r Hins Hr Hd.
  - now exists r.
  - simpl in Hins. apply andb_true_iff in Hins. destruct Hins as [Hi Hins].
    apply negb_true_iff in Hi.
    destruct (step_keeps_dead st i id r Hi Hr Hd) as (r1 & Hr1 & Hd1).
    unfold Client.run. simpl. now apply (IH _ id r1).
Qed.

(** For a dead avatar the frame runs the death presentation and nothing
    else. *)
Lemma updateRemoteRat_of_dead dt r :
  dead (entity r) = true ->
  updateRemoteRat dt r = set_entity (update dt (entity r)) r.
Proof. intros H. unfold Client.updateRemoteRat. now rewrite H. Qed.

(** The death presentation at rest leaves the rendered transform. *)
Lemma update_done dt e :
  dead e = true -> deathPhase e = done ->
  meshPosition (update dt e) = meshPosition e /\
  meshQuaternion (update dt e) = meshQuaternion e.
Proof.
  intros Hd Hp. unfold Client.update, updateDeathRagdoll.
  rewrite Hd. simpl. rewrite Hp. simpl. auto.
Qed.

End Avatars.

(** C9, as stated, fails: whatever the quaternion functions of three.js
    compute, an avatar that died standing at height 2 is rendered at height
    0.3 fifty frames of 0.05 s later, still dead and with no message
    received in between: the frames run its death presentation. *)
Lemma death_presentation_moves_avatar :
  exists frames : nat,
    forall slerp layDown,
      is_dead (fallen layDown) "B" = Some true /\
      rendered_height (fallen layDown) "B" = Some 2 /\
      is_dead
        (Client.run slerp layDown (fallen layDown) (repeat (Frame (1 # 20)) frames))
        "B" = Some true /\
      rendered_height
        (Client.run slerp layDown (fallen layDown) (repeat (Frame (1 # 20)) frames))
        "B" = Some (3 # 10).
Proof.
  exists 50%nat. intros slerp layDown.
  repeat split; vm_compute; reflexivity.
Qed.

(** C9, amended: for a remote avatar whose dead flag is set, a frame applies
    no interpolation: the avatar after the frame is the one before with its
    entity advanced by the death presentation ([RatEntity.update]), which
    does not read the interpolation target, and once that presentation is at
    rest the rendered position and orientation stay; a [playerMoved] for the
    avatar changes the interpolation target and leaves the entity; the flag
    stays set over any inputs other than the [playerRespawn] or the
    [playerLeft] of that avatar; and the [playerRespawn] clears the flag,
    renders the avatar at the respawn position with the identity
    orientation and sets the interpolation target to the same transform. *)
Theorem dead_avatar_is_not_interpolated slerp layDown st id r :
  get id (remoteRats st) = Some r ->
  dead (entity r) = true ->
  (forall dt,
      get id (remoteRats (Client.updateRemoteRats slerp dt st)) =
      Some (set_entity (Client.update slerp dt (entity r)) r)) /\
  (forall dt, deathPhase (entity r) = done ->
      rendered (Client.updateRemoteRat slerp dt r) = rendered r) /\
  (forall now imp px py pz bx by_ bz bw mx my mz mw,
      exists r',
        get id
          (remoteRats
             (Client.receive layDown now imp
                (Server.playerMoved id px py pz bx by_ bz bw mx my mz mw) st)) =
        Some r' /\
        entity r' = entity r /\
        targetPos r' = mkVector3 px py pz /\
        targetMeshQuat r' = mkQuaternion mx my mz mw) /\
  (forall ins,
      forallb (fun i => negb (ends_death id i)) ins = true ->
      exists r',
        get id (remoteRats (Client.run slerp layDown st ins)) = Some r' /\
        dead (entity r') = true) /\
  (forall now imp px py pz newHp,
      id <> myId st ->
      exists r',
        get id
          (remoteRats
             (Client.receive layDown now imp
                (Server.playerRespawn id px py pz newHp) st)) = Some r' /\
        dead (entity r') = false /\
        rendered r' = (mkVector3 px py pz, identityQuat) /\
        targetPos r' = mkVector3 px py pz /\
        targetMeshQuat r' = identityQuat).
Proof.
  intros Hr Hd.
  split; [|split; [|split; [|split]]].
  - intros dt. rewrite get_updateRemoteRats, Hr. simpl.
    now rewrite updateRemoteRat_of_dead.
  - intros dt Hp. rewrite updateRemoteRat_of_dead by exact Hd.
    unfold rendered, set_entity. cbn [entity].
    destruct (update_done slerp dt (entity r) Hd Hp) as [-> ->]. reflexivity.
  - intros. simpl. rewrite get_alter_same, Hr. simpl.
    eexists. split; [reflexivity|]. simpl. auto.
  - intros ins Hins. now apply (run_keeps_dead slerp layDown ins st id r).
  - intros now imp px py pz newHp Hme. simpl.
    apply String.eqb_neq in Hme. rewrite Hme. simpl.
    rewrite get_alter_same, Hr. simpl.
    eexists. split; [reflexivity|]. simpl. auto.
Qed.

(** The amended C9 at B after her death, with stand-ins for the quaternion
    functions of three.js. *)
Lemma dead_avatar_is_not_interpolated_witness :
  forallb (fun i => negb (ends_death "B" i))
    [ Frame (1 # 20);
      Receive 1 (mkVector3 1 0 0) (Server.playerMoved "B" 5 2 5 0 0 0 1 0 0 0 1);
      Frame (1 # 20) ] = true /\
  exists r',
    get "B"
      (remoteRats
         (Client.run (fun a b t => b) (fun v => identityQuat)
            (fallen (fun v => identityQuat))
            [ Frame (1 # 20);
              Receive 1 (mkVector3 1 0 0)
                (Server.playerMoved "B" 5 2 5 0 0 0 1 0 0 0 1);
              Frame (1 # 20) ])) = Some r' /\
    dead (entity r') = true.
Proof.
  split; [reflexivity|].
  refine (proj1 (proj2 (proj2 (proj2
            (dead_avatar_is_not_interpolated (fun a b t => b)
               (fun v => identityQuat) (fallen (fun v => identityQuat)) "B"
               (mkRemoteRat
                  (mkRatEntity "B" (3 - 999) true (mkVector3 0 2 0) identityQuat
                     (mkVector3 0 2 0) identityQuat FLASH_DURATION 0 0
                     (Some identityQuat) false None false launch)
                  (mkVector3 0 2 0) identityQuat 0)
               _ _)))) _ _); vm_compute; reflexivity.
Defined.

End ClientSpec.

(** ** Further properties of the server *)

Module ServerExtra.

Import JSObject JSObjectFacts Server ServerSpec.

(** *** The broadcast scoreboard *)

Lemma resetPlayers_events random ps : forall n,
  Forall (fun e => is_scoreboardUpdate e = false /\ is_gameWon e = false)
    (snd (fst (resetPlayers random n ps))).
Proof.
  induction ps as [|[id p] ps IH]; intros n; simpl; [constructor|].
  specialize (IH (S (S n))).
  destruct (resetPlayers random (S (S n)) ps) as [[rest evs] n'].
  simpl in *. constructor; [split; reflexivity|exact IH].
Qed.

Lemma scoreboards_of_quiet ps out :
  Forall (fun e => is_scoreboardUpdate e = false) out -> scoreboards_of ps out.
Proof.
  unfold scoreboards_of. apply Forall_impl. intros [a m]. unfold is_scoreboardUpdate.
  simpl. destruct m; auto; discriminate.
Qed.

Ltac scoreboard_list :=
  unfold scoreboards_of; cbn [fst snd players set_players setTimeout set_timers
                               set_gameInProgress];
  repeat constructor; cbn [fst snd]; auto.

(** X1: whatever the input, every scoreboard the server broadcasts goes to
    all clients and is the scoreboard of the roster as the handler leaves
    it; no input makes the server broadcast two scoreboards. *)
Theorem broadcast_scoreboard_is_current random st i :
  scoreboards_of (players (fst (step random st i))) (snd (step random st i)) /\
  (List.length (filter is_scoreboardUpdate (snd (step random st i))) <= 1)%nat.
Proof.
  destruct i as [sid d|sid d|sid d|sid d|sid|n]; simpl step.
  - unfold join. split; [scoreboard_list|simpl; lia].
  - unfold updateMovement. destruct (get sid (players st));
      (split; [scoreboard_list|simpl; lia]).
  - unfold shoot. destruct (get sid (players st));
      (split; [scoreboard_list|simpl; lia]).
  - destruct (hit_cases st sid d) as [->|[->|(v & s & Hround & Hv & Hs & Halive)]].
    + split; [scoreboard_list|simpl; lia].
    + split; [scoreboard_list|simpl; lia].
    + rewrite (hit_live st sid d v s Hround Hv Hs Halive). cbv zeta.
      destruct (hp v - damage d <=? 0);
        [destruct (KILLS_TO_WIN <=? kills s + 1)|];
        (split; [scoreboard_list|simpl; lia]).
  - unfold disconnect. split; [scoreboard_list|simpl; lia].
  - unfold fire.
    destruct (nth_error (timers st) n) as [[delay [vId victim|]]|];
      [| |split; [scoreboard_list|simpl; lia]]; simpl run_callback.
    + unfold respawnCb. cbn [players set_timers].
      destruct (get vId (players st));
        (split; [scoreboard_list|simpl; lia]).
    + unfold resetGame, entries. cbn [players set_timers randomCalls].
      pose proof (resetPlayers_events random (players st) (randomCalls st)) as He.
      destruct (resetPlayers random (randomCalls st) (players st))
        as [[ps evs] n'].
      cbn [fst snd players] in *. split.
      * unfold scoreboards_of. apply Forall_app. split.
        -- apply scoreboards_of_quiet. eapply Forall_impl; [|exact He].
           now intros e [H _].
        -- scoreboard_list.
      * rewrite filter_app, length_app.
        replace (filter is_scoreboardUpdate evs) with (@nil emit); [simpl; lia|].
        symmetry. induction He as [|e evs [He _] _ IH]; [reflexivity|].
        simpl. now rewrite He.
Qed.

(** *** Who is in the roster *)

(** X2: only [join] and [disconnect] change who is in the roster and in
    which order: a [join] from a new connection id appends it, a [join] from
    an id already present keeps the roster's ids as they are, a [disconnect]
    removes the id, and every other input (movement, shot, hit, a respawn or
    the round reset firing) leaves the ids and their order untouched. *)
Theorem roster_changes_by_join_and_disconnect random st i :
  keys (players (fst (step random st i))) =
  match i with
  | Join sid _ =>
      match session st sid with
      | Some _ => keys (players st)
      | None => keys (players st) ++ [sid]
      end
  | Disconnect sid =>
      filter (fun k => negb (String.eqb sid k)) (keys (players st))
  | _ => keys (players st)
  end.
Proof.
  destruct i as [sid d|sid d|sid d|sid d|sid|n]; simpl step.
  - unfold join, session. cbn [fst players].
    destruct (get sid (players st)) as [p|] eqn:E.
    + now apply keys_set_present with p.
    + now apply keys_set_absent.
  - unfold updateMovement. destruct (get sid (players st)); [|reflexivity].
    cbn [fst players set_players]. apply keys_alter.
  - unfold shoot. now destruct (get sid (players st)).
  - destruct (hit_cases st sid d) as [->|[->|(v & s & Hround & Hv & Hs & Halive)]];
      [reflexivity|reflexivity|].
    rewrite (hit_live st sid d v s Hround Hv Hs Halive). cbv zeta.
    destruct (hp v - damage d <=? 0);
      [destruct (KILLS_TO_WIN <=? kills s + 1)|];
      cbn [fst players set_players setTimeout set_timers set_gameInProgress];
      apply hit_roster_keys.
  - unfold disconnect. cbn [fst players set_players]. apply keys_delete.
  - unfold fire.
    destruct (nth_error (timers st) n) as [[delay [vId victim|]]|];
      [| |reflexivity]; simpl run_callback.
    + unfold respawnCb. cbn [players set_timers].
      destruct (get vId (players st)) as [current|]; [|reflexivity].
      cbn [fst players].
      destruct (Nat.eqb (oid current) victim); [apply keys_alter|reflexivity].
    + unfold resetGame, entries. cbn [players set_timers randomCalls].
      destruct (resetPlayers_roster random (players st) (randomCalls st))
        as [Hk _].
      destruct (resetPlayers random (randomCalls st) (players st))
        as [[ps evs] n'].
      exact Hk.
Qed.

(** *** Leaving *)

Lemma scoreboard_ids ps : Permutation (map e_id (buildScoreboard ps)) (keys ps).
Proof.
  unfold buildScoreboard, entries, keys.
  rewrite (Permutation_map e_id (sort_perm (map to_entry ps))).
  rewrite map_map. reflexivity.
Qed.

(** X3: a [disconnect] removes the session of the sender and nothing else:
    every other session, the round flag and the pending timers (a respawn
    armed for the leaver included) stay as they are; it tells the other
    clients [playerLeft] and sends everyone the scoreboard of the remaining
    roster, in which the leaver does not appear; and a second [disconnect]
    from the same id changes nothing more. *)
Theorem disconnect_removes_only_the_sender st sid :
  session (fst (disconnect st sid)) sid = None /\
  (forall id, id <> sid ->
      session (fst (disconnect st sid)) id = session st id) /\
  gameInProgress (fst (disconnect st sid)) = gameInProgress st /\
  timers (fst (disconnect st sid)) = timers st /\
  snd (disconnect st sid) =
  [ (ToOthers sid, playerLeft sid);
    (ToAll, scoreboardUpdate (buildScoreboard (players (fst (disconnect st sid))))) ] /\
  ~ In sid (map e_id (buildScoreboard (players (fst (disconnect st sid))))) /\
  fst (disconnect (fst (disconnect st sid)) sid) = fst (disconnect st sid).
Proof.
  unfold disconnect, session. cbn [fst snd players set_players gameInProgress timers].
  assert (Hgone : get sid (delete sid (players st)) = None)
    by now rewrite get_delete, String.eqb_refl.
  repeat split; auto.
  - intros id Hne. rewrite get_delete.
    apply String.eqb_neq in Hne. now rewrite Hne.
  - intros Hin.
    apply (Permutation_in _ (scoreboard_ids _)) in Hin.
    now apply (get_None_keys sid (delete sid (players st))).
  - unfold set_players. cbn [players gameInProgress timers nextOid randomCalls].
    now rewrite (delete_absent sid _ Hgone).
Qed.

(** *** Joining again *)

(** X4: a [join] touches no session but the sender's, and neither the round
    flag nor the timers, so a player can join during the victory screen; it
    answers the sender with the roster that already contains the new
    session, announces that session to the others and sends everyone the new
    scoreboard; and a [join] from an id that already has a session replaces
    it in place by a fresh one, so that its kills and deaths start again
    from 0. *)
Theorem join_replaces_only_the_sender random st sid data :
  (forall id, id <> sid ->
      session (fst (join random st sid data)) id = session st id) /\
  gameInProgress (fst (join random st sid data)) = gameInProgress st /\
  timers (fst (join random st sid data)) = timers st /\
  (exists p,
      session (fst (join random st sid data)) sid = Some p /\
      kills p = 0 /\ deaths p = 0 /\ hp p = MAX_HP /\
      snd (join random st sid data) =
      [ (ToSender sid, currentPlayers (players (fst (join random st sid data))));
        (ToOthers sid, playerJoined sid p);
        (ToAll,
         scoreboardUpdate
           (buildScoreboard (players (fst (join random st sid data))))) ]).
Proof.
  unfold join, session. cbn [fst snd players gameInProgress timers].
  split; [|split; [reflexivity|split; [reflexivity|]]].
  - intros id Hne. rewrite get_set.
    apply String.eqb_neq in Hne. now rewrite Hne.
  - rewrite get_set, String.eqb_refl. eexists. split; [reflexivity|].
    simpl. auto.
Qed.

(** *** Kills and deaths go together *)

Lemma total_alter f g k ps :
  total f (alter g k ps) =
  total f ps + match get k ps with
               | Some p => f (g p) - f p
               | None => 0
               end.
Proof.
  unfold total. induction ps as [|[k0 p0] ps IH]; simpl; [reflexivity|].
  destruct (String.eqb k k0); simpl; [lia|]. rewrite IH. lia.
Qed.

Lemma total_alter_same f g k ps :
  (forall p, f (g p) = f p) -> total f (alter g k ps) = total f ps.
Proof.
  intros H. rewrite total_alter. destruct (get k ps); [rewrite H|]; lia.
Qed.

(** The totals after a hit that is processed. *)
Lemma hit_roster_totals st sid data v s :
  session st (victimId data) = Some v ->
  session st sid = Some s ->
  total kills (hit_roster sid data (players st)) =
  total kills (players st) + (if hp v - damage data <=? 0 then 1 else 0) /\
  total deaths (hit_roster sid data (players st)) =
  total deaths (players st) + (if hp v - damage data <=? 0 then 1 else 0).
Proof.
  intros Hv Hs. unfold session in *. unfold hit_roster.
  assert (Hhp : field hp 0 (victimId data)
                  (alter (fun p => set_hp (hp p - damage data) p)
                     (victimId data) (players st)) = hp v - damage data).
  { unfold field. now rewrite get_alter_same, Hv. }
  rewrite Hhp. destruct (hp v - damage data <=? 0).
  - split.
    + rewrite total_alter_same by reflexivity.
      rewrite total_alter, get_alter.
      rewrite total_alter_same by reflexivity.
      destruct (String.eqb sid (victimId data)); rewrite Hs; simpl; lia.
    + rewrite total_alter, get_alter, get_alter, String.eqb_refl, Hv.
      rewrite total_alter_same by reflexivity.
      rewrite total_alter_same by reflexivity.
      destruct (String.eqb (victimId data) sid); simpl; lia.
  - split; rewrite total_alter_same by reflexivity; lia.
Qed.

Lemma resetless_fire_totals random n st :
  fires_reset st (Fire n) = false ->
  total kills (players (fst (fire random n st))) = total kills (players st) /\
  total deaths (players (fst (fire random n st))) = total deaths (players st).
Proof.
  simpl. unfold fire.
  destruct (nth_error (timers st) n) as [[delay [vId victim|]]|];
    [|discriminate|auto]. intros _. simpl run_callback.
  unfold respawnCb. cbn [players set_timers].
  destruct (get vId (players st)) as [current|]; [|auto].
  cbn [fst players]. destruct (Nat.eqb (oid current) victim); [|auto].
  split; apply total_alter_same; reflexivity.
Qed.

(** One input that keeps the roster and is not the reset. *)
Lemma step_totals random st i :
  keeps_roster i = true -> fires_reset st i = false ->
  exists k,
    (k = 0 \/ k = 1) /\
    total kills (players (fst (step random st i))) =
    total kills (players st) + k /\
    total deaths (players (fst (step random st i))) =
    total deaths (players st) + k.
Proof.
  intros Hk Hr.
  destruct i as [sid d|sid d|sid d|sid d|sid|n]; try discriminate Hk;
    simpl step.
  - exists 0. split; [auto|].
    unfold updateMovement. destruct (get sid (players st));
      [|split; simpl; lia].
    cbn [fst players set_players].
    split; rewrite total_alter_same by reflexivity; lia.
  - exists 0. split; [auto|].
    unfold shoot. destruct (get sid (players st)); split; simpl; lia.
  - destruct (hit_cases st sid d) as [->|[->|(v & s & Hround & Hv & Hs & Halive)]].
    + exists 0. simpl. split; [auto|split; lia].
    + exists 0. simpl. split; [auto|split; lia].
    + destruct (hit_roster_totals st sid d v s Hv Hs) as [Hkl Hdt].
      exists (if hp v - damage d <=? 0 then 1 else 0).
      split; [destruct (hp v - damage d <=? 0); auto|].
      rewrite (hit_live st sid d v s Hround Hv Hs Halive). cbv zeta.
      destruct (hp v - damage d <=? 0);
        [destruct (KILLS_TO_WIN <=? kills s + 1)|];
        cbn [fst players set_players setTimeout set_timers set_gameInProgress];
        auto.
  - exists 0. split; [auto|].
    destruct (resetless_fire_totals random n st Hr) as [-> ->]. split; lia.
Qed.

(** X5: every kill is somebody's death. An input other than a [join], a
    [disconnect] or the round reset adds the same amount, 0 or 1, to the
    total of the kill counts and to the total of the death counts of the
    roster; so over any trace of such inputs the difference of the two
    totals stays what it was. *)
Theorem kills_and_deaths_grow_together random ins : forall st,
  forallb keeps_roster ins = true ->
  within_round random st ins = true ->
  total kills (players (fst (run random st ins))) -
  total deaths (players (fst (run random st ins))) =
  total kills (players st) - total deaths (players st) /\
  total kills (players st) <= total kills (players (fst (run random st ins))).
Proof.
  induction ins as [|i ins IH]; intros st Hk Hr; [simpl; lia|].
  simpl in Hk, Hr. apply andb_true_iff in Hk, Hr.
  destruct Hk as [Hki Hk], Hr as [Hri Hr]. apply negb_true_iff in Hri.
  destruct (step_totals random st i Hki Hri) as (k & Hk01 & Hkl & Hdt).
  destruct (IH _ Hk Hr) as [IHd IHm].
  rewrite run_cons. simpl fst. lia.
Qed.

(** X5 on the duel: A kills B, B respawns, B hits A back and kills
    herself. *)
Lemma kills_and_deaths_grow_together_witness :
  total kills
    (players
       (fst (run half duel
               [Hit "A" (mkHit "B" 3); Fire 0; Hit "B" (mkHit "A" 1);
                Hit "B" (mkHit "B" 3)]))) -
  total deaths
    (players
       (fst (run half duel
               [Hit "A" (mkHit "B" 3); Fire 0; Hit "B" (mkHit "A" 1);
                Hit "B" (mkHit "B" 3)]))) =
  total kills (players duel) - total deaths (players duel) /\
  total kills (players duel) <=
  total kills
    (players
       (fst (run half duel
               [Hit "A" (mkHit "B" 3); Fire 0; Hit "B" (mkHit "A" 1);
                Hit "B" (mkHit "B" 3)]))).
Proof.
  apply (kills_and_deaths_grow_together half
           [Hit "A" (mkHit "B" 3); Fire 0; Hit "B" (mkHit "A" 1);
            Hit "B" (mkHit "B" 3)] duel); vm_compute; reflexivity.
Defined.

(** *** Entries of the roster after a write *)

(** Where an entry of the roster after a processed hit comes from: an entry
    before the hit, with its hit points lowered when it is the victim's, its
    kills raised when the hit is lethal and it is the shooter's, and its
    deaths raised when the hit is lethal and it is the victim's. *)
Lemma hit_roster_entry sid data ps id p' :
  In (id, p') (hit_roster sid data ps) ->
  exists p,
    In (id, p) ps /\ oid p' = oid p /\ name p' = name p /\
    (hp p' = hp p \/
     (id = victimId data /\ get id ps = Some p /\
      hp p' = hp p - damage data)) /\
    (kills p' = kills p \/
     (id = sid /\ get id ps = Some p /\ kills p' = kills p + 1 /\
      (field hp 0 (victimId data)
         (alter (fun q => set_hp (hp q - damage data) q) (victimId data) ps)
       <=? 0) = true)) /\
    (deaths p' = deaths p \/
     (id = victimId data /\ get id ps = Some p /\
      deaths p' = deaths p + 1 /\
      (field hp 0 (victimId data)
         (alter (fun q => set_hp (hp q - damage data) q) (victimId data) ps)
       <=? 0) = true)).
Proof.
  unfold hit_roster.
  destruct (field hp 0 _ _ <=? 0) eqn:Elethal; intros Hin.
  - apply In_alter in Hin. destruct Hin as [Hin|(v3 & Hg3 & [= -> ->])].
    + apply In_alter in Hin. destruct Hin as [Hin|(v2 & Hg2 & [= -> ->])].
      * apply In_alter in Hin. destruct Hin as [Hin|(v1 & Hg1 & [= -> ->])].
        -- exists p'. repeat split; auto.
        -- exists v1. apply get_Some_In in Hg1 as Hin1.
           repeat split; simpl; auto.
      * rewrite get_alter in Hg2.
        destruct (String.eqb sid (victimId data)) eqn:E.
        -- apply String.eqb_eq in E. subst sid.
           destruct (get (victimId data) ps) as [v1|] eqn:Hg1; [|discriminate].
           injection Hg2 as <-. exists v1. apply get_Some_In in Hg1 as Hin1.
           repeat split; simpl; auto.
        -- exists v2. apply get_Some_In in Hg2 as Hin2.
           repeat split; simpl; auto.
    + rewrite !get_alter, String.eqb_refl in Hg3.
      destruct (get (victimId data) ps) as [v1|] eqn:Hg1;
        [|destruct (String.eqb (victimId data) sid); discriminate].
      apply get_Some_In in Hg1 as Hin1. exists v1.
      destruct (String.eqb (victimId data) sid) eqn:E;
        [apply String.eqb_eq in E|]; injection Hg3 as <-;
        repeat split; simpl; auto.
  - apply In_alter in Hin. destruct Hin as [Hin|(v1 & Hg1 & [= -> ->])].
    + exists p'. repeat split; auto.
    + exists v1. apply get_Some_In in Hg1 as Hin1.
      repeat split; simpl; auto.
Qed.

Lemma Forall_alter (P : string * player -> Prop) f k ps :
  Forall P ps ->
  (forall p, get k ps = Some p -> P (k, p) -> P (k, f p)) ->
  Forall P (alter f k ps).
Proof.
  intros HP Hf. rewrite Forall_forall in *. intros kv Hin.
  destruct (In_alter _ _ _ _ Hin) as [Hold|(v & Hg & ->)]; [auto|].
  apply Hf; [exact Hg|]. apply HP. now apply get_Some_In.
Qed.

Lemma Forall_set (P : string * player -> Prop) k p ps :
  Forall P ps -> P (k, p) -> Forall P (set k p ps).
Proof.
  intros HP Hp. rewrite Forall_forall in *. intros kv Hin.
  destruct (In_set _ _ _ _ Hin) as [->|Hold]; auto.
Qed.

Lemma Forall_delete (P : string * player -> Prop) k ps :
  Forall P ps -> Forall P (delete k ps).
Proof.
  intros HP. rewrite Forall_forall in *. intros kv Hin.
  apply HP. now apply In_delete in Hin.
Qed.

(** The entries after the loop of [resetGame]. *)
Lemma resetPlayers_fields random ps : forall n,
  Forall
    (fun kv =>
       kills (snd kv) = 0 /\ deaths (snd kv) = 0 /\ hp (snd kv) = MAX_HP)
    (fst (fst (resetPlayers random n ps))).
Proof.
  induction ps as [|[id p] ps IH]; intros n; simpl; [constructor|].
  specialize (IH (S (S n))).
  destruct (resetPlayers random (S (S n)) ps) as [[rest evs] n'].
  simpl in *. constructor; [simpl; auto|exact IH].
Qed.

(** *** The round flag and the reset timer *)

Lemma resets_app ts t :
  resets (ts ++ [t]) = (resets ts + (if is_reset t then 1 else 0))%nat.
Proof.
  unfold resets. rewrite filter_app, length_app. simpl.
  now destruct (is_reset t).
Qed.

Lemma resets_remove_nth ts : forall n t,
  nth_error ts n = Some t ->
  resets ts = (resets (remove_nth n ts) + (if is_reset t then 1 else 0))%nat.
Proof.
  unfold resets.
  induction ts as [|t0 ts IH]; intros [|n] t; simpl; try discriminate.
  - intros [= ->]. destruct (is_reset t); simpl; lia.
  - intros H. specialize (IH n t H). destruct (is_reset t0); simpl; lia.
Qed.

Lemma step_round_consistent random st i :
  round_consistent st -> round_consistent (fst (step random st i)).
Proof.
  unfold round_consistent. intros Hinv.
  destruct i as [sid d|sid d|sid d|sid d|sid|n]; simpl step.
  - unfold join. cbn [fst gameInProgress timers players].
    destruct (gameInProgress st); [|exact Hinv].
    destruct Hinv as [Hr Hk]. split; [exact Hr|].
    apply Forall_set; [exact Hk|]. simpl. reflexivity.
  - unfold updateMovement. destruct (get sid (players st)); [|exact Hinv].
    cbn [fst gameInProgress timers players set_players].
    destruct (gameInProgress st); [|exact Hinv].
    destruct Hinv as [Hr Hk]. split; [exact Hr|].
    apply Forall_alter; [exact Hk|]. intros q _ Hq. exact Hq.
  - unfold shoot. now destruct (get sid (players st)).
  - destruct (hit_cases st sid d) as [->|[->|(v & s & Hround & Hv & Hs & Halive)]];
      [exact Hinv|exact Hinv|].
    rewrite (hit_live st sid d v s Hround Hv Hs Halive). cbv zeta.
    rewrite Hround in Hinv. destruct Hinv as [Hr Hk].
    assert (Hfield : field hp 0 (victimId d)
                       (alter (fun q => set_hp (hp q - damage d) q)
                          (victimId d) (players st)) = hp v - damage d).
    { unfold field. unfold session in Hv. now rewrite get_alter_same, Hv. }
    assert (Hkills : (KILLS_TO_WIN <=? kills s + 1) = false \/
                     (hp v - damage d <=? 0) = false ->
                     Forall (fun kv => kills (snd kv) < KILLS_TO_WIN)
                       (hit_roster sid d (players st))).
    { intros Hcase. rewrite Forall_forall in *. intros [id p'] Hin.
      destruct (hit_roster_entry _ _ _ _ _ Hin)
        as (p & Hp & _ & _ & _ & Hkp & _).
      specialize (Hk _ Hp). simpl in *.
      destruct Hkp as [->|(-> & Hg & -> & Hl)]; [exact Hk|].
      rewrite Hfield in Hl. unfold session in Hs.
      assert (p = s) by congruence. subst p.
      destruct Hcase as [Hc|Hc]; [apply Z.leb_gt in Hc; lia|congruence]. }
    destruct (hp v - damage d <=? 0) eqn:El;
      [destruct (KILLS_TO_WIN <=? kills s + 1) eqn:Ew|];
      cbn [fst gameInProgress timers players set_players setTimeout
             set_timers set_gameInProgress].
    + rewrite resets_app, Hr. reflexivity.
    + rewrite Hround, resets_app, Hr. split; [reflexivity|]. auto.
    + rewrite Hround. split; [exact Hr|]. auto.
  - unfold disconnect. cbn [fst gameInProgress timers players set_players].
    destruct (gameInProgress st); [|exact Hinv].
    destruct Hinv as [Hr Hk]. split; [exact Hr|]. now apply Forall_delete.
  - unfold fire.
    destruct (nth_error (timers st) n) as [[delay cb]|] eqn:En; [|exact Hinv].
    pose proof (resets_remove_nth _ _ _ En) as Hrem.
    destruct cb as [vId victim|]; simpl in Hrem; simpl run_callback.
    + rewrite Nat.add_0_r in Hrem. rewrite Hrem in Hinv.
      unfold respawnCb. cbn [players set_timers].
      destruct (get vId (players st)) as [current|];
        cbn [fst gameInProgress timers players set_timers];
        destruct (gameInProgress st); try exact Hinv.
      destruct Hinv as [Hr Hk]. split; [exact Hr|].
      destruct (Nat.eqb (oid current) victim); [|exact Hk].
      apply Forall_alter; [exact Hk|]. intros q _ Hq. exact Hq.
    + unfold resetGame, entries. cbn [players set_timers randomCalls timers].
      pose proof (resetPlayers_fields random (players st) (randomCalls st))
        as Hf.
      destruct (resetPlayers random (randomCalls st) (players st))
        as [[ps evs] n'].
      cbn [fst gameInProgress timers players] in *.
      destruct (gameInProgress st).
      * destruct Hinv as [Hr _]. lia.
      * split; [lia|]. eapply Forall_impl; [|exact Hf].
        intros kv (Hk & _). rewrite Hk. reflexivity.
Qed.

Lemma reachable_round_consistent random ins :
  round_consistent (fst (run random initial ins)).
Proof.
  assert (H : forall st,
             round_consistent st -> round_consistent (fst (run random st ins))).
  { induction ins as [|i ins IH]; intros st Hst; [exact Hst|].
    rewrite run_cons. simpl fst. apply IH. now apply step_round_consistent. }
  apply H. split; [reflexivity|constructor].
Qed.

(** X6: in every state the server reaches from its start, the round is
    inactive exactly when one round reset is pending, never two, so that the
    victory screen always ends; and while the round is active no reset is
    pending and every session has fewer than 20 kills. *)
Theorem round_flag_matches_reset_timer random ins :
  (gameInProgress (fst (run random initial ins)) = false ->
   resets (timers (fst (run random initial ins))) = 1%nat) /\
  (gameInProgress (fst (run random initial ins)) = true ->
   resets (timers (fst (run random initial ins))) = 0%nat /\
   forall id p,
     session (fst (run random initial ins)) id = Some p ->
     kills p < KILLS_TO_WIN) /\
  KILLS_TO_WIN = 20.
Proof.
  pose proof (reachable_round_consistent random ins) as H.
  unfold round_consistent in H.
  destruct (gameInProgress (fst (run random initial ins))).
  - destruct H as [Hr Hk]. split; [discriminate|]. split; [|reflexivity].
    intros _. split; [exact Hr|]. intros id p Hp.
    rewrite Forall_forall in Hk. apply (Hk (id, p)).
    now apply get_Some_In.
  - split; [auto|]. split; [discriminate|reflexivity].
Qed.

(** X6 after the twentieth kill of the duel: the round is inactive and one
    reset is pending. *)
Lemma round_flag_matches_reset_timer_witness :
  resets
    (timers
       (fst (run half initial
               ([Join "A" anonymous; Join "B" anonymous] ++
                flat_map (fun _ => [Hit "A" (mkHit "B" 3); Fire 0]) (seq 0 19) ++
                [Hit "A" (mkHit "B" 3)])))) = 1%nat.
Proof.
  apply (proj1 (round_flag_matches_reset_timer half
                  ([Join "A" anonymous; Join "B" anonymous] ++
                   flat_map (fun _ => [Hit "A" (mkHit "B" 3); Fire 0])
                     (seq 0 19) ++
                   [Hit "A" (mkHit "B" 3)]))).
  vm_compute. reflexivity.
Defined.

(** *** Nobody stays down *)

Lemma In_remove_nth {A : Type} (ts : list A) : forall n t t0,
  nth_error ts n = Some t0 -> In t ts -> t <> t0 -> In t (remove_nth n ts).
Proof.
  induction ts as [|a ts IH]; intros [|n] t t0; simpl; try discriminate.
  - intros [= ->] [->|Hin] Hne; [contradiction|exact Hin].
  - intros Hn [->|Hin] Hne; [now left|right; eauto].
Qed.

(** A session other than the one a fired respawn was armed for is still
    waited for when that timer has left the pending list. *)
Lemma awaited_after_fire st n delay vId victim id p :
  nth_error (timers st) n = Some (delay, RespawnCb vId victim) ->
  awaited (gameInProgress st) (timers st) (id, p) ->
  (hp p <= 0 -> ~ (id = vId /\ oid p = victim)) ->
  awaited (gameInProgress st) (remove_nth n (timers st)) (id, p).
Proof.
  intros En Hold Hother Hdown.
  destruct (Hold Hdown) as [Hover|Hin]; [now left|right].
  simpl in *. apply (In_remove_nth _ _ _ _ En Hin).
  intros [= _ -> Ho]. now apply (Hother Hdown).
Qed.

Lemma step_awaited random st i :
  wf st ->
  Forall (awaited (gameInProgress st) (timers st)) (players st) ->
  Forall (awaited (gameInProgress (fst (step random st i)))
            (timers (fst (step random st i))))
    (players (fst (step random st i))).
Proof.
  intros Hwf Hinv.
  destruct i as [sid d|sid d|sid d|sid d|sid|n]; simpl step.
  - unfold join. cbn [fst gameInProgress timers players].
    apply Forall_set; [exact Hinv|]. intros Hdown. simpl in Hdown.
    unfold MAX_HP in Hdown. lia.
  - unfold updateMovement. destruct (get sid (players st)); [|exact Hinv].
    cbn [fst gameInProgress timers players set_players].
    apply Forall_alter; [exact Hinv|]. intros q _ Hq. exact Hq.
  - unfold shoot. now destruct (get sid (players st)).
  - destruct (hit_cases st sid d) as [->|[->|(v & s & Hround & Hv & Hs & Halive)]];
      [exact Hinv|exact Hinv|].
    rewrite (hit_live st sid d v s Hround Hv Hs Halive). cbv zeta.
    assert (Hentry : forall id p',
               In (id, p') (hit_roster sid d (players st)) -> hp p' <= 0 ->
               In (RESPAWN_DELAY_MS, RespawnCb id (oid p')) (timers st) \/
               (id = victimId d /\ oid p' = oid v /\ hp v - damage d <= 0)).
    { intros id p' Hin Hdown.
      destruct (hit_roster_entry _ _ _ _ _ Hin)
        as (p & Hp & Ho & _ & Hhp & _).
      rewrite Forall_forall in Hinv. specialize (Hinv _ Hp).
      unfold awaited in Hinv. simpl in Hinv. rewrite Ho.
      destruct Hhp as [Hsame|(-> & Hg & Hless)].
      - destruct Hinv as [Hover|Hin']; [lia|congruence|now left].
      - unfold session in Hv. assert (p = v) by congruence. subst p.
        right. repeat split; lia. }
    destruct (hp v - damage d <=? 0) eqn:El;
      [destruct (KILLS_TO_WIN <=? kills s + 1) eqn:Ew|];
      cbn [fst gameInProgress timers players set_players setTimeout
             set_timers set_gameInProgress];
      rewrite Forall_forall; intros [id p'] Hin Hdown; simpl in Hdown |- *.
    + now left.
    + right. apply in_or_app.
      destruct (Hentry _ _ Hin Hdown) as [Hold|(-> & -> & _)];
        [now left|right; now left].
    + right. destruct (Hentry _ _ Hin Hdown) as [Hold|(_ & _ & Hl)];
        [exact Hold|]. apply Z.leb_gt in El. lia.
  - unfold disconnect. cbn [fst gameInProgress timers players set_players].
    now apply Forall_delete.
  - unfold fire.
    destruct (nth_error (timers st) n) as [[delay cb]|] eqn:En; [|exact Hinv].
    destruct Hwf as (Hkeys & _).
    rewrite Forall_forall in Hinv.
    destruct cb as [vId victim|]; simpl run_callback.
    + unfold respawnCb. cbn [players set_timers].
      destruct (get vId (players st)) as [current|] eqn:Ecur;
        cbn [fst gameInProgress timers players set_timers];
        [destruct (Nat.eqb (oid current) victim) eqn:Eo|];
        rewrite Forall_forall; intros [id p] Hin.
      * destruct (In_alter _ _ _ _ Hin) as [Hold|(v & Hg & [= -> ->])].
        -- apply (awaited_after_fire st n delay vId victim); auto.
           intros Hdown [-> Ho].
           pose proof (In_get_unique _ _ _ Hkeys Hold) as Hp.
           assert (p = current) by congruence. subst p.
           assert (Hnd : NoDup (keys (alter
                            (fun q => set_position
                               (spawnCoord (random (randomCalls st))) 2
                               (spawnCoord (random (S (randomCalls st))))
                               (set_hp MAX_HP q)) vId (players st))))
             by now rewrite keys_alter.
           pose proof (In_get_unique _ _ _ Hnd Hin) as Hget.
           rewrite get_alter_same, Ecur in Hget. simpl in Hget.
           injection Hget as Hfix.
           assert (Hhp : hp current = MAX_HP) by now rewrite <- Hfix.
           rewrite Hhp in Hdown. unfold MAX_HP in Hdown. lia.
        -- intros Hdown. simpl in Hdown. unfold MAX_HP in Hdown. lia.
      * apply (awaited_after_fire st n delay vId victim); auto.
        intros _ [-> Ho].
        pose proof (In_get_unique _ _ _ Hkeys Hin) as Hp.
        apply Nat.eqb_neq in Eo. congruence.
      * apply (awaited_after_fire st n delay vId victim); auto.
        intros _ [-> _].
        apply (get_None_keys _ _ Ecur).
        change vId with (fst (vId, p)). now apply in_map.
    + unfold resetGame, entries. cbn [players set_timers randomCalls timers].
      pose proof (resetPlayers_fields random (players st) (randomCalls st))
        as Hf.
      destruct (resetPlayers random (randomCalls st) (players st))
        as [[ps evs] n'].
      cbn [fst gameInProgress timers players] in *.
      eapply Forall_impl; [|exact Hf].
      intros kv (_ & _ & Hhp) Hdown. rewrite Hhp in Hdown.
      unfold MAX_HP in Hdown. lia.
Qed.

Lemma reachable_awaited random ins :
  wf (fst (run random initial ins)) /\
  Forall (awaited (gameInProgress (fst (run random initial ins)))
            (timers (fst (run random initial ins))))
    (players (fst (run random initial ins))).
Proof.
  assert (H : forall st,
             wf st /\
             Forall (awaited (gameInProgress st) (timers st)) (players st) ->
             wf (fst (run random st ins)) /\
             Forall (awaited (gameInProgress (fst (run random st ins)))
                       (timers (fst (run random st ins))))
               (players (fst (run random st ins)))).
  { induction ins as [|i ins IH]; intros st Hst; [exact Hst|].
    rewrite run_cons. simpl fst. apply IH. destruct Hst as [Hwf Ha].
    split; [now apply step_wf|now apply step_awaited]. }
  apply H. split; [|constructor].
  unfold wf, initial, keys, oids. simpl. repeat split; constructor.
Qed.

(** X7: nobody stays down. In every state the server reaches from its
    start, a session whose hit points are 0 or less has its respawn pending,
    with the delay of 5000 ms and armed for this very session, or else the
    round is over and the round reset, which restores every session, is
    pending. *)
Theorem down_session_awaits_respawn random ins id p :
  session (fst (run random initial ins)) id = Some p ->
  hp p <= 0 ->
  In (5000, RespawnCb id (oid p)) (timers (fst (run random initial ins))) \/
  (gameInProgress (fst (run random initial ins)) = false /\
   resets (timers (fst (run random initial ins))) = 1%nat).
Proof.
  intros Hp Hdown.
  destruct (reachable_awaited random ins) as [_ Ha].
  pose proof (reachable_round_consistent random ins) as Hr.
  unfold round_consistent in Hr.
  rewrite Forall_forall in Ha. unfold session in Hp.
  destruct (Ha _ (get_Some_In _ _ _ Hp) Hdown) as [Hover|Hin].
  - right. rewrite Hover in Hr. auto.
  - now left.
Qed.

(** X7 on the duel after A has killed B. *)
Lemma down_session_awaits_respawn_witness :
  In (5000, RespawnCb "B" 1)
     (timers
        (fst (run half initial
                [Join "A" anonymous; Join "B" anonymous;
                 Hit "A" (mkHit "B" 3)]))) \/
  (gameInProgress
     (fst (run half initial
             [Join "A" anonymous; Join "B" anonymous;
              Hit "A" (mkHit "B" 3)])) = false /\
   resets
     (timers
        (fst (run half initial
                [Join "A" anonymous; Join "B" anonymous;
                 Hit "A" (mkHit "B" 3)]))) = 1%nat).
Proof.
  apply (down_session_awaits_respawn half
           [Join "A" anonymous; Join "B" anonymous; Hit "A" (mkHit "B" 3)]
           "B"
           (mkPlayer 1 (spawnCoord (1 # 2)) 2 (spawnCoord (1 # 2)) 0 0 0 1
              "Anonymous Rat" 0 0 1 "fedora" 0xDC4A3C 0xE8B84D 0xBE4545));
    vm_compute; solve [reflexivity | discriminate].
Defined.

(** *** Counters in range *)

Lemma step_counts_in_range random st i :
  round_consistent st ->
  Forall counts_in_range (players st) ->
  Forall counts_in_range (players (fst (step random st i))).
Proof.
  intros Hround Hinv.
  destruct i as [sid d|sid d|sid d|sid d|sid|n]; simpl step.
  - unfold join. cbn [fst players].
    apply Forall_set; [exact Hinv|]. unfold counts_in_range, KILLS_TO_WIN.
    simpl. lia.
  - unfold updateMovement. destruct (get sid (players st)); [|exact Hinv].
    cbn [fst players set_players].
    apply Forall_alter; [exact Hinv|]. intros q _ Hq. exact Hq.
  - unfold shoot. now destruct (get sid (players st)).
  - destruct (hit_cases st sid d) as [->|[->|(v & s & Hr & Hv & Hs & Halive)]];
      [exact Hinv|exact Hinv|].
    unfold round_consistent in Hround. rewrite Hr in Hround.
    destruct Hround as [_ Hless].
    assert (Hall : Forall counts_in_range (hit_roster sid d (players st))).
    { rewrite Forall_forall in *. intros [id p'] Hin.
      destruct (hit_roster_entry _ _ _ _ _ Hin)
        as (p & Hp & _ & _ & _ & Hk & Hd).
      specialize (Hinv _ Hp). specialize (Hless _ Hp).
      unfold counts_in_range in *. simpl in *.
      destruct Hk as [->|(_ & _ & -> & _)];
        destruct Hd as [->|(_ & _ & -> & _)]; lia. }
    rewrite (hit_live st sid d v s Hr Hv Hs Halive). cbv zeta.
    destruct (hp v - damage d <=? 0);
      [destruct (KILLS_TO_WIN <=? kills s + 1)|];
      cbn [fst players set_players setTimeout set_timers set_gameInProgress];
      exact Hall.
  - unfold disconnect. cbn [fst players set_players].
    now apply Forall_delete.
  - unfold fire.
    destruct (nth_error (timers st) n) as [[delay [vId victim|]]|];
      [| |exact Hinv]; simpl run_callback.
    + unfold respawnCb. cbn [players set_timers].
      destruct (get vId (players st)) as [current|]; [|exact Hinv].
      cbn [fst players]. destruct (Nat.eqb (oid current) victim); [|exact Hinv].
      apply Forall_alter; [exact Hinv|]. intros q _ Hq. exact Hq.
    + unfold resetGame, entries. cbn [players set_timers randomCalls].
      pose proof (resetPlayers_fields random (players st) (randomCalls st))
        as Hf.
      destruct (resetPlayers random (randomCalls st) (players st))
        as [[ps evs] n'].
      cbn [fst players] in *. eapply Forall_impl; [|exact Hf].
      intros kv (Hk & Hd & _). unfold counts_in_range, KILLS_TO_WIN.
      rewrite Hk, Hd. lia.
Qed.

Lemma step_hp_in_range random st i :
  damage_nonneg i = true ->
  Forall hp_in_range (players st) ->
  Forall hp_in_range (players (fst (step random st i))).
Proof.
  intros Hdmg Hinv.
  destruct i as [sid d|sid d|sid d|sid d|sid|n]; simpl step.
  - unfold join. cbn [fst players].
    apply Forall_set; [exact Hinv|]. unfold hp_in_range. simpl. lia.
  - unfold updateMovement. destruct (get sid (players st)); [|exact Hinv].
    cbn [fst players set_players].
    apply Forall_alter; [exact Hinv|]. intros q _ Hq. exact Hq.
  - unfold shoot. now destruct (get sid (players st)).
  - destruct (hit_cases st sid d) as [->|[->|(v & s & Hr & Hv & Hs & Halive)]];
      [exact Hinv|exact Hinv|].
    simpl in Hdmg. apply Z.leb_le in Hdmg.
    assert (Hall : Forall hp_in_range (hit_roster sid d (players st))).
    { rewrite Forall_forall in *. intros [id p'] Hin.
      destruct (hit_roster_entry _ _ _ _ _ Hin)
        as (p & Hp & _ & _ & Hhp & _).
      specialize (Hinv _ Hp). unfold hp_in_range in *. simpl in *.
      destruct Hhp as [->|(_ & _ & ->)]; lia. }
    rewrite (hit_live st sid d v s Hr Hv Hs Halive). cbv zeta.
    destruct (hp v - damage d <=? 0);
      [destruct (KILLS_TO_WIN <=? kills s + 1)|];
      cbn [fst players set_players setTimeout set_timers set_gameInProgress];
      exact Hall.
  - unfold disconnect. cbn [fst players set_players].
    now apply Forall_delete.
  - unfold fire.
    destruct (nth_error (timers st) n) as [[delay [vId victim|]]|];
      [| |exact Hinv]; simpl run_callback.
    + unfold respawnCb. cbn [players set_timers].
      destruct (get vId (players st)) as [current|]; [|exact Hinv].
      cbn [fst players]. destruct (Nat.eqb (oid current) victim); [|exact Hinv].
      apply Forall_alter; [exact Hinv|]. intros q _ Hq.
      unfold hp_in_range. simpl. lia.
    + unfold resetGame, entries. cbn [players set_timers randomCalls].
      pose proof (resetPlayers_fields random (players st) (randomCalls st))
        as Hf.
      destruct (resetPlayers random (randomCalls st) (players st))
        as [[ps evs] n'].
      cbn [fst players] in *. eapply Forall_impl; [|exact Hf].
      intros kv (_ & _ & Hhp). unfold hp_in_range. rewrite Hhp. lia.
Qed.

(** X8: in every state the server reaches from its start, every session has
    between 0 and 20 kills and no fewer than 0 deaths; and as long as no hit
    has reported a negative damage, no session has more than [MAX_HP] = 3
    hit points. (The server does not check the damage: a negative one
    raises the victim's hit points.) *)
Theorem counters_stay_in_range random ins id p :
  session (fst (run random initial ins)) id = Some p ->
  0 <= kills p <= 20 /\ 0 <= deaths p /\
  (forallb damage_nonneg ins = true -> hp p <= 3).
Proof.
  assert (H : forall st,
             round_consistent st -> Forall counts_in_range (players st) ->
             Forall counts_in_range (players (fst (run random st ins))) /\
             (forallb damage_nonneg ins = true ->
              Forall hp_in_range (players st) ->
              Forall hp_in_range (players (fst (run random st ins))))).
  { induction ins as [|i ins IH]; intros st Hr Hc; [simpl; auto|].
    rewrite run_cons. simpl fst.
    destruct (IH _ (step_round_consistent random st i Hr)
                (step_counts_in_range random st i Hr Hc)) as [IHc IHh].
    split; [exact IHc|]. intros Hd Hh. simpl in Hd.
    apply andb_true_iff in Hd. destruct Hd as [Hdi Hd].
    apply IHh; [exact Hd|]. now apply step_hp_in_range. }
  assert (H0 : round_consistent initial) by (split; [reflexivity|constructor]).
  destruct (H initial H0 (Forall_nil _)) as [Hc Hh].
  intros Hp. unfold session in Hp. apply get_Some_In in Hp.
  rewrite Forall_forall in Hc. specialize (Hc _ Hp).
  destruct Hc as [Hk Hd]. split; [exact Hk|]. split; [exact Hd|].
  intros Hdmg. specialize (Hh Hdmg (Forall_nil _)).
  rewrite Forall_forall in Hh. apply (Hh _ Hp).
Qed.

(** X8 at A in the duel after a kill and B's respawn. *)
Lemma counters_stay_in_range_witness :
  0 <= 1 <= 20 /\ 0 <= 0 /\
  (forallb damage_nonneg
     [Join "A" anonymous; Join "B" anonymous; Hit "A" (mkHit "B" 3); Fire 0]
   = true -> 3 <= 3).
Proof.
  apply (counters_stay_in_range half
           [Join "A" anonymous; Join "B" anonymous; Hit "A" (mkHit "B" 3);
            Fire 0]
           "A"
           (mkPlayer 0 (spawnCoord (1 # 2)) 2 (spawnCoord (1 # 2)) 0 0 0 1
              "Anonymous Rat" 3 1 0 "fedora" 0xDC4A3C 0xE8B84D 0xBE4545)).
  vm_compute. reflexivity.
Defined.

(** *** The scheduled respawn *)

(** X9: when a respawn fires for a session that is still the one it was
    armed for, the session gets [MAX_HP] hit points and a new position at
    height 2 with x and z within 50 of the origin (for results of
    [Math.random()] in [0, 1)), and keeps its kills, deaths, name and
    orientation; the server tells everyone [playerRespawn] with exactly the
    stored position and hit points; no other session, nor the round flag,
    changes: a respawn is carried out during the victory screen too. *)
Theorem respawn_restores_the_victim random st vId victim p :
  (forall n, 0 <= random n < 1)%Q ->
  session st vId = Some p ->
  oid p = victim ->
  exists p',
    session (fst (respawnCb random vId victim st)) vId = Some p' /\
    hp p' = MAX_HP /\ y p' = 2%Q /\
    (-50 <= x p' <= 50)%Q /\ (-50 <= z p' <= 50)%Q /\
    kills p' = kills p /\ deaths p' = deaths p /\ name p' = name p /\
    (qx p', qy p', qz p', qw p') = (qx p, qy p, qz p, qw p) /\
    snd (respawnCb random vId victim st) =
    [(ToAll, playerRespawn vId (x p') (y p') (z p') (hp p'))] /\
    (forall id, id <> vId ->
        session (fst (respawnCb random vId victim st)) id = session st id) /\
    gameInProgress (fst (respawnCb random vId victim st)) = gameInProgress st.
Proof.
  intros Hrange Hp Ho. unfold respawnCb, session in *. rewrite Hp.
  apply Nat.eqb_eq in Ho. rewrite Ho.
  cbn [fst snd players gameInProgress].
  rewrite get_alter_same, Hp. simpl option_map.
  eexists. split; [reflexivity|]. simpl.
  repeat split; try apply spawnCoord_range; try apply Hrange.
  intros id Hne. rewrite get_alter. apply String.eqb_neq in Hne.
  now rewrite Hne.
Qed.

(** X9 at B's respawn in the duel. *)
Lemma respawn_restores_the_victim_witness :
  exists p',
    session
      (fst (respawnCb half "B" 1 (fst (hit duel "A" (mkHit "B" 3))))) "B" =
    Some p' /\
    hp p' = MAX_HP /\ y p' = 2%Q /\
    (-50 <= x p' <= 50)%Q /\ (-50 <= z p' <= 50)%Q /\
    kills p' = 0 /\ deaths p' = 1 /\ name p' = "Anonymous Rat"%string /\
    (qx p', qy p', qz p', qw p') = (0, 0, 0, 1)%Q /\
    snd (respawnCb half "B" 1 (fst (hit duel "A" (mkHit "B" 3)))) =
    [(ToAll, playerRespawn "B" (x p') (y p') (z p') (hp p'))] /\
    (forall id, id <> "B"%string ->
        session
          (fst (respawnCb half "B" 1 (fst (hit duel "A" (mkHit "B" 3))))) id =
        session (fst (hit duel "A" (mkHit "B" 3))) id) /\
    gameInProgress
      (fst (respawnCb half "B" 1 (fst (hit duel "A" (mkHit "B" 3))))) =
    gameInProgress (fst (hit duel "A" (mkHit "B" 3))).
Proof.
  apply (respawn_restores_the_victim half (fst (hit duel "A" (mkHit "B" 3)))
           "B" 1%nat
           (mkPlayer 1 (spawnCoord (1 # 2)) 2 (spawnCoord (1 # 2)) 0 0 0 1
              "Anonymous Rat" 0 0 1 "fedora" 0xDC4A3C 0xE8B84D 0xBE4545)).
  - intros n. unfold half. lra.
  - vm_compute. reflexivity.
  - reflexivity.
Defined.

Lemma nth_error_last {A : Type} (l : list A) (a : A) :
  nth_error (l ++ [a]) (List.length l) = Some a.
Proof. induction l as [|b l IH]; simpl; auto. Qed.

Lemma remove_nth_last {A : Type} (l : list A) (a : A) :
  remove_nth (List.length l) (l ++ [a]) = l.
Proof. induction l as [|b l IH]; simpl; [reflexivity|now rewrite IH]. Qed.

(** X10: a respawn armed before its player joined again fires on the old
    session object. When a player is killed (not by the winning hit), joins
    again on the same connection, and then the respawn of the first life
    fires, the new session keeps its position, and the rest of the roster is
    untouched too; the server nevertheless tells everyone [playerRespawn]
    for that id, with a freshly drawn position. *)
Theorem stale_respawn_after_rejoin random st sid data v s jd :
  wf st ->
  gameInProgress st = true ->
  session st (victimId data) = Some v ->
  session st sid = Some s ->
  0 < hp v -> hp v - damage data <= 0 ->
  kills s + 1 < KILLS_TO_WIN ->
  players
    (fst (fire random (List.length (timers st))
            (fst (join random (fst (hit st sid data)) (victimId data) jd)))) =
  players (fst (join random (fst (hit st sid data)) (victimId data) jd)) /\
  snd (fire random (List.length (timers st))
         (fst (join random (fst (hit st sid data)) (victimId data) jd))) =
  [(ToAll,
    playerRespawn (victimId data)
      (spawnCoord (random (S (S (randomCalls st))))) 2
      (spawnCoord (random (S (S (S (randomCalls st)))))) MAX_HP)].
Proof.
  intros (_ & _ & Hlt) Hround Hv Hs Halive Hl Hw.
  rewrite (hit_live st sid data v s Hround Hv Hs Halive). cbv zeta.
  apply Z.leb_le in Hl. rewrite Hl.
  assert (Ew : (KILLS_TO_WIN <=? kills s + 1) = false)
    by (apply Z.leb_gt; exact Hw).
  rewrite Ew. unfold join, fire.
  cbn [fst snd players timers nextOid randomCalls gameInProgress setTimeout
         set_timers set_players].
  rewrite nth_error_last. simpl run_callback.
  unfold respawnCb.
  cbn [fst snd players timers nextOid randomCalls gameInProgress set_timers].
  rewrite get_set, String.eqb_refl. cbn [oid].
  assert (Hne : Nat.eqb (nextOid st) (oid v) = false).
  { apply Nat.eqb_neq. unfold session in Hv. apply get_Some_In in Hv.
    rewrite Forall_forall in Hlt.
    assert (oid v < nextOid st)%nat; [|lia].
    apply Hlt. unfold oids.
    now apply in_map with (f := fun kv => oid (snd kv)) in Hv. }
  rewrite Hne. split; reflexivity.
Qed.

(** X10 on the duel: A kills B, B joins again, B's first respawn fires. *)
Lemma stale_respawn_after_rejoin_witness :
  players
    (fst (fire half (List.length (timers duel))
            (fst (join half (fst (hit duel "A" (mkHit "B" 3))) "B" anonymous)))) =
  players (fst (join half (fst (hit duel "A" (mkHit "B" 3))) "B" anonymous)) /\
  snd (fire half (List.length (timers duel))
         (fst (join half (fst (hit duel "A" (mkHit "B" 3))) "B" anonymous))) =
  [(ToAll,
    playerRespawn "B"
      (spawnCoord (half (S (S (randomCalls duel))))) 2
      (spawnCoord (half (S (S (S (randomCalls duel)))))) MAX_HP)].
Proof.
  apply (stale_respawn_after_rejoin half duel "A" (mkHit "B" 3)
           (mkPlayer 1 (spawnCoord (1 # 2)) 2 (spawnCoord (1 # 2)) 0 0 0 1
              "Anonymous Rat" 3 0 0 "fedora" 0xDC4A3C 0xE8B84D 0xBE4545)
           (mkPlayer 0 (spawnCoord (1 # 2)) 2 (spawnCoord (1 # 2)) 0 0 0 1
              "Anonymous Rat" 3 0 0 "fedora" 0xDC4A3C 0xE8B84D 0xBE4545)
           anonymous);
    try (vm_compute; solve [reflexivity | discriminate]).
  exact (reachable_wf half [Join "A" anonymous; Join "B" anonymous]).
Defined.

(** *** What the round reset broadcasts *)

Lemma sort_sorted_same l :
  StronglySorted ranks_before l -> sort compareFn l = l.
Proof.
  induction 1 as [|a l Hs IH Ha]; [reflexivity|].
  simpl. rewrite IH. destruct l as [|b l]; [reflexivity|].
  simpl. inversion Ha as [|? ? Hab _]; subst.
  apply compareFn_le in Hab. now rewrite Hab.
Qed.

Lemma zeros_sorted l :
  Forall (fun e => e_kills e = 0 /\ e_deaths e = 0) l ->
  StronglySorted ranks_before l.
Proof.
  induction 1 as [|a l [Hk Hd] Hl IH]; constructor; [exact IH|].
  eapply Forall_impl; [|exact Hl].
  intros b [Hkb Hdb]. unfold ranks_before. lia.
Qed.

Lemma resetPlayers_messages random ps : forall n,
  snd (fst (resetPlayers random n ps)) =
  map (fun kv =>
         (ToAll,
          playerRespawn (fst kv) (x (snd kv)) (y (snd kv)) (z (snd kv))
            (hp (snd kv))))
    (fst (fst (resetPlayers random n ps))).
Proof.
  induction ps as [|[id p] ps IH]; intros n; simpl; [reflexivity|].
  specialize (IH (S (S n))).
  destruct (resetPlayers random (S (S n)) ps) as [[rest evs] n'].
  simpl in *. now rewrite IH.
Qed.

(** X11: the round reset tells everyone, for each session in roster order,
    a [playerRespawn] with exactly the position and hit points it has just
    stored, then [gameReset], then a scoreboard that lists the sessions in
    roster order, each with 0 kills and 0 deaths; it cancels no timer, so a
    respawn that was pending keeps pending. *)
Theorem resetGame_broadcast random st :
  snd (resetGame random st) =
  map (fun kv =>
         (ToAll,
          playerRespawn (fst kv) (x (snd kv)) (y (snd kv)) (z (snd kv))
            (hp (snd kv))))
    (players (fst (resetGame random st))) ++
  [ (ToAll, gameReset);
    (ToAll,
     scoreboardUpdate
       (map (fun kv => mkScore (fst kv) (name (snd kv)) 0 0)
          (players (fst (resetGame random st))))) ] /\
  timers (fst (resetGame random st)) = timers st.
Proof.
  unfold resetGame, entries.
  pose proof (resetPlayers_messages random (players st) (randomCalls st)) as Hm.
  pose proof (resetPlayers_fields random (players st) (randomCalls st)) as Hf.
  destruct (resetPlayers random (randomCalls st) (players st)) as [[ps evs] n].
  cbn [fst snd players timers] in *. split; [|reflexivity].
  assert (Hb : buildScoreboard ps =
               map (fun kv => mkScore (fst kv) (name (snd kv)) 0 0) ps).
  { unfold buildScoreboard, entries.
    assert (Hz : map to_entry ps =
                 map (fun kv => mkScore (fst kv) (name (snd kv)) 0 0) ps).
    { apply map_ext_in. intros kv Hin. rewrite Forall_forall in Hf.
      destruct (Hf _ Hin) as (Hk & Hd & _). unfold to_entry.
      now rewrite Hk, Hd. }
    rewrite Hz. apply sort_sorted_same, zeros_sorted.
    rewrite Forall_forall. intros e Hin. apply in_map_iff in Hin.
    destruct Hin as (kv & <- & _). simpl. auto. }
  now rewrite Hm, Hb.
Qed.

(** *** What a hit leaves alone *)

Lemma same_place_refl p : same_place p p.
Proof. unfold same_place. auto. Qed.

Lemma get_hit_roster sid data ps id :
  exists g,
    get id (hit_roster sid data ps) = option_map g (get id ps) /\
    (forall p, same_place p (g p)) /\
    (id <> sid -> id <> victimId data -> forall p, g p = p).
Proof.
  unfold hit_roster. destruct (field hp 0 _ _ <=? 0).
  - rewrite !get_alter.
    destruct (String.eqb id (victimId data)) eqn:Ev;
      destruct (String.eqb id sid) eqn:Es;
      [apply String.eqb_eq in Ev | apply String.eqb_eq in Ev
       | apply String.eqb_neq in Ev | apply String.eqb_neq in Ev];
      [apply String.eqb_eq in Es | apply String.eqb_neq in Es
       | apply String.eqb_eq in Es | apply String.eqb_neq in Es].
    + exists (fun p => set_deaths (deaths (set_kills (kills (set_hp (hp p - damage data) p) + 1) (set_hp (hp p - damage data) p)) + 1)
                         (set_kills (kills (set_hp (hp p - damage data) p) + 1)
                            (set_hp (hp p - damage data) p))).
      split; [now destruct (get id ps)|].
      split; [intros p; unfold same_place; simpl; auto|congruence].
    + exists (fun p => set_deaths (deaths (set_hp (hp p - damage data) p) + 1)
                         (set_hp (hp p - damage data) p)).
      split; [now destruct (get id ps)|].
      split; [intros p; unfold same_place; simpl; auto|congruence].
    + exists (fun p => set_kills (kills p + 1) p).
      split; [now destruct (get id ps)|].
      split; [intros p; unfold same_place; simpl; auto|congruence].
    + exists (fun p => p).
      split; [now destruct (get id ps)|].
      split; [intros p; apply same_place_refl|auto].
  - rewrite get_alter.
    destruct (String.eqb id (victimId data)) eqn:Ev;
      [apply String.eqb_eq in Ev | apply String.eqb_neq in Ev].
    + exists (fun p => set_hp (hp p - damage data) p).
      split; [reflexivity|].
      split; [intros p; unfold same_place; simpl; auto|congruence].
    + exists (fun p => p).
      split; [now destruct (get id ps)|].
      split; [intros p; apply same_place_refl|auto].
Qed.

(** X12: a hit, processed or dropped, leaves every session other than the
    shooter's and the victim's exactly as it is; in the shooter's and the
    victim's it writes only hit points, kills and deaths: position,
    orientation, name and appearance stay; it creates and removes no
    session; and it removes no pending timer and adds at most one. *)
Theorem hit_touches_only_combat_fields st sid data :
  (forall id, id <> sid -> id <> victimId data ->
      session (fst (hit st sid data)) id = session st id) /\
  (forall id,
      match session st id, session (fst (hit st sid data)) id with
      | Some p, Some p' => same_place p p'
      | None, None => True
      | _, _ => False
      end) /\
  (exists added,
      timers (fst (hit st sid data)) = timers st ++ added /\
      (List.length added <= 1)%nat).
Proof.
  assert (Hroster : players (fst (hit st sid data)) = players st \/
                    players (fst (hit st sid data)) =
                    hit_roster sid data (players st)).
  { destruct (hit_cases st sid data)
      as [->|[->|(v & s & Hround & Hv & Hs & Halive)]];
      [now left|now left|right].
    rewrite (hit_live st sid data v s Hround Hv Hs Halive). cbv zeta.
    destruct (hp v - damage data <=? 0);
      [destruct (KILLS_TO_WIN <=? kills s + 1)|]; reflexivity. }
  split; [|split].
  - intros id Hs Hv. unfold session.
    destruct Hroster as [->| ->]; [reflexivity|].
    destruct (get_hit_roster sid data (players st) id) as (g & -> & _ & Hid).
    destruct (get id (players st)); simpl; [now rewrite Hid|reflexivity].
  - intros id. unfold session.
    destruct Hroster as [->| ->].
    + destruct (get id (players st)); [apply same_place_refl|exact I].
    + destruct (get_hit_roster sid data (players st) id) as (g & -> & Hg & _).
      destruct (get id (players st)); simpl; [apply Hg|exact I].
  - destruct (hit_cases st sid data)
      as [->|[->|(v & s & Hround & Hv & Hs & Halive)]].
    + exists []. split; [now rewrite app_nil_r|simpl; lia].
    + exists []. split; [now rewrite app_nil_r|simpl; lia].
    + rewrite (hit_live st sid data v s Hround Hv Hs Halive). cbv zeta.
      destruct (hp v - damage data <=? 0);
        [destruct (KILLS_TO_WIN <=? kills s + 1)|];
        cbn [fst timers setTimeout set_timers set_gameInProgress set_players].
      * eexists. split; [reflexivity|simpl; lia].
      * eexists. split; [reflexivity|simpl; lia].
      * exists []. split; [now rewrite app_nil_r|simpl; lia].
Qed.

End ServerExtra.

(** ** Further properties of the client *)

Module ClientExtra.

Import JSObject JSObjectFacts Client ClientSpec.

Local Open Scope Q_scope.

Section Avatars.

Variable slerp : Quaternion -> Quaternion -> Q -> Quaternion.
Variable layDown : Vector3 -> Quaternion.

(** *** Interpolation of a living avatar *)

(** One frame on a living avatar: the rendered position is the [lerp] of
    the old one toward the target, and the body follows it. *)
Lemma alive_frame dt r :
  dead (entity r) = false ->
  dead (entity (updateRemoteRat slerp dt r)) = false /\
  targetPos (updateRemoteRat slerp dt r) = targetPos r /\
  targetMeshQuat (updateRemoteRat slerp dt r) = targetMeshQuat r /\
  meshPosition (entity (updateRemoteRat slerp dt r)) =
  lerp (meshPosition (entity r)) (targetPos r) (min (dt * 12) 1) /\
  bodyPosition (entity (updateRemoteRat slerp dt r)) =
  meshPosition (entity (updateRemoteRat slerp dt r)).
Proof.
  intros Hd. unfold updateRemoteRat. rewrite Hd.
  unfold update, set_entity. simpl. auto.
Qed.

Lemma min_bounds dt : 0 <= dt -> 0 <= min (dt * 12) 1 <= 1.
Proof.
  intros Hdt. unfold min. destruct (Qle_bool (dt * 12) 1) eqn:E.
  - apply Qle_bool_iff in E. split; [lra|exact E].
  - split; lra.
Qed.

Lemma qpow_bounds k n : 0 <= k <= 1 -> 0 <= qpow k n <= 1.
Proof.
  intros [H0 H1]. induction n as [|n [IH0 IH1]]; simpl; [split; lra|].
  split; [now apply Qmult_le_0_compat|].
  setoid_replace 1 with (1 * 1) by ring.
  apply Qmult_le_compat_nonneg; split; assumption.
Qed.

Lemma frames_offset dt r :
  dead (entity r) = false ->
  forall n,
    dead (entity (frames slerp n dt r)) = false /\
    targetPos (frames slerp n dt r) = targetPos r /\
    veq (offset (frames slerp n dt r))
        (scale (qpow (1 - min (dt * 12) 1) n) (offset r)).
Proof.
  intros Hd. induction n as [|n (IHd & IHt & IHx & IHy & IHz)].
  - split; [exact Hd|]. split; [reflexivity|].
    unfold veq, scale, offset. cbn [frames qpow vx vy vz].
    split; [|split]; ring.
  - cbn [frames qpow].
    set (rn := frames slerp n dt r) in *.
    destruct (alive_frame dt rn IHd) as (Hd' & Ht' & _ & Hm' & _).
    split; [exact Hd'|]. split; [now rewrite Ht'|].
    unfold veq, scale, offset in *. cbn [vx vy vz] in *.
    rewrite Ht', Hm'. unfold lerp. cbn [vx vy vz].
    split; [|split].
    + transitivity ((1 - min (dt * 12) 1) *
                    (vx (targetPos rn) - vx (meshPosition (entity rn))));
        [ring|]. rewrite IHx. ring.
    + transitivity ((1 - min (dt * 12) 1) *
                    (vy (targetPos rn) - vy (meshPosition (entity rn))));
        [ring|]. rewrite IHy. ring.
    + transitivity ((1 - min (dt * 12) 1) *
                    (vz (targetPos rn) - vz (meshPosition (entity rn))));
        [ring|]. rewrite IHz. ring.
Qed.

(** X13: interpolation converges without overshoot. On a living avatar whose
    target does not change, every frame of [dt >= 0] seconds multiplies the
    offset between target and rendered position, in each coordinate, by
    [1 - min(12 dt, 1)], a factor between 0 and 1: after [n] frames the
    offset is the initial one times that factor to the power [n], so the
    rendered position never passes the target and never moves away from it;
    the avatar stays alive and its target stays what it was. *)
Theorem interpolation_converges dt n r :
  dead (entity r) = false ->
  0 <= dt ->
  dead (entity (frames slerp n dt r)) = false /\
  targetPos (frames slerp n dt r) = targetPos r /\
  veq (offset (frames slerp n dt r))
      (scale (qpow (1 - min (dt * 12) 1) n) (offset r)) /\
  0 <= qpow (1 - min (dt * 12) 1) n <= 1.
Proof.
  intros Hd Hdt.
  destruct (frames_offset dt r Hd n) as (H1 & H2 & H3).
  split; [exact H1|]. split; [exact H2|]. split; [exact H3|].
  apply qpow_bounds. destruct (min_bounds dt Hdt). split; lra.
Qed.

(** An avatar that is at its target stays there. *)
Lemma at_target_stays dt n r :
  dead (entity r) = false ->
  meshPosition (entity r) = targetPos r ->
  veq (meshPosition (entity (frames slerp n dt r))) (targetPos r).
Proof.
  intros Hd Hat.
  destruct (frames_offset dt r Hd n) as (_ & Ht & Hx & Hy & Hz).
  unfold offset, scale in *. cbn [vx vy vz] in *.
  rewrite Ht, Hat in *. unfold veq.
  set (k := qpow (1 - min (dt * 12) 1) n) in *.
  set (m := meshPosition (entity (frames slerp n dt r))) in *.
  split; [|split].
  - assert (H : vx (targetPos r) - vx m == 0) by (rewrite Hx; ring). lra.
  - assert (H : vy (targetPos r) - vy m == 0) by (rewrite Hy; ring). lra.
  - assert (H : vz (targetPos r) - vz m == 0) by (rewrite Hz; ring). lra.
Qed.

(** X14: no drift after a respawn. After [respawnRemoteRat] the avatar is
    alive and, for any number of frames of any length, as long as no
    [playerMoved] arrives, its rendered position stays numerically equal to
    the respawn position and its target stays the respawn position. *)
Theorem no_drift_after_respawn dt n px py pz newHp r :
  dead (entity (frames slerp n dt (respawnRemoteRat px py pz newHp r))) = false /\
  targetPos (frames slerp n dt (respawnRemoteRat px py pz newHp r)) =
  mkVector3 px py pz /\
  veq (meshPosition
         (entity (frames slerp n dt (respawnRemoteRat px py pz newHp r))))
      (mkVector3 px py pz).
Proof.
  destruct (frames_offset dt (respawnRemoteRat px py pz newHp r) eq_refl n)
    as (Hd & Ht & _).
  split; [exact Hd|]. split; [exact Ht|].
  exact (at_target_stays dt n (respawnRemoteRat px py pz newHp r)
           eq_refl eq_refl).
Qed.

(** *** Messages for avatars the client does not have *)



(** *** The client's own id *)

Lemma spawnRemoteRat_other now id data st me :
  id <> me ->
  get me (remoteRats (spawnRemoteRat now id data st)) = get me (remoteRats st).
Proof.
  intros Hne. unfold spawnRemoteRat.
  destruct (get id (remoteRats st)); [reflexivity|].
  simpl. rewrite get_set.
  destruct (String.eqb me id) eqn:E; [|reflexivity].
  apply String.eqb_eq in E. congruence.
Qed.

Lemma step_keeps_self_out st i :
  get (myId st) (remoteRats st) = None ->
  myId (step slerp layDown st i) = myId st /\
  get (myId st) (remoteRats (step slerp layDown st i)) = None.
Proof.
  intros Hnone. destruct i as [now imp m|dt]; simpl step.
  - destruct m; simpl receive;
      try (split; [reflexivity|]; simpl;
           rewrite ?get_alter, ?get_delete, Hnone;
           repeat match goal with
                  | |- context [String.eqb ?a ?b] => destruct (String.eqb a b)
                  end; reflexivity);
      try (split; [reflexivity|exact Hnone]).
    + assert (H : forall s,
                 myId s = myId st ->
                 get (myId st) (remoteRats s) = None ->
                 myId (fold_left
                         (fun s0 kv =>
                            if String.eqb (fst kv) (myId st) then s0
                            else spawnRemoteRat now (fst kv) (snd kv) s0)
                         (entries roster) s) = myId st /\
                 get (myId st)
                   (remoteRats
                      (fold_left
                         (fun s0 kv =>
                            if String.eqb (fst kv) (myId st) then s0
                            else spawnRemoteRat now (fst kv) (snd kv) s0)
                         (entries roster) s)) = None).
      { unfold entries. induction roster as [|[k p] roster IH]; intros s Hs Hg;
          simpl; [auto|].
        apply IH.
        - destruct (String.eqb k (myId st)); [exact Hs|].
          unfold spawnRemoteRat. now destruct (get k (remoteRats s)).
        - destruct (String.eqb k (myId st)) eqn:E; [exact Hg|].
          apply String.eqb_neq in E. now rewrite spawnRemoteRat_other. }
      now apply H.
    + destruct (String.eqb id (myId st)) eqn:E; [auto|].
      apply String.eqb_neq in E. split.
      * unfold spawnRemoteRat. now destruct (get id (remoteRats st)).
      * now rewrite spawnRemoteRat_other.
    + destruct (String.eqb id (myId st)); [auto|]. split; [reflexivity|].
      simpl. rewrite get_alter, Hnone. now destruct (String.eqb (myId st) id).
  - split; [reflexivity|]. rewrite get_updateRemoteRats, Hnone. reflexivity.
Qed.

(** X16: the client never builds a remote avatar for itself. Starting
    without an avatar under its own id, whatever messages it receives and
    frames it draws, the client has no avatar under its own id, which does
    not change. *)
Theorem no_avatar_for_oneself ins : forall st,
  get (myId st) (remoteRats st) = None ->
  myId (run slerp layDown st ins) = myId st /\
  get (myId st) (remoteRats (run slerp layDown st ins)) = None.
Proof.
  unfold run. induction ins as [|i ins IH]; intros st Hnone; simpl; [auto|].
  destruct (step_keeps_self_out st i Hnone) as [Hid Hg].
  rewrite <- Hid in Hg. destruct (IH _ Hg) as [IH1 IH2].
  rewrite Hid in IH1, IH2. auto.
Qed.

(** *** The death presentation *)

(** X17: a death is presented once. A [playerDied] for an avatar that is
    already dead changes nothing, so the running presentation is not
    restarted; for a living avatar with at most 999 hit points it sets the
    dead flag and starts the presentation (phase launch, timer 0, lay-down
    pose from the impact direction) without moving the avatar or its target;
    a living avatar with more than 999 hit points only loses 999 and stays
    alive. *)
Theorem playerDied_is_presented_once imp r :
  (dead (entity r) = true -> onPlayerDied layDown imp r = r) /\
  (dead (entity r) = false -> (hp (entity r) <= 999)%Z ->
   dead (entity (onPlayerDied layDown imp r)) = true /\
   deathPhase (entity (onPlayerDied layDown imp r)) = launch /\
   deathTimer (entity (onPlayerDied layDown imp r)) = 0 /\
   deathTargetQuat (entity (onPlayerDied layDown imp r)) = Some (layDown imp) /\
   rendered (onPlayerDied layDown imp r) = rendered r /\
   targetPos (onPlayerDied layDown imp r) = targetPos r /\
   targetMeshQuat (onPlayerDied layDown imp r) = targetMeshQuat r) /\
  (dead (entity r) = false -> (999 < hp (entity r))%Z ->
   dead (entity (onPlayerDied layDown imp r)) = false /\
   hp (entity (onPlayerDied layDown imp r)) = (hp (entity r) - 999)%Z).
Proof.
  unfold onPlayerDied, takeDamage, die, flashColor, rendered, set_entity.
  split; [|split].
  - intros ->. reflexivity.
  - intros Hd Hhp. rewrite Hd. cbn [hp dead entity].
    apply Z.leb_le in Hhp.
    replace (hp (entity r) - 999 <=? 0)%Z with true
      by (symmetry; apply Z.leb_le; apply Z.leb_le in Hhp; lia).
    simpl. repeat split.
  - intros Hd Hhp. rewrite Hd. cbn [hp dead entity].
    replace (hp (entity r) - 999 <=? 0)%Z with false
      by (symmetry; apply Z.leb_gt; lia).
    simpl. auto.
Qed.

(** One call of [update] on a dead entity, phase by phase. *)
Lemma update_of_dead dt e :
  dead e = true ->
  dead (update slerp dt e) = true /\
  deathTimer (update slerp dt e) = deathTimer e + dt /\
  deathTargetQuat (update slerp dt e) = deathTargetQuat e /\
  match deathPhase e with
  | launch =>
      deathPhase (update slerp dt e) =
      if Qle_bool DEATH_PHASE_LAUNCH (deathTimer e + dt) then spin else launch
  | spin =>
      deathPhase (update slerp dt e) =
      if Qle_bool DEATH_PHASE_SPIN (deathTimer e + dt) then settle else spin
  | settle =>
      if Qle_bool 1
           (min ((deathTimer e + dt - DEATH_PHASE_SPIN) /
                 (DEATH_PHASE_SETTLE - DEATH_PHASE_SPIN)) 1)
      then
        deathPhase (update slerp dt e) = done /\
        ragdollSettled (update slerp dt e) = true /\
        vy (meshPosition (update slerp dt e)) = 3 # 10 /\
        (forall q, deathTargetQuat e = Some q ->
                   meshQuaternion (update slerp dt e) = q)
      else deathPhase (update slerp dt e) = settle
  | done =>
      deathPhase (update slerp dt e) = done /\
      ragdollSettled (update slerp dt e) = ragdollSettled e /\
      meshPosition (update slerp dt e) = meshPosition e /\
      meshQuaternion (update slerp dt e) = meshQuaternion e
  end.
Proof.
  intros Hd. unfold update. rewrite Hd. unfold updateDeathRagdoll.
  cbn [deathPhase deathTimer bodyPosition bodyQuaternion deathPosition
         deathTargetQuat meshPosition meshQuaternion].
  destruct (deathPhase e).
  - destruct (Qle_bool DEATH_PHASE_LAUNCH (deathTimer e + dt)); simpl;
      repeat split.
  - destruct (Qle_bool DEATH_PHASE_SPIN (deathTimer e + dt)); simpl;
      repeat split.
  - destruct (Qle_bool 1 _); simpl; [|repeat split].
    repeat split; auto.
    intros q ->. reflexivity.
  - simpl. repeat split.
Qed.

Lemma settle_is_over t :
  DEATH_PHASE_SETTLE <= t ->
  Qle_bool 1
    (min ((t - DEATH_PHASE_SPIN) / (DEATH_PHASE_SETTLE - DEATH_PHASE_SPIN)) 1)
  = true.
Proof.
  intros Ht. unfold min.
  destruct (Qle_bool _ 1) eqn:E; [|reflexivity].
  apply Qle_bool_iff. apply Qle_shift_div_l.
  - unfold DEATH_PHASE_SETTLE, DEATH_PHASE_SPIN. lra.
  - unfold DEATH_PHASE_SETTLE, DEATH_PHASE_SPIN in *. lra.
Qed.

(** X18: the death presentation only moves forward and comes to rest. On a
    dead entity a call of [update] keeps the dead flag and leaves the phase
    or advances it by one (launch, spin, settle, done); and once the death
    timer has reached 2.5 s, three more calls with [dt >= 0] bring the phase
    to done, with, unless it was done before, the settled flag set, the
    rendered height 0.3 and the lay-down pose as rendered orientation. *)
Theorem death_presentation_comes_to_rest dt e :
  dead e = true ->
  dead (update slerp dt e) = true /\
  (phase_rank (deathPhase e) <= phase_rank (deathPhase (update slerp dt e))
   <= S (phase_rank (deathPhase e)))%nat /\
  (0 <= dt -> DEATH_PHASE_SETTLE <= deathTimer e + dt ->
   deathPhase (updates slerp 3 dt e) = done /\
   (deathPhase e <> done ->
    ragdollSettled (updates slerp 3 dt e) = true /\
    vy (meshPosition (updates slerp 3 dt e)) = 3 # 10 /\
    forall q, deathTargetQuat e = Some q ->
              meshQuaternion (updates slerp 3 dt e) = q)).
Proof.
  intros Hd.
  destruct (update_of_dead dt e Hd) as (Hd1 & Ht1 & Hq1 & Hp1).
  split; [exact Hd1|]. split.
  - destruct (deathPhase e); cbn [phase_rank].
    + rewrite Hp1. destruct (Qle_bool _ _); simpl; lia.
    + rewrite Hp1. destruct (Qle_bool _ _); simpl; lia.
    + destruct (Qle_bool _ _); [destruct Hp1 as [-> _]|rewrite Hp1];
        simpl; lia.
    + destruct Hp1 as [-> _]. simpl. lia.
  - intros Hdt Hlate. cbn [updates].
    set (e1 := update slerp dt e) in *.
    destruct (update_of_dead dt e1 Hd1) as (Hd2 & Ht2 & Hq2 & Hp2).
    set (e2 := update slerp dt e1) in *.
    destruct (update_of_dead dt e2 Hd2) as (Hd3 & Ht3 & Hq3 & Hp3).
    set (e3 := update slerp dt e2) in *.
    assert (L1 : Qle_bool DEATH_PHASE_LAUNCH (deathTimer e + dt) = true)
      by (apply Qle_bool_iff; unfold DEATH_PHASE_LAUNCH, DEATH_PHASE_SETTLE in *;
          lra).
    assert (S1 : Qle_bool DEATH_PHASE_SPIN (deathTimer e + dt) = true)
      by (apply Qle_bool_iff; unfold DEATH_PHASE_SPIN, DEATH_PHASE_SETTLE in *;
          lra).
    assert (S2 : Qle_bool DEATH_PHASE_SPIN (deathTimer e1 + dt) = true)
      by (apply Qle_bool_iff; rewrite Ht1;
          unfold DEATH_PHASE_SPIN, DEATH_PHASE_SETTLE in *; lra).
    assert (D1 := settle_is_over (deathTimer e + dt) Hlate).
    assert (D2 : Qle_bool 1
                   (min ((deathTimer e1 + dt - DEATH_PHASE_SPIN) /
                         (DEATH_PHASE_SETTLE - DEATH_PHASE_SPIN)) 1) = true)
      by (apply settle_is_over; rewrite Ht1; lra).
    assert (D3 : Qle_bool 1
                   (min ((deathTimer e2 + dt - DEATH_PHASE_SPIN) /
                         (DEATH_PHASE_SETTLE - DEATH_PHASE_SPIN)) 1) = true)
      by (apply settle_is_over; rewrite Ht2, Ht1; lra).
    destruct (deathPhase e) eqn:P0.
    + rewrite L1 in Hp1. rewrite Hp1, S2 in Hp2. rewrite Hp2, D3 in Hp3.
      destruct Hp3 as (Hdone & Hset & Hy & Hq).
      split; [exact Hdone|]. intros _. split; [exact Hset|].
      split; [exact Hy|]. intros q Hsome. apply Hq.
      now rewrite Hq2, Hq1.
    + rewrite S1 in Hp1. rewrite Hp1, D2 in Hp2.
      destruct Hp2 as (Hdone & Hset & Hy & Hq).
      rewrite Hdone in Hp3. destruct Hp3 as (Hdone3 & Hset3 & Hm3 & Hmq3).
      split; [exact Hdone3|]. intros _. split; [congruence|].
      split; [now rewrite Hm3|]. intros q Hsome. rewrite Hmq3. apply Hq.
      now rewrite Hq1.
    + rewrite D1 in Hp1. destruct Hp1 as (Hdone & Hset & Hy & Hq).
      rewrite Hdone in Hp2. destruct Hp2 as (Hdone2 & Hset2 & Hm2 & Hmq2).
      rewrite Hdone2 in Hp3. destruct Hp3 as (Hdone3 & Hset3 & Hm3 & Hmq3).
      split; [exact Hdone3|]. intros _. split; [congruence|].
      split; [now rewrite Hm3, Hm2|]. intros q Hsome.
      rewrite Hmq3, Hmq2. now apply Hq.
    + destruct Hp1 as (Hdone & _). rewrite Hdone in Hp2.
      destruct Hp2 as (Hdone2 & _). rewrite Hdone2 in Hp3.
      destruct Hp3 as (Hdone3 & _). split; [exact Hdone3|]. congruence.
Qed.

End Avatars.

(** X13 at a fresh avatar at the origin whose target has moved to x = 10:
    two frames of 0.05 s, with a stand-in for [slerp]. *)
Lemma interpolation_converges_witness :
  dead
    (entity
       (frames (fun a b t => b) 2 (1 # 20)
          (mkRemoteRat (newRatEntity (mkVector3 0 2 0) "B")
             (mkVector3 10 2 0) identityQuat 0))) = false /\
  targetPos
    (frames (fun a b t => b) 2 (1 # 20)
       (mkRemoteRat (newRatEntity (mkVector3 0 2 0) "B")
          (mkVector3 10 2 0) identityQuat 0)) = mkVector3 10 2 0 /\
  veq
    (offset
       (frames (fun a b t => b) 2 (1 # 20)
          (mkRemoteRat (newRatEntity (mkVector3 0 2 0) "B")
             (mkVector3 10 2 0) identityQuat 0)))
    (scale (qpow (1 - min ((1 # 20) * 12) 1) 2)
       (offset
          (mkRemoteRat (newRatEntity (mkVector3 0 2 0) "B")
             (mkVector3 10 2 0) identityQuat 0))) /\
  0 <= qpow (1 - min ((1 # 20) * 12) 1) 2 <= 1.
Proof.
  apply (interpolation_converges (fun a b t => b) (1 # 20) 2
           (mkRemoteRat (newRatEntity (mkVector3 0 2 0) "B")
              (mkVector3 10 2 0) identityQuat 0)).
  - reflexivity.
  - lra.
Defined.


(** X16 at a client A that receives a roster with itself and B in it, a
    join announcement for itself and then draws a frame. *)
Lemma no_avatar_for_oneself_witness :
  myId
    (run (fun a b t => b) (fun v => identityQuat)
       (mkState [] "A")
       [ Receive 0 (mkVector3 1 0 0)
           (Server.currentPlayers [("A"%string, announced); ("B"%string, announced)]);
         Receive 0 (mkVector3 1 0 0) (Server.playerJoined "A" announced);
         Frame (1 # 20) ]) = "A"%string /\
  get "A"
    (remoteRats
       (run (fun a b t => b) (fun v => identityQuat)
          (mkState [] "A")
          [ Receive 0 (mkVector3 1 0 0)
              (Server.currentPlayers
                 [("A"%string, announced); ("B"%string, announced)]);
            Receive 0 (mkVector3 1 0 0) (Server.playerJoined "A" announced);
            Frame (1 # 20) ])) = None.
Proof.
  apply (no_avatar_for_oneself (fun a b t => b) (fun v => identityQuat)
           [ Receive 0 (mkVector3 1 0 0)
               (Server.currentPlayers
                  [("A"%string, announced); ("B"%string, announced)]);
             Receive 0 (mkVector3 1 0 0) (Server.playerJoined "A" announced);
             Frame (1 # 20) ]
           (mkState [] "A")).
  reflexivity.
Defined.

(** X18 at an avatar that has just died, with frames of three seconds. *)
Lemma death_presentation_comes_to_rest_witness :
  deathPhase
    (updates (fun a b t => b) 3 3
       (mkRatEntity "B" (3 - 999) true (mkVector3 0 2 0) identityQuat
          (mkVector3 0 2 0) identityQuat FLASH_DURATION 0 0
          (Some identityQuat) false None false launch)) = done /\
  vy (meshPosition
        (updates (fun a b t => b) 3 3
           (mkRatEntity "B" (3 - 999) true (mkVector3 0 2 0) identityQuat
              (mkVector3 0 2 0) identityQuat FLASH_DURATION 0 0
              (Some identityQuat) false None false launch))) = 3 # 10.
Proof.
  destruct (death_presentation_comes_to_rest (fun a b t => b) 3
              (mkRatEntity "B" (3 - 999) true (mkVector3 0 2 0) identityQuat
                 (mkVector3 0 2 0) identityQuat FLASH_DURATION 0 0
                 (Some identityQuat) false None false launch) eq_refl)
    as (_ & _ & H).
  destruct H as (Hdone & Hrest).
  - lra.
  - unfold DEATH_PHASE_SETTLE. simpl. lra.
  - split; [exact Hdone|]. apply Hrest. discriminate.
Defined.

End ClientExtra.

(** ** What the client sends, and the cheese balls *)

Module WeaponExtra.

Import JSObject JSObjectFacts Client Projectile.

Local Open Scope Q_scope.

Lemma SEND_INTERVAL_value : SEND_INTERVAL == 40.
Proof. reflexivity. Qed.

Lemma sent_after last calls :
  Forall (fun s => last + SEND_INTERVAL <= fst s) (sent last calls).
Proof.
  pose proof SEND_INTERVAL_value as Hi.
  revert last. induction calls as [|[now e] rest IH]; intros last; simpl.
  - constructor.
  - unfold animateSend, sendMovement. destruct (dead e); [apply IH|].
    destruct (Qle_bool SEND_INTERVAL (now - last)) eqn:E; simpl; [|apply IH].
    apply Qle_bool_iff in E. constructor; [simpl; lra|].
    eapply Forall_impl; [|apply IH]. simpl. intros s Hs. lra.
Qed.

(** X19 ([sendMovement] and its call in the game loop): whatever the frame
    times, two movement updates the client sends are at least
    [SEND_INTERVAL] = 40 ms apart, and the first at least that long after
    [lastSendTime]; every update comes from a frame in which the local rat
    was alive, and carries the position of its body and all four components
    of the orientation of its mesh. *)
Theorem movement_updates_are_throttled lastSendTime calls :
  SEND_INTERVAL == 40 /\
  StronglySorted (fun a b => fst a + SEND_INTERVAL <= fst b)
    (sent lastSendTime calls) /\
  Forall
    (fun s =>
       lastSendTime + SEND_INTERVAL <= fst s /\
       exists e,
         In (fst s, e) calls /\ dead e = false /\
         Server.m_x (snd s) = vx (bodyPosition e) /\
         Server.m_y (snd s) = vy (bodyPosition e) /\
         Server.m_z (snd s) = vz (bodyPosition e) /\
         Server.m_meshQx (snd s) = Some (qx (meshQuaternion e)) /\
         Server.m_meshQy (snd s) = Some (qy (meshQuaternion e)) /\
         Server.m_meshQz (snd s) = Some (qz (meshQuaternion e)) /\
         Server.m_meshQw (snd s) = Some (qw (meshQuaternion e)))
    (sent lastSendTime calls).
Proof.
  pose proof SEND_INTERVAL_value as Hi.
  split; [exact Hi|]. split.
  - revert lastSendTime.
    induction calls as [|[now e] rest IH]; intros last; simpl.
    + constructor.
    + unfold animateSend, sendMovement. destruct (dead e); [apply IH|].
      destruct (Qle_bool SEND_INTERVAL (now - last)); simpl; [|apply IH].
      constructor; [apply IH|]. apply (sent_after now rest).
  - revert lastSendTime.
    induction calls as [|[now e] rest IH]; intros last; simpl.
    + constructor.
    + assert (Hrest : forall last',
                 last + 0 <= last' ->
                 Forall
                   (fun s =>
                      last + SEND_INTERVAL <= fst s /\
                      exists e0,
                        ((now, e) = (fst s, e0) \/ In (fst s, e0) rest) /\
                        dead e0 = false /\
                        Server.m_x (snd s) = vx (bodyPosition e0) /\
                        Server.m_y (snd s) = vy (bodyPosition e0) /\
                        Server.m_z (snd s) = vz (bodyPosition e0) /\
                        Server.m_meshQx (snd s) = Some (qx (meshQuaternion e0)) /\
                        Server.m_meshQy (snd s) = Some (qy (meshQuaternion e0)) /\
                        Server.m_meshQz (snd s) = Some (qz (meshQuaternion e0)) /\
                        Server.m_meshQw (snd s) = Some (qw (meshQuaternion e0)))
                   (sent last' rest)).
      { intros last' Hl. eapply Forall_impl; [|apply (IH last')].
        simpl. intros s [Hs (e0 & Hin & Hrest)]. split; [lra|].
        exists e0. split; [now right|exact Hrest]. }
      unfold animateSend, sendMovement. destruct (dead e) eqn:Hd.
      * apply Hrest. lra.
      * destruct (Qle_bool SEND_INTERVAL (now - last)) eqn:E; simpl.
        -- apply Qle_bool_iff in E. constructor.
           ++ simpl. split; [lra|]. exists e. repeat split; auto.
           ++ apply Hrest. lra.
        -- apply Hrest. lra.
Qed.

Lemma getSocketIdForEntity_In same rats id :
  getSocketIdForEntity same rats = Some id ->
  exists r, In (id, r) rats /\ same (entity r) = true.
Proof.
  induction rats as [|[k r] rest IH]; simpl; [discriminate|].
  destruct (same (entity r)) eqn:E.
  - intros [= ->]. exists r. split; [now left|exact E].
  - intros H. destruct (IH H) as (r' & Hin & Hs). exists r'. split; auto.
Qed.

Lemma In_keys (V : Type) k (v : V) o : In (k, v) o -> In k (keys o).
Proof. intros H. unfold keys. now apply (in_map fst) in H. Qed.

Lemma updateBall_struck raycast dt ball dmg isHead victimIsRemote :
  updateBall raycast dt ball = Struck dmg isHead victimIsRemote ->
  toRemove ball = false /\ age ball + dt <= BALL_LIFETIME /\
  dmg = CheeseGun.dmg isHead /\
  exists hitPoint hitNormal,
    raycast (position ball)
      (add (position ball)
         (scale dt (add (velocity ball) (mkVector3 0 (BALL_GRAVITY * dt) 0))))
    = Contact (EntityBody false victimIsRemote isHead) hitPoint hitNormal.
Proof.
  unfold updateBall.
  destruct (Qle_bool (age ball + dt) BALL_LIFETIME) eqn:Ha; simpl;
    [|discriminate].
  destruct (toRemove ball) eqn:Ht; [discriminate|].
  destruct (negb _); [discriminate|].
  destruct (raycast _ _) as [|[|d r h|] p n] eqn:Hr; try discriminate.
  destruct d; [discriminate|]. intros [= <- <- <-].
  apply Qle_bool_iff in Ha. repeat split; auto. now exists p, n.
Qed.

(** X20 ([CheeseGun.update], the entity branch of lines 171-195): a ball is
    destroyed on an entity only when the closest body on its path belongs to
    an entity other than its owner that is not dead, and only while the ball
    is within its lifetime; the damage it calls [onHitEntity] with is 3 for
    the head shape and 1 otherwise. In particular a ball never damages its
    owner or a dead rat. *)
Theorem only_live_entities_are_struck raycast dt ball :
  forall dmg isHead victimIsRemote,
    updateBall raycast dt ball = Struck dmg isHead victimIsRemote <->
    toRemove ball = false /\ age ball + dt <= BALL_LIFETIME /\
    dmg = (if isHead then 3 else 1)%Z /\
    let v := add (velocity ball) (mkVector3 0 (BALL_GRAVITY * dt) 0) in
    (1 # 10000) * (1 # 10000) <= dot (scale dt v) (scale dt v) /\
    exists hitPoint hitNormal,
      raycast (position ball) (add (position ball) (scale dt v))
      = Contact (EntityBody false victimIsRemote isHead) hitPoint hitNormal.
Proof.
  intros dmg isHead r. split.
  - unfold updateBall.
    destruct (Qle_bool (age ball + dt) BALL_LIFETIME) eqn:Ha; simpl;
      [|discriminate].
    destruct (toRemove ball) eqn:Ht; [discriminate|].
    destruct (Qle_bool _ (dot _ _)) eqn:Hs; simpl; [|discriminate].
    destruct (raycast _ _) as [|[|d r' h|] p n] eqn:Hr; try discriminate.
    destruct d; [discriminate|]. intros [= <- <- <-].
    apply Qle_bool_iff in Ha. apply Qle_bool_iff in Hs.
    repeat split; auto. now exists p, n.
  - intros (Ht & Ha & -> & Hs & p & n & Hr). unfold updateBall.
    apply Qle_bool_iff in Ha. apply Qle_bool_iff in Hs.
    rewrite Ha, Ht. simpl. cbv zeta in Hs, Hr. rewrite Hs, Hr. reflexivity.
Qed.

(** X21 ([getSocketIdForEntity], [main.ts]'s [onHitEntity] and the entity
    branch of [CheeseGun.update]): a [hit] the client sends for a ball names
    an avatar of its [remoteRats] whose entity is the one the ball struck,
    that entity was remote and alive, and the damage is 1 or 3. So a client
    whose own id is not among its avatars never reports a hit on itself. *)
Theorem reported_hit_names_a_remote_avatar raycast dt ball st same h :
  report st same (updateBall raycast dt ball) = Some h ->
  (Server.damage h = 1 \/ Server.damage h = 3)%Z /\
  Server.victimId h <> ""%string /\
  (exists r,
     In (Server.victimId h, r) (remoteRats st) /\ same (entity r) = true) /\
  (get (myId st) (remoteRats st) = None -> Server.victimId h <> myId st) /\
  exists isHead hitPoint hitNormal,
    Server.damage h = CheeseGun.dmg isHead /\
    raycast (position ball)
      (add (position ball)
         (scale dt (add (velocity ball) (mkVector3 0 (BALL_GRAVITY * dt) 0))))
    = Contact (EntityBody false true isHead) hitPoint hitNormal.
Proof.
  destruct (updateBall raycast dt ball) as [| |dmg isHead r] eqn:Hu;
    simpl; try discriminate.
  apply updateBall_struck in Hu. destruct Hu as (_ & _ & -> & p & n & Hr).
  unfold onHitEntity. destruct r; [|discriminate].
  destruct (getSocketIdForEntity same (remoteRats st)) as [id|] eqn:Hg;
    [|discriminate].
  destruct (String.eqb id "") eqn:Hid; [discriminate|].
  intros [= <-]. simpl. apply String.eqb_neq in Hid.
  destruct (getSocketIdForEntity_In _ _ _ Hg) as (r & Hin & Hs).
  split; [destruct isHead; auto|]. split; [exact Hid|].
  split; [now exists r|]. split.
  - intros Hnone ->. apply get_None_keys in Hnone. apply Hnone.
    now apply In_keys with r.
  - now exists isHead, p, n.
Qed.

(** X21 at a client with one avatar, whose head the ball strikes. *)
Lemma reported_hit_names_a_remote_avatar_witness :
  report
    (Client.mkState
       [("B"%string,
         mkRemoteRat (newRatEntity (mkVector3 0 2 0) "B"%string)
           (mkVector3 0 2 0) identityQuat 0)]
       "A"%string)
    (fun _ => true)
    (updateBall
       (fun _ _ : Vector3 =>
          Contact (EntityBody false true true)
            (mkVector3 1 0 0) (mkVector3 (-1) 0 0))
       1 (mkBall (mkVector3 1 0 0) (mkVector3 0 0 0) 0 false))
  = Some (Server.mkHit "B"%string 3%Z) /\
  Server.victimId (Server.mkHit "B"%string 3%Z) <> "A"%string.
Proof.
  assert (H : report
                (Client.mkState
                   [("B"%string,
                     mkRemoteRat (newRatEntity (mkVector3 0 2 0) "B"%string)
                       (mkVector3 0 2 0) identityQuat 0)]
                   "A"%string)
                (fun _ => true)
                (updateBall
                   (fun _ _ : Vector3 =>
                      Contact (EntityBody false true true)
                        (mkVector3 1 0 0) (mkVector3 (-1) 0 0))
                   1 (mkBall (mkVector3 1 0 0) (mkVector3 0 0 0) 0 false))
              = Some (Server.mkHit "B"%string 3%Z)).
  { vm_compute. reflexivity. }
  split; [exact H|].
  apply (proj1 (proj2 (proj2 (proj2
           (reported_hit_names_a_remote_avatar _ _ _ _ _ _ H))))).
  reflexivity.
Defined.

Lemma bounce_normal v n :
  dot n n == 1 -> dot (bounce v n) n == - BALL_RESTITUTION * dot v n.
Proof.
  intros Hn.
  assert (E : dot (bounce v n) n
              == BALL_RESTITUTION * dot v n
                 - 2 * BALL_RESTITUTION * dot v n * dot n n).
  { unfold bounce, dot, add, scale. simpl. ring. }
  rewrite E, Hn. ring.
Qed.

Lemma bounce_speed v n :
  dot n n == 1 ->
  dot (bounce v n) (bounce v n)
  == BALL_RESTITUTION * BALL_RESTITUTION * dot v v.
Proof.
  intros Hn.
  assert (E : dot (bounce v n) (bounce v n)
              == BALL_RESTITUTION * BALL_RESTITUTION * dot v v
                 + 4 * BALL_RESTITUTION * BALL_RESTITUTION
                   * dot v n * dot v n * (dot n n - 1)).
  { unfold bounce, dot, add, scale. simpl. ring. }
  rewrite E, Hn. ring.
Qed.

(** X22 (the bounce of [CheeseGun.update], lines 160-202): a ball within its
    lifetime whose path meets a wall, the ground or the body of a dead rat
    stays in play, is put 0.05 along the normal from the point of contact,
    and for a unit normal its speed along the normal is reversed and all of
    its speed is scaled by the restitution 0.9 (its square by 0.81). *)
Theorem ball_bounces_off_walls_and_the_dead raycast dt ball body p n :
  let v := add (velocity ball) (mkVector3 0 (BALL_GRAVITY * dt) 0) in
  toRemove ball = false ->
  age ball + dt <= BALL_LIFETIME ->
  (1 # 10000) * (1 # 10000) <= dot (scale dt v) (scale dt v) ->
  raycast (position ball) (add (position ball) (scale dt v))
  = Contact body p n ->
  (body = OtherBody \/ exists r h, body = EntityBody true r h) ->
  dot n n == 1 ->
  exists ball',
    updateBall raycast dt ball = Flying ball' /\
    position ball' = add p (scale (5 # 100) n) /\
    age ball' = age ball + dt /\
    dot (velocity ball') n == - (9 # 10) * dot v n /\
    dot (velocity ball') (velocity ball') == (81 # 100) * dot v v.
Proof.
  intros v Ht Ha Hs Hr Hb Hn.
  apply Qle_bool_iff in Ha. apply Qle_bool_iff in Hs.
  exists (mkBall (bounce v n) (add p (scale (5 # 100) n)) (age ball + dt)
            false).
  split.
  - unfold updateBall. rewrite Ha, Ht. simpl. fold v. rewrite Hs, Hr. simpl.
    destruct Hb as [->|(r & h & ->)]; reflexivity.
  - simpl. split; [reflexivity|]. split; [reflexivity|]. split.
    + rewrite (bounce_normal v n Hn). unfold BALL_RESTITUTION. ring.
    + rewrite (bounce_speed v n Hn). unfold BALL_RESTITUTION. ring.
Qed.

(** X22 at a ball that flies into a wall at 10 units a second. *)
Lemma ball_bounces_off_walls_and_the_dead_witness :
  exists ball',
    updateBall
      (fun _ _ => Contact OtherBody (mkVector3 1 0 0) (mkVector3 (-1) 0 0))
      (1 # 10) (mkBall (mkVector3 10 0 0) (mkVector3 0 0 0) 0 false)
    = Flying ball' /\
    position ball' = add (mkVector3 1 0 0) (scale (5 # 100) (mkVector3 (-1) 0 0)).
Proof.
  destruct (ball_bounces_off_walls_and_the_dead
              (fun _ _ => Contact OtherBody (mkVector3 1 0 0) (mkVector3 (-1) 0 0))
              (1 # 10) (mkBall (mkVector3 10 0 0) (mkVector3 0 0 0) 0 false)
              OtherBody (mkVector3 1 0 0) (mkVector3 (-1) 0 0))
    as (ball' & Hu & Hp & _).
  - reflexivity.
  - vm_compute. discriminate.
  - vm_compute. discriminate.
  - reflexivity.
  - now left.
  - reflexivity.
  - exists ball'. split; [exact Hu|exact Hp].
Defined.

Lemma updateBall_flying raycast dt ball ball' :
  updateBall raycast dt ball = Flying ball' ->
  age ball' = age ball + dt /\ toRemove ball' = false /\
  age ball' <= BALL_LIFETIME.
Proof.
  unfold updateBall.
  destruct (Qle_bool (age ball + dt) BALL_LIFETIME) eqn:Ha; simpl;
    [|discriminate].
  apply Qle_bool_iff in Ha.
  destruct (toRemove ball) eqn:Ht; [discriminate|].
  destruct (negb _); [now intros [= <-]|].
  destruct (raycast _ _) as [|[|d r h|] p n]; try (now intros [= <-]).
  destruct d; [now intros [= <-]|discriminate].
Qed.

Lemma fly_age frames :
  forall ball ball',
    fly frames ball = Some ball' ->
    age ball' == age ball + elapsedTime frames /\
    (frames <> [] -> age ball' <= BALL_LIFETIME /\ toRemove ball' = false).
Proof.
  induction frames as [|[dt ray] rest IH]; intros ball ball'; simpl.
  - intros [= <-]. split; [ring|congruence].
  - destruct (updateBall ray dt ball) as [|b|] eqn:Hu; try discriminate.
    intros Hf. apply updateBall_flying in Hu. destruct Hu as (Ha & Ht & Hl).
    destruct (IH _ _ Hf) as [Hage Hrest]. split.
    + rewrite Hage, Ha. ring.
    + intros _. destruct rest as [|f rest'].
      * simpl in Hf. injection Hf as <-. auto.
      * apply Hrest. discriminate.
Qed.

(** X23 (the lifetime of a ball, [CheeseGun.update] lines 122-131): over
    any frames and whatever the ball meets, a ball that is still in play has
    aged by the sum of the time steps, is not marked for removal and is at
    most [BALL_LIFETIME] = 5 seconds old; so once the frames add up to more
    than the rest of its lifetime the ball is gone. *)
Theorem ball_lifetime_is_bounded frames ball :
  frames <> [] ->
  (forall ball',
     fly frames ball = Some ball' ->
     age ball' == age ball + elapsedTime frames /\
     age ball' <= 5 /\ toRemove ball' = false) /\
  (5 < age ball + elapsedTime frames -> fly frames ball = None).
Proof.
  intros Hne. split.
  - intros ball' Hf. destruct (fly_age _ _ _ Hf) as [Ha Hr].
    destruct (Hr Hne) as [Hl Ht]. unfold BALL_LIFETIME in Hl. auto.
  - intros Hlt. destruct (fly frames ball) as [ball'|] eqn:Hf; [|reflexivity].
    destruct (fly_age _ _ _ Hf) as [Ha Hr]. destruct (Hr Hne) as [Hl _].
    unfold BALL_LIFETIME in Hl. lra.
Qed.

(** X23 at a new ball over three frames of two seconds in an empty world. *)
Lemma ball_lifetime_is_bounded_witness :
  fly [(2, fun _ _ => Miss); (2, fun _ _ => Miss); (2, fun _ _ => Miss)]
    (mkBall (mkVector3 10 0 0) (mkVector3 0 0 0) 0 false) = None.
Proof.
  apply (proj2 (ball_lifetime_is_bounded
                  [(2, fun _ _ => Miss); (2, fun _ _ => Miss);
                   (2, fun _ _ => Miss)]
                  (mkBall (mkVector3 10 0 0) (mkVector3 0 0 0) 0 false)
                  ltac:(discriminate))).
  vm_compute. reflexivity.
Defined.

End WeaponExtra.

(** ** The name plate *)

Module BillboardExtra.

Import RatBillboard.

Local Open Scope Z_scope.

(** X24 ([RatBillboard.draw] and [setHealth]): for every health, also a
    negative one or one above the maximum, the plate shows DEAD in red
    exactly when the health is at most 0 and the name in white otherwise;
    the bar always has three segments, of which min(max(health, 0), 3) are
    lit, in red at health 1 and in green above; and [setHealth] redraws
    exactly when the health changes. *)
Theorem billboard_shows_health name health :
  let p := draw name health in
  (health <= 0 ->
   displayText p = "DEAD"%string /\ textColor p = "#ff0000"%string) /\
  (0 < health ->
   displayText p = name /\ textColor p = "#ffffff"%string) /\
  List.length (segments p) = 3%nat /\
  lit p = Z.to_nat (Z.min (Z.max health 0) 3) /\
  (health = 1 ->
   segments p = ["#ff0000"; "#550000"; "#550000"]%string) /\
  (forall i c, nth_error (segments p) i = Some c ->
               c = "#00ff00"%string <-> 1 < health /\ Z.of_nat i < health) /\
  (forall old,
     snd (setHealth name old health) = None <-> old = health) /\
  (forall old,
     old <> health -> setHealth name old health = (health, Some p)).
Proof.
  cbv zeta. unfold draw, lit, setHealth. cbn [displayText textColor segments].
  split; [|split; [|split; [|split; [|split; [|split; [|split]]]]]].
  - intros H. apply Z.leb_le in H. now rewrite H.
  - intros H. apply Z.leb_gt in H. now rewrite H.
  - reflexivity.
  - simpl.
    destruct (0 <? health) eqn:H0, (1 <? health) eqn:H1, (2 <? health) eqn:H2,
      (health <=? 1) eqn:Hle; simpl;
      repeat match goal with
        | H : (_ <? _) = true |- _ => apply Z.ltb_lt in H
        | H : (_ <? _) = false |- _ => apply Z.ltb_ge in H
        | H : (_ <=? _) = true |- _ => apply Z.leb_le in H
        | H : (_ <=? _) = false |- _ => apply Z.leb_gt in H
        end; lia.
  - intros ->. reflexivity.
  - intros i c. simpl.
    destruct i as [|[|[|i]]]; simpl; try (destruct i; discriminate);
      intros [= <-];
      match goal with
      | |- context [?a <? health] => destruct (a <? health) eqn:Hi
      end;
      destruct (health <=? 1) eqn:Hle;
         repeat match goal with
           | H : (_ <? _) = true |- _ => apply Z.ltb_lt in H
           | H : (_ <? _) = false |- _ => apply Z.ltb_ge in H
           | H : (_ <=? _) = true |- _ => apply Z.leb_le in H
           | H : (_ <=? _) = false |- _ => apply Z.leb_gt in H
           end;
         split; try discriminate; try lia; auto; intros; lia.
  - intros old. destruct (old =? health) eqn:E; simpl.
    + apply Z.eqb_eq in E. tauto.
    + apply Z.eqb_neq in E. split; [discriminate|congruence].
  - intros old Hne. apply Z.eqb_neq in Hne. now rewrite Hne.
Qed.

End BillboardExtra.

(** ** The server's broadcasts on the clients *)

Module MirrorExtra.

Import JSObject JSObjectFacts.

Section Mirror.

Variable random : nat -> Q.
Variable layDown : Client.Vector3 -> Client.Quaternion.

Lemma alter_state (f : Client.RemoteRat -> Client.RemoteRat) id c r :
  get id (Client.remoteRats c) = Some r ->
  get id (alter f id (Client.remoteRats c)) = Some (f r) /\
  forall id', id' <> id ->
    get id' (alter f id (Client.remoteRats c)) = get id' (Client.remoteRats c).
Proof.
  intros Hr. split.
  - now rewrite get_alter_same, Hr.
  - intros id' Hne. rewrite get_alter. apply String.eqb_neq in Hne.
    now rewrite Hne.
Qed.

(** X25 (the server's [hit] and the client's [playerDamaged] and
    [playerDied] listeners): when the server processes a hit on a living
    session, a client that shows the victim as a living avatar ends, after
    the messages of that hit, with the avatar dead exactly when the session
    is down. If the victim survives, the avatar has the session's hit points
    and flashes; if it dies, the avatar starts the death presentation, and
    its hit points are the session's minus 999, because [playerDied] is
    applied as a damage of 999 after [playerDamaged] has stored the hit
    points. No other avatar changes and the victim's target position is
    kept. *)
Theorem hit_is_mirrored_on_clients st sid data v s now impactDir c r :
  Server.gameInProgress st = true ->
  Server.session st (Server.victimId data) = Some v ->
  Server.session st sid = Some s ->
  (0 < Server.hp v)%Z ->
  get (Server.victimId data) (Client.remoteRats c) = Some r ->
  Client.dead (Client.entity r) = false ->
  let c' :=
    Client.deliver layDown now impactDir
      (Client.inbox (Client.myId c) (snd (Server.hit st sid data))) c in
  exists v' r',
    Server.session (fst (Server.hit st sid data)) (Server.victimId data)
    = Some v' /\
    get (Server.victimId data) (Client.remoteRats c') = Some r' /\
    Client.dead (Client.entity r') = (Server.hp v' <=? 0)%Z /\
    ((0 < Server.hp v')%Z ->
     Client.hp (Client.entity r') = Server.hp v' /\
     Client.flashTimer (Client.entity r') = Client.FLASH_DURATION) /\
    ((Server.hp v' <= 0)%Z ->
     Client.hp (Client.entity r') = (Server.hp v' - 999)%Z /\
     Client.deathPhase (Client.entity r') = Client.launch /\
     Client.deathTimer (Client.entity r') = 0%Q /\
     Client.deathTargetQuat (Client.entity r') = Some (layDown impactDir)) /\
    Client.targetPos r' = Client.targetPos r /\
    Client.myId c' = Client.myId c /\
    forall id, id <> Server.victimId data ->
      get id (Client.remoteRats c') = get id (Client.remoteRats c).
Proof.
  intros Hround Hv Hs Halive Hr Hd. cbv zeta.
  destruct (ServerSpec.hit_live_victim st sid data v s Hround Hv Hs Halive)
    as (v' & Hv' & Hhp & _).
  rewrite (ServerSpec.hit_live st sid data v s Hround Hv Hs Halive) in *.
  cbv zeta in *. exists v'.
  destruct (alter_state (Client.onPlayerDamaged (Server.hp v - Server.damage data))
              _ c r Hr) as [Hg1 Ho1].
  set (c1 := Client.mkState
               (alter (Client.onPlayerDamaged (Server.hp v - Server.damage data))
                  (Server.victimId data) (Client.remoteRats c))
               (Client.myId c)) in *.
  destruct (Server.hp v - Server.damage data <=? 0)%Z eqn:El;
    [destruct (Server.KILLS_TO_WIN <=? Server.kills s + 1)%Z|];
    cbn [snd Client.inbox Client.deliver filter map fst Client.reaches
           fold_left Client.receive];
    fold c1.
  1, 2:
    destruct (alter_state (Client.onPlayerDied layDown impactDir) _ c1 _ Hg1)
      as [Hg2 Ho2];
    eexists; (split; [exact Hv'|]); (split; [exact Hg2|]);
    apply Z.leb_le in El;
    assert (Hle : (Server.hp v' <=? 0)%Z = true) by (apply Z.leb_le; lia);
    rewrite Hle;
    assert (Hlt : (0 <? Server.hp v - Server.damage data)%Z = false)
      by (apply Z.ltb_ge; lia);
    assert (Hk : (Server.hp v - Server.damage data - 999 <=? 0)%Z = true)
      by (apply Z.leb_le; lia);
    unfold Client.onPlayerDied, Client.onPlayerDamaged, Client.takeDamage,
      Client.die, Client.flashColor, Client.set_entity;
    cbn; rewrite Hlt; cbn; rewrite Hd; cbn; rewrite Hk; cbn; rewrite ?Hd;
    cbn; repeat split; try lia; try congruence;
    intros id Hne; exact (eq_trans (Ho2 id Hne) (Ho1 id Hne)).
  eexists. split; [exact Hv'|]. split; [exact Hg1|].
    apply Z.leb_gt in El.
    assert (Hle : (Server.hp v' <=? 0)%Z = false) by (apply Z.leb_gt; lia).
    rewrite Hle.
    assert (Hlt : (0 <? Server.hp v - Server.damage data)%Z = true)
      by (apply Z.ltb_lt; lia).
    unfold Client.onPlayerDamaged, Client.flashColor, Client.set_entity.
    rewrite Hlt. cbn. repeat split; try lia; try congruence.
    intros id Hne. apply (Ho1 id Hne).
Qed.

(** X26 (the scheduled respawn and the client's [playerRespawn] listener):
    when a respawn fires for a connected player, every other client that
    shows that player ends with a living avatar with [MAX_HP] hit points,
    standing at its target position, whatever state the avatar was in. If
    the session is the one the respawn was armed for, avatar and session
    agree on hit points and position; if the player has rejoined in between,
    the session is untouched and the avatar is put at a position the server
    does not hold. *)
Theorem respawn_is_mirrored_on_clients st vId victim p now impactDir c r :
  Server.session st vId = Some p ->
  Client.myId c <> vId ->
  get vId (Client.remoteRats c) = Some r ->
  let st' := fst (Server.respawnCb random vId victim st) in
  let c' :=
    Client.deliver layDown now impactDir
      (Client.inbox (Client.myId c)
         (snd (Server.respawnCb random vId victim st))) c in
  exists r',
    get vId (Client.remoteRats c') = Some r' /\
    Client.dead (Client.entity r') = false /\
    Client.hp (Client.entity r') = Server.MAX_HP /\
    Client.meshPosition (Client.entity r') = Client.targetPos r' /\
    Client.bodyPosition (Client.entity r') = Client.targetPos r' /\
    Client.meshQuaternion (Client.entity r') = Client.targetMeshQuat r' /\
    (Server.oid p = victim ->
     exists p',
       Server.session st' vId = Some p' /\
       Server.hp p' = Client.hp (Client.entity r') /\
       Client.targetPos r'
       = Client.mkVector3 (Server.x p') (Server.y p') (Server.z p')) /\
    (Server.oid p <> victim ->
     Server.session st' vId = Some p /\
     Client.targetPos r'
     = Client.mkVector3
         (Server.spawnCoord (random (Server.randomCalls st))) 2
         (Server.spawnCoord (random (S (Server.randomCalls st))))) /\
    forall id, id <> vId ->
      get id (Client.remoteRats c') = get id (Client.remoteRats c).
Proof.
  intros Hp Hme Hr. cbv zeta.
  unfold Server.respawnCb, Server.session in *. rewrite Hp.
  cbn [fst snd Client.inbox Client.deliver filter map Client.reaches
         fold_left Client.receive Server.players].
  apply String.eqb_neq in Hme. rewrite String.eqb_sym in Hme. rewrite Hme.
  cbn [Client.remoteRats].
  destruct (alter_state
              (Client.respawnRemoteRat
                 (Server.spawnCoord (random (Server.randomCalls st))) 2
                 (Server.spawnCoord (random (S (Server.randomCalls st))))
                 Server.MAX_HP) vId c r Hr) as [Hg Ho].
  eexists. split; [exact Hg|]. cbn.
  repeat split; auto.
  - intros Ho'. apply Nat.eqb_eq in Ho'. rewrite Ho'.
    rewrite get_alter_same, Hp. cbn. eexists. split; [reflexivity|].
    cbn. split; reflexivity.
  - apply Nat.eqb_neq in H. now rewrite H.
Qed.

End Mirror.

(** X25 at the duel: A's client shows B, and A kills B with a head shot. *)
Lemma hit_is_mirrored_on_clients_witness :
  exists r',
    get "B"%string
      (Client.remoteRats
         (Client.deliver (fun _ => Client.identityQuat) 0
            (Client.mkVector3 1 0 0)
            (Client.inbox "A"
               (snd (Server.hit Server.duel "A" (Server.mkHit "B" 3))))
            (Client.mkState
               [("B"%string,
                 Client.mkRemoteRat
                   (Client.newRatEntity (Client.mkVector3 0 2 0) "B")
                   (Client.mkVector3 0 2 0) Client.identityQuat 0)]
               "A")))
    = Some r' /\
    Client.dead (Client.entity r') = true /\
    Client.hp (Client.entity r') = (-999)%Z.
Proof.
  destruct (hit_is_mirrored_on_clients (fun _ => Client.identityQuat)
              Server.duel "A" (Server.mkHit "B" 3)
              (Server.mkPlayer 1 (Server.spawnCoord (1 # 2)) 2
                 (Server.spawnCoord (1 # 2)) 0 0 0 1 "Anonymous Rat" 3 0 0
                 "fedora" 0xDC4A3C 0xE8B84D 0xBE4545)
              (Server.mkPlayer 0 (Server.spawnCoord (1 # 2)) 2
                 (Server.spawnCoord (1 # 2)) 0 0 0 1 "Anonymous Rat" 3 0 0
                 "fedora" 0xDC4A3C 0xE8B84D 0xBE4545)
              0%Q (Client.mkVector3 1 0 0)
              (Client.mkState
                 [("B"%string,
                   Client.mkRemoteRat
                     (Client.newRatEntity (Client.mkVector3 0 2 0) "B")
                     (Client.mkVector3 0 2 0) Client.identityQuat 0)]
                 "A")
              (Client.mkRemoteRat
                 (Client.newRatEntity (Client.mkVector3 0 2 0) "B")
                 (Client.mkVector3 0 2 0) Client.identityQuat 0))
    as (v' & r' & Hv' & Hr' & Hdead & _ & Hdown & _).
  - reflexivity.
  - reflexivity.
  - reflexivity.
  - vm_compute. reflexivity.
  - reflexivity.
  - reflexivity.
  - exists r'. split; [exact Hr'|].
    assert (Hhp : Server.hp v' = 0%Z).
    { vm_compute in Hv'. injection Hv' as <-. reflexivity. }
    rewrite Hhp in *. split; [exact Hdead|].
    apply Hdown. lia.
Defined.

(** X26 at the duel: B's respawn after A has killed it, on A's client. *)
Lemma respawn_is_mirrored_on_clients_witness :
  exists r',
    get "B"%string
      (Client.remoteRats
         (Client.deliver (fun _ => Client.identityQuat) 0
            (Client.mkVector3 1 0 0)
            (Client.inbox "A"
               (snd (Server.respawnCb Server.half "B" 1
                       (fst (Server.hit Server.duel "A"
                               (Server.mkHit "B" 3))))))
            (Client.fallen (fun _ => Client.identityQuat))))
    = Some r' /\
    Client.dead (Client.entity r') = false /\
    Client.hp (Client.entity r') = Server.MAX_HP.
Proof.
  edestruct (respawn_is_mirrored_on_clients Server.half
               (fun _ => Client.identityQuat)
               (fst (Server.hit Server.duel "A" (Server.mkHit "B" 3)))
               "B" 1%nat
               (Server.mkPlayer 1 (Server.spawnCoord (1 # 2)) 2
                 (Server.spawnCoord (1 # 2)) 0 0 0 1 "Anonymous Rat" 0 0 1
                 "fedora" 0xDC4A3C 0xE8B84D 0xBE4545)
               0%Q (Client.mkVector3 1 0 0)
               (Client.fallen (fun _ => Client.identityQuat)))
    as (r' & Hr' & Hdead & Hhp & _).
  - vm_compute. reflexivity.
  - vm_compute. discriminate.
  - reflexivity.
  - exists r'. auto.
Defined.

End MirrorExtra.
